(** * ST7789 display driver chip: a shallow embedding of [st7789.chip.c]

    The chip is a reactive state machine: the host simulator calls
    [chip_pin_change] on every edge of the CS, DC and RST lines and
    [chip_spi_done] whenever a batch of bytes has been received.  The
    handlers mutate one [chip_state_t] and call back into the host
    ([spi_start], [spi_stop], [buffer_write], [printf]).

    The embedding threads a pair (chip state, host state) through every
    handler.  C integers are [Z] with the wrap-around of their type
    written out; bytes received from the transport are [byte], and a
    batch [(buffer, count)] is the list of its [count] bytes.  The
    bodies of the loops and of the larger [switch] cases are
    definitions of their own, named after what they do and marked with
    the lines they come from. *)

From Stdlib Require Import ZArith List Bool Lia.
From Stdlib Require Import Strings.Byte.
From stdpp Require Import base list.
Import ListNotations.
Local Open Scope Z_scope.

(** ** Machine integers *)

Definition u8 (z : Z) : Z := z mod 2 ^ 8.
Definition u16 (z : Z) : Z := z mod 2 ^ 16.
Definition u32 (z : Z) : Z := z mod 2 ^ 32.

(** Conversion of a 32-bit pattern to [int] (two's complement). *)
Definition int32 (z : Z) : Z :=
  let m := z mod 2 ^ 32 in if m <? 2 ^ 31 then m else m - 2 ^ 32.

(** [sizeof(uint32_t)], and the product [index * sizeof(color)] in
    [size_t], which is 32 bits wide on the wasm32 target of the chip. *)
Definition sizeof_color : Z := 4.
Definition size_mul (a b : Z) : Z := (a * b) mod 2 ^ 32.

Definition byte_val (b : byte) : Z := Z.of_N (Byte.to_N b).

(** A C condition [(a & mask)]: true when the masked value is non-zero. *)
Definition flag (a mask : Z) : bool := negb (Z.land a mask =? 0).

(** ** Constants of the source *)

Definition LOW : Z := 0.
Definition HIGH : Z := 1.

Definition CMD_NOP : Z := 0x00.
Definition CMD_SWRESET : Z := 0x01.
Definition CMD_SLPIN : Z := 0x10.
Definition CMD_SLPOUT : Z := 0x11.
Definition CMD_INVOFF : Z := 0x20.
Definition CMD_INVON : Z := 0x21.
Definition CMD_DISPOFF : Z := 0x28.
Definition CMD_DISPON : Z := 0x29.
Definition CMD_CASET : Z := 0x2a.
Definition CMD_RASET : Z := 0x2b.
Definition CMD_RAMWR : Z := 0x2c.
Definition CMD_MADCTL : Z := 0x36.
Definition CMD_COLMOD : Z := 0x3a.
Definition CMD_FRMCTR1 : Z := 0xb1.
Definition CMD_FRMCTR2 : Z := 0xb2.
Definition CMD_FRMCTR3 : Z := 0xb3.
Definition CMD_INVCTR : Z := 0xb4.
Definition CMD_DISSET5 : Z := 0xb6.
Definition CMD_PWCTR1 : Z := 0xc0.
Definition CMD_PWCTR2 : Z := 0xc1.
Definition CMD_PWCTR3 : Z := 0xc2.
Definition CMD_PWCTR4 : Z := 0xc3.
Definition CMD_PWCTR5 : Z := 0xc4.
Definition CMD_VMCTR : Z := 0xc5.
Definition CMD_GMCTRP1 : Z := 0xe0.
Definition CMD_GMCTRN1 : Z := 0xe1.

Definition SCAN_MY : Z := 0x80.
Definition SCAN_MX : Z := 0x40.
Definition SCAN_MV : Z := 0x20.

(** ** The chip state *)

Inductive chip_mode_t : Type := MODE_COMMAND | MODE_DATA.

Definition mode_eqb (a b : chip_mode_t) : bool :=
  match a, b with
  | MODE_COMMAND, MODE_COMMAND | MODE_DATA, MODE_DATA => true
  | _, _ => false
  end.

(** [chip_state_t] of the source.  The pin and SPI handles and the
    transport scratch buffer carry no state of their own; the three
    watched pins are told apart by [pin_t] below. *)
Record chip_state_t : Type := mkChip {
  framebuffer : Z;
  width : Z;
  height : Z;
  mode : chip_mode_t;
  command_code : Z;
  command_size : Z;
  command_index : Z;
  command_buf : list byte;
  ram_write : bool;
  active_column : Z;
  active_page : Z;
  column_start : Z;
  column_end : Z;
  page_start : Z;
  page_end : Z;
  scanning_direction : Z
}.

Definition set_mode (v : chip_mode_t) (c : chip_state_t) : chip_state_t :=
  mkChip (framebuffer c) (width c) (height c) v (command_code c)
    (command_size c) (command_index c) (command_buf c) (ram_write c)
    (active_column c) (active_page c) (column_start c) (column_end c)
    (page_start c) (page_end c) (scanning_direction c).

Definition set_command_code (v : Z) (c : chip_state_t) : chip_state_t :=
  mkChip (framebuffer c) (width c) (height c) (mode c) v
    (command_size c) (command_index c) (command_buf c) (ram_write c)
    (active_column c) (active_page c) (column_start c) (column_end c)
    (page_start c) (page_end c) (scanning_direction c).

Definition set_command_size (v : Z) (c : chip_state_t) : chip_state_t :=
  mkChip (framebuffer c) (width c) (height c) (mode c) (command_code c)
    v (command_index c) (command_buf c) (ram_write c)
    (active_column c) (active_page c) (column_start c) (column_end c)
    (page_start c) (page_end c) (scanning_direction c).

Definition set_command_index (v : Z) (c : chip_state_t) : chip_state_t :=
  mkChip (framebuffer c) (width c) (height c) (mode c) (command_code c)
    (command_size c) v (command_buf c) (ram_write c)
    (active_column c) (active_page c) (column_start c) (column_end c)
    (page_start c) (page_end c) (scanning_direction c).

Definition set_command_buf (v : list byte) (c : chip_state_t) : chip_state_t :=
  mkChip (framebuffer c) (width c) (height c) (mode c) (command_code c)
    (command_size c) (command_index c) v (ram_write c)
    (active_column c) (active_page c) (column_start c) (column_end c)
    (page_start c) (page_end c) (scanning_direction c).

Definition set_ram_write (v : bool) (c : chip_state_t) : chip_state_t :=
  mkChip (framebuffer c) (width c) (height c) (mode c) (command_code c)
    (command_size c) (command_index c) (command_buf c) v
    (active_column c) (active_page c) (column_start c) (column_end c)
    (page_start c) (page_end c) (scanning_direction c).

Definition set_active_column (v : Z) (c : chip_state_t) : chip_state_t :=
  mkChip (framebuffer c) (width c) (height c) (mode c) (command_code c)
    (command_size c) (command_index c) (command_buf c) (ram_write c)
    v (active_page c) (column_start c) (column_end c)
    (page_start c) (page_end c) (scanning_direction c).

Definition set_active_page (v : Z) (c : chip_state_t) : chip_state_t :=
  mkChip (framebuffer c) (width c) (height c) (mode c) (command_code c)
    (command_size c) (command_index c) (command_buf c) (ram_write c)
    (active_column c) v (column_start c) (column_end c)
    (page_start c) (page_end c) (scanning_direction c).

Definition set_column_start (v : Z) (c : chip_state_t) : chip_state_t :=
  mkChip (framebuffer c) (width c) (height c) (mode c) (command_code c)
    (command_size c) (command_index c) (command_buf c) (ram_write c)
    (active_column c) (active_page c) v (column_end c)
    (page_start c) (page_end c) (scanning_direction c).

Definition set_column_end (v : Z) (c : chip_state_t) : chip_state_t :=
  mkChip (framebuffer c) (width c) (height c) (mode c) (command_code c)
    (command_size c) (command_index c) (command_buf c) (ram_write c)
    (active_column c) (active_page c) (column_start c) v
    (page_start c) (page_end c) (scanning_direction c).

Definition set_page_start (v : Z) (c : chip_state_t) : chip_state_t :=
  mkChip (framebuffer c) (width c) (height c) (mode c) (command_code c)
    (command_size c) (command_index c) (command_buf c) (ram_write c)
    (active_column c) (active_page c) (column_start c) (column_end c)
    v (page_end c) (scanning_direction c).

Definition set_page_end (v : Z) (c : chip_state_t) : chip_state_t :=
  mkChip (framebuffer c) (width c) (height c) (mode c) (command_code c)
    (command_size c) (command_index c) (command_buf c) (ram_write c)
    (active_column c) (active_page c) (column_start c) (column_end c)
    (page_start c) v (scanning_direction c).

Definition set_scanning_direction (v : Z) (c : chip_state_t) : chip_state_t :=
  mkChip (framebuffer c) (width c) (height c) (mode c) (command_code c)
    (command_size c) (command_index c) (command_buf c) (ram_write c)
    (active_column c) (active_page c) (column_start c) (column_end c)
    (page_start c) (page_end c) v.

(** ** The host

    The host runtime (wokwi-api.h) is not part of the repository.  Its
    calls are recorded in order of issue; the pixel store is a list of
    32-bit colour cells. *)

Inductive pin_t : Type := PIN_CS | PIN_DC | PIN_RST.

Inductive host_call : Type :=
| call_spi_start
| call_spi_stop
| call_buffer_write (buffer offset value : Z)
| call_printf_unknown (code : Z).

Record host_t : Type := mkHost {
  cs_level : Z;
  cells : list Z;
  calls : list host_call
}.

Definition sim : Type := chip_state_t * host_t.

Definition log (e : host_call) (h : host_t) : host_t :=
  mkHost (cs_level h) (cells h) (calls h ++ [e]).

(** Modelled from the spec: the transport's [start] and [stop] are
    requests to the host ("an external call back into the host, not a
    reentry into this model"); they are recorded and change nothing
    else. *)
Definition spi_start (h : host_t) : host_t := log call_spi_start h.
Definition spi_stop (h : host_t) : host_t := log call_spi_stop h.

(** Modelled from the spec: the pixel store's "byte-offset write
    primitive for committing one color cell (4 bytes)".  The cell at
    byte offset [offset] is cell [offset / 4]; an offset past the end of
    the store changes no cell. *)
Definition buffer_write (buffer offset value : Z) (h : host_t) : host_t :=
  mkHost (cs_level h)
         (<[Z.to_nat (offset / 4) := value]> (cells h))
         (calls h ++ [call_buffer_write buffer offset value]).

Definition pin_read_cs (h : host_t) : Z := cs_level h.

(** ** chip_reset (lines 85-100) *)

Definition chip_reset (chip : chip_state_t) : chip_state_t :=
  let chip := set_ram_write false chip in
  let chip := set_active_column 0 chip in
  let chip := set_active_page 0 chip in
  let chip := set_column_start 0 chip in
  let chip := set_page_start 0 chip in
  let chip :=
    if (0 <? width chip) && (0 <? height chip) then
      set_page_end (u32 (height chip - 1))
        (set_column_end (u32 (width chip - 1)) chip)
    else
      set_page_end 127 (set_column_end 127 chip) in
  set_scanning_direction 0 chip.

(** ** chip_init (lines 102-138)

    [calloc] zeroes the state; [framebuffer_init] returns the handle and
    the extent of the host's pixel store, taken here as arguments.  The
    pin, watch and SPI registrations leave no trace in the state. *)
Definition chip_init (fb w h : Z) : chip_state_t :=
  let chip :=
    mkChip fb w h MODE_COMMAND 0 0 0 (replicate 16 x00) false
           0 0 0 0 0 0 0 in
  let chip := set_mode MODE_COMMAND chip in
  chip_reset chip.

(** ** rgb565_to_rgba (lines 141-150) *)

Definition rgb565_to_rgba (value : Z) : Z :=
  let r5 := Z.land (Z.shiftr value 11) 0x1f in
  let g6 := Z.land (Z.shiftr value 5) 0x3f in
  let b5 := Z.land value 0x1f in
  let r8 := Z.lor (Z.shiftl r5 3) (Z.shiftr r5 2) in
  let g8 := Z.lor (Z.shiftl g6 2) (Z.shiftr g6 4) in
  let b8 := Z.lor (Z.shiftl b5 3) (Z.shiftr b5 2) in
  Z.lor (Z.lor (Z.lor 0xff000000 (Z.shiftl r8 16)) (Z.shiftl g8 8)) b8.

(** ** chip_pin_change (lines 152-195) *)

Definition OPAQUE_BLACK : Z := 0xff000000.

(** The clearing loop of the hardware reset: [i] runs over
    [0 .. width * height - 1], the bound computed in [uint32_t]. *)
Definition clear_framebuffer (chip : chip_state_t) (host : host_t) : host_t :=
  fold_left
    (fun h i => buffer_write (framebuffer chip)
                  (size_mul (Z.of_nat i) sizeof_color) OPAQUE_BLACK h)
    (seq 0 (Z.to_nat (u32 (width chip * height chip))))
    host.

Definition chip_pin_change (s : sim) (pin : pin_t) (value : Z) : sim :=
  let '(chip, host) := s in
  match pin with
  | PIN_CS =>
      if value =? LOW then
        let chip := set_command_size 0 chip in
        let chip := set_command_index 0 chip in
        let chip := set_command_code 0 chip in
        (chip, spi_start host)
      else
        (chip, spi_stop host)
  | PIN_DC =>
      let new_mode := if value =? 0 then MODE_COMMAND else MODE_DATA in
      if mode_eqb (mode chip) new_mode then (chip, host)
      else
        let host := spi_stop host in
        let chip := set_mode new_mode chip in
        if pin_read_cs host =? LOW then (chip, spi_start host)
        else (chip, host)
  | PIN_RST =>
      if value =? LOW then
        let host := spi_stop host in
        let chip := chip_reset chip in
        if framebuffer chip =? 0 then (chip, host)
        else (chip, clear_framebuffer chip host)
      else (chip, host)
  end.

(** ** command_args_size (lines 197-218) *)

Definition command_args_size (command_code : Z) : Z :=
  if (command_code =? CMD_MADCTL) || (command_code =? CMD_PWCTR2)
     || (command_code =? CMD_INVCTR) || (command_code =? CMD_VMCTR)
     || (command_code =? CMD_COLMOD) then 1
  else if (command_code =? CMD_PWCTR3) || (command_code =? CMD_PWCTR4)
     || (command_code =? CMD_PWCTR5) || (command_code =? CMD_DISSET5) then 2
  else if (command_code =? CMD_FRMCTR1) || (command_code =? CMD_FRMCTR2)
     || (command_code =? CMD_PWCTR1) then 3
  else if (command_code =? CMD_CASET) || (command_code =? CMD_RASET) then 4
  else if command_code =? CMD_FRMCTR3 then 6
  else if (command_code =? CMD_GMCTRP1) || (command_code =? CMD_GMCTRN1) then 16
  else 0.

(** ** execute_command (lines 220-286) *)

Definition buf_at (chip : chip_state_t) (i : nat) : Z :=
  byte_val (nth i (command_buf chip) x00).

(** The 32-row offset of lines 260-262: [if (v >= 32) v -= 32;]. *)
Definition offset32 (v : Z) : Z := if 32 <=? v then u32 (v - 32) else v.

(** Body of the CASET / RASET case (lines 249-270). *)
Definition execute_window_set (chip : chip_state_t) : chip_state_t :=
  if command_size chip <? 4 then chip
  else
    let arg0 := u16 (Z.lor (Z.shiftl (buf_at chip 0) 8) (buf_at chip 1)) in
    let arg2 := u16 (Z.lor (Z.shiftl (buf_at chip 2) 8) (buf_at chip 3)) in
    let set_page := command_code chip =? CMD_RASET in
    if (if flag (scanning_direction chip) SCAN_MV
        then negb set_page else set_page)
    then
      let chip := set_active_page arg0 chip in
      let chip := set_page_start arg0 chip in
      let chip := set_page_end arg2 chip in
      if flag (scanning_direction chip) SCAN_MY then
        let chip := set_page_start (offset32 (page_start chip)) chip in
        let chip := set_page_end (offset32 (page_end chip)) chip in
        set_active_page (offset32 (active_page chip)) chip
      else chip
    else
      let chip := set_active_column arg0 chip in
      let chip := set_column_start arg0 chip in
      set_column_end arg2 chip.

Definition execute_command (s : sim) : sim :=
  let '(chip, host) := s in
  let code := command_code chip in
  if code =? CMD_NOP then (chip, host)
  else if (code =? CMD_SLPIN) || (code =? CMD_DISPOFF) then (chip, host)
  else if (code =? CMD_SLPOUT) || (code =? CMD_DISPON) then (chip, host)
  else if (code =? CMD_INVOFF) || (code =? CMD_INVON) then (chip, host)
  else if code =? CMD_RAMWR then (set_ram_write true chip, host)
  else if code =? CMD_MADCTL then
    (set_scanning_direction (Z.land (buf_at chip 0) 0xff) chip, host)
  else if (code =? CMD_CASET) || (code =? CMD_RASET) then
    (execute_window_set chip, host)
  else if (code =? CMD_PWCTR1) || (code =? CMD_SWRESET) then
    (chip_reset chip, host)
  else if (code =? CMD_COLMOD) || (code =? CMD_VMCTR) then (chip, host)
  else (chip, log (call_printf_unknown code) host).

(** ** process_command (lines 288-298) *)

Definition process_command_byte (s : sim) (b : byte) : sim :=
  let '(chip, host) := s in
  let chip := set_command_code (byte_val b) chip in
  let chip := set_command_size (u8 (command_args_size (command_code chip))) chip in
  let chip := set_command_index 0 chip in
  if command_size chip =? 0 then execute_command (chip, host)
  else (chip, host).

Definition process_command (s : sim) (buffer : list byte) : sim :=
  let '(chip, host) := s in
  fold_left process_command_byte buffer (set_ram_write false chip, host).

(** ** process_command_args (lines 300-310) *)

Definition process_command_arg (s : sim) (b : byte) : sim :=
  let '(chip, host) := s in
  if command_index chip <? command_size chip then
    let chip :=
      set_command_buf (<[Z.to_nat (command_index chip) := b]> (command_buf chip))
                      chip in
    let chip := set_command_index (u8 (command_index chip + 1)) chip in
    if command_size chip =? command_index chip then
      let '(chip, host) := execute_command (chip, host) in
      (set_command_index 0 chip, host)
    else (chip, host)
  else (chip, host).

Definition process_command_args (s : sim) (buffer : list byte) : sim :=
  fold_left process_command_arg buffer s.

(** ** process_data (lines 312-359) *)

(** Lines 319-327: the target coordinate, as two [int]s. *)
Definition target_x (chip : chip_state_t) : Z :=
  let x := int32 (active_column chip) in
  if flag (scanning_direction chip) SCAN_MV then
    int32 (if flag (scanning_direction chip) SCAN_MX
           then u32 (width chip - 1 - x) else u32 x)
  else
    int32 (if flag (scanning_direction chip) SCAN_MY
           then u32 (width chip - 1 - x) else u32 x).

Definition target_y (chip : chip_state_t) : Z :=
  let y := int32 (active_page chip) in
  if flag (scanning_direction chip) SCAN_MV then
    int32 (if flag (scanning_direction chip) SCAN_MY
           then u32 (height chip - 1 - y) else u32 y)
  else
    int32 (if flag (scanning_direction chip) SCAN_MX
           then u32 (height chip - 1 - y) else u32 y).

(** Line 330: the clipping test. *)
Definition out_of_bounds (chip : chip_state_t) (x y : Z) : bool :=
  (x <? 0) || (int32 (width chip) <=? x) || (y <? 0) || (int32 (height chip) <=? y).

(** Lines 338-357: advance the write pointer. *)
Definition advance (chip : chip_state_t) : chip_state_t :=
  if flag (scanning_direction chip) SCAN_MV then
    let chip := set_active_page (u32 (active_page chip + 1)) chip in
    if page_end chip <? active_page chip then
      let chip := set_active_page (page_start chip) chip in
      let chip := set_active_column (u32 (active_column chip + 1)) chip in
      if column_end chip <? active_column chip then
        set_active_column (column_start chip) chip
      else chip
    else chip
  else
    let chip := set_active_column (u32 (active_column chip + 1)) chip in
    if column_end chip <? active_column chip then
      let chip := set_active_column (column_start chip) chip in
      let chip := set_active_page (u32 (active_page chip + 1)) chip in
      if page_end chip <? active_page chip then
        set_active_page (page_start chip) chip
      else chip
    else chip.

(** Line 317: the big-endian sample at index [i] of the batch. *)
Definition sample_at (buf : list byte) (i : nat) : Z :=
  u16 (Z.lor (Z.shiftl (u16 (byte_val (nth (2 * i) buf x00))) 8)
             (byte_val (nth (2 * i + 1) buf x00))).

(** One iteration of the pixel loop for the sample value [val]. *)
Definition write_pixel (s : sim) (val : Z) : sim :=
  let '(chip, host) := s in
  let x := target_x chip in
  let y := target_y chip in
  let host :=
    if out_of_bounds chip x y then host
    else
      let color := rgb565_to_rgba val in
      let pix_index := u32 (u32 y * width chip + u32 x) in
      buffer_write (framebuffer chip) (size_mul pix_index sizeof_color) color host in
  (advance chip, host).

(** The [for] loop of line 316, run for [n] iterations from [i = 0]. *)
Definition pixel_loop (s : sim) (buf : list byte) (n : nat) : sim :=
  fold_left (fun s i => write_pixel s (sample_at buf i)) (seq 0 n) s.

Definition process_data (s : sim) (buf : list byte) : sim :=
  let byte_count := Z.of_nat (length buf) in
  if byte_count <? 2 then s
  else
    let pixels := byte_count / 2 in
    pixel_loop s buf (Z.to_nat pixels).

(** ** chip_spi_done (lines 361-382) *)

Definition chip_spi_done (s : sim) (buffer : list byte) : sim :=
  if Z.of_nat (length buffer) =? 0 then s
  else
    let s :=
      match mode (fst s) with
      | MODE_DATA =>
          if ram_write (fst s) then process_data s buffer
          else process_command_args s buffer
      | MODE_COMMAND => process_command s buffer
      end in
    if pin_read_cs (snd s) =? LOW then (fst s, spi_start (snd s)) else s.

(** ** Bus scenarios

    A command as a driver sends it: the opcode with DC low, then the
    argument bytes with DC high. *)
Definition send_command (s : sim) (op : byte) (args : list byte) : sim :=
  let s := chip_pin_change s PIN_DC LOW in
  let s := chip_spi_done s [op] in
  let s := chip_pin_change s PIN_DC HIGH in
  chip_spi_done s args.

(** Successive transport batches delivered under the current mode. *)
Definition receive (s : sim) (batches : list (list byte)) : sim :=
  fold_left chip_spi_done batches s.

(** A powered-on device bound to a pixel store of [w * h] cells holding
    [fill], with chip-select asserted. *)
Definition power_on (fb w h fill : Z) : sim :=
  (chip_init fb w h, mkHost LOW (replicate (Z.to_nat (w * h)) fill) []).

(** ** Well-formed states

    [chip_ok] collects what the C types give for free: the array has 16
    entries, the extent is a pair of [uint32_t], and the six addressing
    registers are [uint32_t] values that can be incremented without
    wrapping.  [store_ok] says that the host's pixel store has one cell
    per pixel and fits the 32-bit address space. *)

Definition reg_ok (v : Z) : Prop := 0 <= v <= 0xfffffffe.

Record chip_ok (chip : chip_state_t) : Prop := mk_chip_ok {
  ok_width : 0 <= width chip < 2 ^ 32;
  ok_height : 0 <= height chip < 2 ^ 32;
  ok_command_buf : length (command_buf chip) = 16%nat;
  ok_active_column : reg_ok (active_column chip);
  ok_active_page : reg_ok (active_page chip);
  ok_column_start : reg_ok (column_start chip);
  ok_column_end : reg_ok (column_end chip);
  ok_page_start : reg_ok (page_start chip);
  ok_page_end : reg_ok (page_end chip)
}.

Definition store_ok (chip : chip_state_t) (host : host_t) : Prop :=
  length (cells host) = Z.to_nat (width chip * height chip)
  /\ 4 * (width chip * height chip) <= 2 ^ 32.

(** The cursor lies inside the addressing window. *)
Definition in_window (chip : chip_state_t) : Prop :=
  column_start chip <= active_column chip <= column_end chip
  /\ page_start chip <= active_page chip <= page_end chip.

(** The window is ordered and inside the framebuffer. *)
Definition window_ok (chip : chip_state_t) : Prop :=
  column_start chip <= column_end chip < width chip
  /\ page_start chip <= page_end chip < height chip.

(** The window is the whole framebuffer. *)
Definition full_window (chip : chip_state_t) : Prop :=
  column_start chip = 0 /\ column_end chip = width chip - 1
  /\ page_start chip = 0 /\ page_end chip = height chip - 1.

(** ** Definitions that follow the specification's wording *)

(** The three orientation flags. *)
Definition row_mirror (chip : chip_state_t) : bool :=
  Z.testbit (scanning_direction chip) 7.
Definition column_mirror (chip : chip_state_t) : bool :=
  Z.testbit (scanning_direction chip) 6.
Definition swap_axes (chip : chip_state_t) : bool :=
  Z.testbit (scanning_direction chip) 5.

(** Mirroring a coordinate across an extent. *)
Definition mirror (on : bool) (extent v : Z) : Z :=
  if on then extent - 1 - v else v.

(** Orientation transform of section 4.5, step 2. *)
Definition oriented (chip : chip_state_t) : Z * Z :=
  if swap_axes chip then
    (mirror (column_mirror chip) (width chip) (active_column chip),
     mirror (row_mirror chip) (height chip) (active_page chip))
  else
    (mirror (row_mirror chip) (width chip) (active_column chip),
     mirror (column_mirror chip) (height chip) (active_page chip)).

(** Cursor advancement of section 4.5, step 5, as a pair
    (column, page). *)
Definition next_cursor (chip : chip_state_t) : Z * Z :=
  let c := active_column chip in
  let p := active_page chip in
  if swap_axes chip then
    if p <? page_end chip then (c, p + 1)
    else if c <? column_end chip then (c + 1, page_start chip)
    else (column_start chip, page_start chip)
  else
    if c <? column_end chip then (c + 1, p)
    else if p <? page_end chip then (column_start chip, p + 1)
    else (column_start chip, page_start chip).

(** Bit-replication upscale of a 5-bit and of a 6-bit channel. *)
Definition upscale5 (c : Z) : Z := c * 8 + c / 4.
Definition upscale6 (c : Z) : Z := c * 4 + c / 16.

(** An opaque colour: alpha 0xFF, then red, green, blue. *)
Definition opaque (r g b : Z) : Z := ((255 * 256 + r) * 256 + g) * 256 + b.

(** The 5/6/5 to 8/8/8 expansion of section 4.5, step 1. *)
Definition expand565 (v : Z) : Z :=
  opaque (upscale5 (v / 2048)) (upscale6 ((v / 32) mod 64)) (upscale5 (v mod 32)).

(** A 16-bit sample on the wire: high byte first. *)
Definition byte_of (z : Z) : byte :=
  match Byte.of_N (Z.to_N z) with Some b => b | None => x00 end.

Definition be_bytes (samples : list Z) : list byte :=
  flat_map (fun v => [byte_of (v / 256); byte_of (v mod 256)]) samples.

Definition is_sample (v : Z) : Prop := 0 <= v < 65536.

(** The two big-endian 16-bit arguments of a window-set command. *)
Definition be16 (hi lo : byte) : Z := Z.lor (Z.shiftl (byte_val hi) 8) (byte_val lo).

(** The axis a window-set opcode addresses: the page registers for
    RASET and the column registers for CASET, the other way round when
    the axes are swapped. *)
Definition targets_page (chip : chip_state_t) (op : byte) : bool :=
  xorb (byte_val op =? CMD_RASET) (swap_axes chip).

(** ** Auxiliary definitions *)

(** [all_from n z p] checks [p] on [z], [z + 1], ..., [z + n - 1]. *)
Fixpoint all_from (n : nat) (z : Z) (p : Z -> bool) : bool :=
  match n with
  | O => true
  | S k => p z && all_from k (z + 1) p
  end.

(** A write issued by the pixel writer of [chip] at an in-bounds cell. *)
Definition in_bounds_write (chip : chip_state_t) (e : host_call) : Prop :=
  exists x y color,
    0 <= x < width chip /\ 0 <= y < height chip
    /\ e = call_buffer_write (framebuffer chip) (4 * (y * width chip + x)) color.

(** A memory write is in progress: data mode with [ram_write] set. *)
Definition armed (chip : chip_state_t) : Prop :=
  mode chip = MODE_DATA /\ ram_write chip = true.

(** The chip state in which the arguments of [op] are awaited. *)
Definition awaiting (chip : chip_state_t) (op : byte) : chip_state_t :=
  set_mode MODE_DATA
    (set_command_index 0
       (set_command_size (command_args_size (byte_val op))
          (set_command_code (byte_val op)
             (set_ram_write false (set_mode MODE_COMMAND chip))))).

(** The 32-row correction as the specification words it. *)
Definition row_offset (chip : chip_state_t) (v : Z) : Z :=
  if row_mirror chip then (if 32 <=? v then v - 32 else v) else v.

(** The state in which [execute_command] runs once the four argument
    bytes of a window-set command are in. *)
Definition loaded (chip : chip_state_t) (op c0 c1 c2 c3 : byte) : chip_state_t :=
  set_command_index 4
    (set_command_buf
       (<[3%nat := c3]> (<[2%nat := c2]> (<[1%nat := c1]> (<[0%nat := c0]>
          (command_buf chip)))))
       (awaiting chip op)).

(** The device registers of the specification's data model. *)
Definition registers (chip : chip_state_t)
  : chip_mode_t * bool * (Z * Z) * (Z * Z) * (Z * Z) * Z :=
  (mode chip, ram_write chip,
   (active_column chip, active_page chip),
   (column_start chip, column_end chip),
   (page_start chip, page_end chip),
   scanning_direction chip).

(** The addressing window: the bounds of the two axes. *)
Definition window (chip : chip_state_t) : (Z * Z) * (Z * Z) :=
  ((column_start chip, column_end chip), (page_start chip, page_end chip)).

(** A 64 x 48 panel after power-on, and a 3 x 2 one. *)
Definition panel : sim := power_on 1 64 48 0.
Definition tiny : sim := power_on 1 3 2 0.

(** The panel with the axes swapped and the rows mirrored. *)
Definition rotated : sim := send_command panel x36 [xa0].

(** The 3 x 2 panel with the window set to all of it and a memory
    write armed. *)
Definition streaming : sim :=
  send_command
    (send_command (send_command tiny x2a [x00; x00; x00; x02])
                  x2b [x00; x00; x00; x01])
    x2c [].

(** The 3 x 2 panel with a window six columns wide and a memory write
    armed. *)
Definition overhang : sim :=
  send_command (send_command tiny x2a [x00; x00; x00; x05]) x2c [].

(** The panel with the column window 50..10 and a memory write armed. *)
Definition inverted : sim :=
  send_command (send_command panel x2a [x00; x32; x00; x0a]) x2c [].

(** The cell the cursor addresses in row-major order. *)
Definition linear (chip : chip_state_t) : Z :=
  active_page chip * width chip + active_column chip.

(** Identity orientation, the whole framebuffer as the window, the
    cursor inside it, and a memory write in progress. *)
Record filling (chip : chip_state_t) : Prop := mk_filling {
  fill_ok : chip_ok chip;
  fill_armed : armed chip;
  fill_identity : scanning_direction chip = 0;
  fill_window : full_window chip;
  fill_cursor : in_window chip;
  fill_fits : 4 * (width chip * height chip) <= 2 ^ 32
}.

(** The cell range [k, k + n) as a test on a cell index. *)
Definition in_range (k n i : nat) : bool := (k <=? i)%nat && (i <? k + n)%nat.

(** [kept s s']: [s'] is well formed and has the extent and the number
    of cells of [s]. *)
Definition kept (s s' : sim) : Prop :=
  chip_ok (fst s')
  /\ width (fst s') = width (fst s) /\ height (fst s') = height (fst s)
  /\ length (cells (snd s')) = length (cells (snd s)).

(** Events delivered by the host, and a run of the device. *)
Inductive event : Type :=
| pin_edge (pin : pin_t) (value : Z)
| spi_done (buffer : list byte).

(** The handler the host calls for an event. *)
Definition handle (s : sim) (e : event) : sim :=
  match e with
  | pin_edge pin value => chip_pin_change s pin value
  | spi_done buffer => chip_spi_done s buffer
  end.

(** The device after a sequence of events. *)
Definition run (s : sim) (events : list event) : sim := fold_left handle events s.

(** ** Further definitions

    For the theorems on batches, commands and whole runs. *)

(** The number of cells of the addressing window. *)
Definition window_area (chip : chip_state_t) : Z :=
  (column_end chip - column_start chip + 1) * (page_end chip - page_start chip + 1).

(** The position of the cursor in the order in which [advance] visits
    the window: page by page when the swap bit is clear, column by
    column when it is set. *)
Definition rank (chip : chip_state_t) : Z :=
  if swap_axes chip then
    (active_column chip - column_start chip) * (page_end chip - page_start chip + 1)
    + (active_page chip - page_start chip)
  else
    (active_page chip - page_start chip) * (column_end chip - column_start chip + 1)
    + (active_column chip - column_start chip).

(** A write at the image, under the orientation transform, of a cursor
    position of the window of [chip]. *)
Definition window_write (chip : chip_state_t) (e : host_call) : Prop :=
  exists c p color,
    (column_start chip <= c <= column_end chip)
    /\ (page_start chip <= p <= page_end chip)
    /\ 0 <= fst (oriented (set_active_page p (set_active_column c chip))) < width chip
    /\ 0 <= snd (oriented (set_active_page p (set_active_column c chip))) < height chip
    /\ e = call_buffer_write (framebuffer chip)
             (4 * (snd (oriented (set_active_page p (set_active_column c chip)))
                   * width chip
                   + fst (oriented (set_active_page p (set_active_column c chip)))))
             color.

(** The 5/6/5 sample made of the top bits of the red, green and blue
    channels of a 32-bit colour. *)
Definition pack565 (color : Z) : Z :=
  (color / 2 ^ 19 mod 32) * 2048 + (color / 2 ^ 10 mod 64) * 32 + (color / 8 mod 32).

(** The chip state right after RAMWR, when the data line has gone
    high. *)
Definition arming (chip : chip_state_t) : chip_state_t :=
  set_mode MODE_DATA
    (set_ram_write true
       (set_command_index 0
          (set_command_size 0
             (set_command_code CMD_RAMWR
                (set_ram_write false (set_mode MODE_COMMAND chip)))))).

(** The chip state in which a command without arguments is executed. *)
Definition decoded (chip : chip_state_t) (op : byte) : chip_state_t :=
  set_command_index 0
    (set_command_size 0
       (set_command_code (byte_val op)
          (set_ram_write false (set_mode MODE_COMMAND chip)))).

(** The registers after a reset of a device of extent [w] x [h] whose
    mode register holds [m]. *)
Definition reset_view (m : chip_mode_t) (w h : Z)
  : chip_mode_t * bool * (Z * Z) * (Z * Z) * (Z * Z) * Z :=
  (m, false, (0, 0),
   (0, if (0 <? w) && (0 <? h) then u32 (w - 1) else 127),
   (0, if (0 <? w) && (0 <? h) then u32 (h - 1) else 127), 0).

(** A MADCTL command waits for its argument byte. *)
Definition madctl_pending (c : chip_state_t) : Prop :=
  command_code c = CMD_MADCTL /\ command_size c = 1 /\ command_index c = 0
  /\ (0 < length (command_buf c))%nat.

(** The opcodes [execute_command] accepts silently without doing
    anything, and the ones that change a register. *)
Definition quiet (code : Z) : bool :=
  (code =? CMD_NOP) || (code =? CMD_SLPIN) || (code =? CMD_DISPOFF)
  || (code =? CMD_SLPOUT) || (code =? CMD_DISPON)
  || (code =? CMD_INVOFF) || (code =? CMD_INVON)
  || (code =? CMD_COLMOD) || (code =? CMD_VMCTR).

Definition effective (code : Z) : bool :=
  (code =? CMD_RAMWR) || (code =? CMD_MADCTL) || (code =? CMD_CASET)
  || (code =? CMD_RASET) || (code =? CMD_PWCTR1) || (code =? CMD_SWRESET).

(** Requests to the transport, and a host that differs from another
    one by such requests only. *)
Definition transport_call (e : host_call) : Prop :=
  e = call_spi_start \/ e = call_spi_stop.

Definition transport_only (h h' : host_t) : Prop :=
  cells h' = cells h
  /\ exists ws, calls h' = calls h ++ ws /\ Forall transport_call ws.

(** On each axis the cursor is at or after the start of the window,
    and not after its end when the window is ordered. *)
Definition cursor_inv (c : chip_state_t) : Prop :=
  column_start c <= active_column c
  /\ (column_start c <= column_end c -> active_column c <= column_end c)
  /\ page_start c <= active_page c
  /\ (page_start c <= page_end c -> active_page c <= page_end c).

(** The command in flight: the expected number of arguments is the
    arity of the opcode, and fewer arguments than that are collected. *)
Definition command_inv_with (Q : Z -> Z -> Prop) (c : chip_state_t) : Prop :=
  command_size c = command_args_size (command_code c)
  /\ Q (command_index c) (command_size c).

(** Between two bytes fewer arguments are collected than expected. *)
Definition collecting (index size : Z) : Prop :=
  0 <= index /\ (index < size \/ index = 0).

(** When [execute_command] is called all of them are. *)
Definition complete (index size : Z) : Prop := index = size.

Definition command_inv : chip_state_t -> Prop := command_inv_with collecting.

Definition state_inv_with (Q : Z -> Z -> Prop) (c : chip_state_t) : Prop :=
  chip_ok c /\ cursor_inv c /\ command_inv_with Q c.

Definition state_inv : chip_state_t -> Prop := state_inv_with collecting.

(** A host call that is no cell write, or a write of one cell of a
    [w] x [h] store at [fb]. *)
Definition safe_call (fb w h : Z) (e : host_call) : Prop :=
  match e with
  | call_buffer_write buffer offset _ =>
      buffer = fb /\ exists i, 0 <= i < w * h /\ offset = 4 * i
  | _ => True
  end.

Definition same_frame (c c' : chip_state_t) : Prop :=
  framebuffer c' = framebuffer c /\ width c' = width c /\ height c' = height c.

(** [s'] has the frame of [s], and its trace is the trace of [s]
    followed by safe calls. *)
Definition step_ok (s s' : sim) : Prop :=
  same_frame (fst s) (fst s')
  /\ exists ws,
      calls (snd s') = calls (snd s) ++ ws
      /\ Forall (safe_call (framebuffer (fst s)) (width (fst s)) (height (fst s))) ws.

(** The chip after a window-set command [op] with bounds [s] and [e],
    up to the command registers. *)
Definition window_set_result (chip : chip_state_t) (op : byte) (s e : Z)
  : chip_state_t :=
  set_mode MODE_DATA
    (set_ram_write false
       (if targets_page chip op
        then set_active_page (row_offset chip s)
               (set_page_end (row_offset chip e)
                  (set_page_start (row_offset chip s) chip))
        else set_column_end e (set_column_start s (set_active_column s chip)))).

(** A state in which transport bytes are argument bytes, and stay so. *)
Definition collecting_args (c : chip_state_t) : Prop :=
  mode c = MODE_DATA /\ ram_write c = false /\ command_code c <> CMD_RAMWR.

(** A column-address-set on the panel with two of its four argument
    bytes received. *)
Definition pending : sim := send_command panel x2a [x00; x10].

(** A short session on the 3 x 2 panel: a memory write of two samples,
    a hardware reset, and a row-address-set cut short. *)
Definition session : list event :=
  [pin_edge PIN_DC LOW; spi_done [x2c]; pin_edge PIN_DC HIGH;
   spi_done [xf8; x00; x07; xe0]; pin_edge PIN_RST LOW;
   pin_edge PIN_DC LOW; spi_done [x2b]; pin_edge PIN_DC HIGH;
   spi_done [x00; x01; x00]].

(** A command batch [ops] delivered with the data/command line low,
    then a batch [args] with the line high. *)
Definition send_batch (s : sim) (ops args : list byte) : sim :=
  let s := chip_pin_change s PIN_DC LOW in
  let s := chip_spi_done s ops in
  let s := chip_pin_change s PIN_DC HIGH in
  chip_spi_done s args.

(** The chip when the loop of [process_command] has gone through the
    bytes [pre] of a command batch: the state in which the next byte
    of the batch is decoded. *)
Definition reached (chip : chip_state_t) (host : host_t) (pre : list byte)
  : chip_state_t :=
  fst (process_command (set_mode MODE_COMMAND chip, host) pre).

(** Whether the bytes [pre] of a command batch leave a memory write
    armed: RAMWR arms it, a software reset disarms it, and it is
    disarmed when the batch starts. *)
Definition arms (pre : list byte) : bool :=
  fold_left (fun a b => if byte_val b =? CMD_RAMWR then true
                        else if byte_val b =? CMD_SWRESET then false
                        else a)
            pre false.

(** The chip [chip] once the opcode [op] is decoded and the
    data/command line has gone high. *)
Definition latched (chip : chip_state_t) (op : byte) : chip_state_t :=
  set_mode MODE_DATA
    (set_command_index 0
       (set_command_size (command_args_size (byte_val op))
          (set_command_code (byte_val op) chip))).

(** The window that a window-set command with the argument values
    [v0] and [v2] stores when it is executed in the state [c]: the
    values go to the axis that [op] addresses, on the page axis after
    the 32-row correction; the bounds of the other axis are those of
    [c]. *)
Definition stored_window (c : chip_state_t) (op : byte) (v0 v2 : Z)
  : (Z * Z) * (Z * Z) :=
  if targets_page c op
  then ((column_start c, column_end c), (row_offset c v0, row_offset c v2))
  else ((v0, v2), (page_start c, page_end c)).

(** start <= end < extent on both axes of a window. *)
Definition ordered_window (w : (Z * Z) * (Z * Z)) (width height : Z) : Prop :=
  fst (fst w) <= snd (fst w) < width /\ fst (snd w) <= snd (snd w) < height.

(** The chip with the cursor moved to the next position of the
    window, as [next_cursor] gives it. *)
Definition step_cursor (chip : chip_state_t) : chip_state_t :=
  set_active_page (snd (next_cursor chip))
    (set_active_column (fst (next_cursor chip)) chip).

(** The 3 x 2 panel with a window six columns wide, a memory write
    armed and three samples received: the cursor is at column 3,
    outside the panel. *)
Definition clipping : sim :=
  chip_spi_done overhang [xf8; x00; x07; xe0; x00; x1f].

(** * Integer facts *)

Lemma byte_val_range (b : byte) : 0 <= byte_val b < 256.
Proof. unfold byte_val. pose proof (Byte.to_N_bounded b). lia. Qed.

Lemma byte_val_of (z : Z) : 0 <= z < 256 -> byte_val (byte_of z) = z.
Proof.
  intros Hz. unfold byte_val, byte_of.
  destruct (Byte.of_N (Z.to_N z)) as [b|] eqn:E.
  - apply Byte.to_of_N in E. lia.
  - apply Byte.of_N_None_iff in E. lia.
Qed.

Lemma u32_small (z : Z) : 0 <= z < 2 ^ 32 -> u32 z = z.
Proof. intros. unfold u32. apply Z.mod_small. lia. Qed.

Lemma u16_small (z : Z) : 0 <= z < 2 ^ 16 -> u16 z = z.
Proof. intros. unfold u16. apply Z.mod_small. lia. Qed.

Lemma u8_small (z : Z) : 0 <= z < 2 ^ 8 -> u8 z = z.
Proof. intros. unfold u8. apply Z.mod_small. lia. Qed.

Lemma int32_small (z : Z) : 0 <= z < 2 ^ 31 -> int32 z = z.
Proof.
  intros Hz. unfold int32. rewrite Z.mod_small by lia.
  destruct (Z.ltb_spec z (2 ^ 31)); lia.
Qed.

(** A value in the range of [int] survives the round trip through
    [uint32_t]. *)
Lemma int32_u32 (z : Z) : - 2 ^ 31 <= z < 2 ^ 31 -> int32 (u32 z) = z.
Proof.
  intros Hz. unfold int32, u32. rewrite Z.mod_mod by lia.
  destruct (Z_lt_le_dec z 0) as [Hneg|Hpos].
  - assert (E : z mod 2 ^ 32 = z + 2 ^ 32).
    { symmetry. apply (Z.mod_unique _ _ (-1)); lia. }
    rewrite E. destruct (Z.ltb_spec (z + 2 ^ 32) (2 ^ 31)); lia.
  - rewrite Z.mod_small by lia.
    destruct (Z.ltb_spec z (2 ^ 31)); lia.
Qed.

Lemma int32_range (z : Z) : - 2 ^ 31 <= int32 z < 2 ^ 31.
Proof.
  unfold int32. pose proof (Z.mod_pos_bound z (2 ^ 32)).
  destruct (Z.ltb_spec (z mod 2 ^ 32) (2 ^ 31)); lia.
Qed.

Lemma size_mul_small (a : Z) :
  0 <= a -> 4 * a < 2 ^ 32 -> size_mul a sizeof_color = 4 * a.
Proof.
  intros. unfold size_mul, sizeof_color. rewrite Z.mod_small; lia.
Qed.

(** [(hi << n) | lo] is [hi * 2^n + lo] when [lo] fits [n] bits. *)
Lemma lor_shiftl_low (hi lo n : Z) :
  0 <= n -> 0 <= lo < 2 ^ n -> Z.lor (Z.shiftl hi n) lo = hi * 2 ^ n + lo.
Proof.
  intros Hn Hlo.
  assert (Hdisj : Z.land (Z.shiftl hi n) lo = 0).
  { apply Z.bits_inj'. intros i Hi.
    rewrite Z.land_spec, Z.bits_0.
    destruct (Z_lt_le_dec i n) as [Hlt|Hge].
    - rewrite Z.shiftl_spec_low by lia. reflexivity.
    - assert (Z.testbit lo i = false) as ->; [|apply andb_false_r].
      destruct (Z.eq_dec lo 0) as [->|Hnz]; [apply Z.bits_0|].
      apply Z.bits_above_log2; [lia|].
      apply Z.lt_le_trans with n; [|lia].
      apply Z.log2_lt_pow2; lia. }
  rewrite <- Z.lxor_lor by exact Hdisj.
  rewrite <- Z.add_nocarry_lxor by exact Hdisj.
  rewrite Z.shiftl_mul_pow2 by lia. reflexivity.
Qed.

Lemma be16_arith (hi lo : byte) : be16 hi lo = byte_val hi * 256 + byte_val lo.
Proof.
  pose proof (byte_val_range lo). unfold be16.
  rewrite lor_shiftl_low by lia. reflexivity.
Qed.

Lemma be16_range (hi lo : byte) : 0 <= be16 hi lo < 65536.
Proof.
  pose proof (byte_val_range hi). pose proof (byte_val_range lo).
  rewrite be16_arith. lia.
Qed.

Lemma be16_code (hi lo : byte) :
  u16 (Z.lor (Z.shiftl (byte_val hi) 8) (byte_val lo)) = be16 hi lo.
Proof. pose proof (be16_range hi lo). apply u16_small. assumption. Qed.

(** A mask with the single bit [n] tests that bit. *)
Lemma flag_testbit (a n : Z) :
  0 <= n -> flag a (2 ^ n) = Z.testbit a n.
Proof.
  intros Hn. unfold flag.
  destruct (Z.testbit a n) eqn:E.
  - destruct (Z.eqb_spec (Z.land a (2 ^ n)) 0) as [H0|]; [|reflexivity].
    assert (Z.testbit (Z.land a (2 ^ n)) n = true) as Hb.
    { rewrite Z.land_spec, E, Z.pow2_bits_true by lia. reflexivity. }
    rewrite H0, Z.bits_0 in Hb. discriminate.
  - destruct (Z.eqb_spec (Z.land a (2 ^ n)) 0) as [|Hnz]; [reflexivity|].
    exfalso. apply Hnz. apply Z.bits_inj'. intros i Hi.
    rewrite Z.land_spec, Z.bits_0.
    destruct (Z.eq_dec i n) as [->|Hne].
    + rewrite E. reflexivity.
    + rewrite Z.pow2_bits_false by lia. apply andb_false_r.
Qed.

Lemma flag_MY (chip : chip_state_t) :
  flag (scanning_direction chip) SCAN_MY = row_mirror chip.
Proof. apply (flag_testbit _ 7). lia. Qed.

Lemma flag_MX (chip : chip_state_t) :
  flag (scanning_direction chip) SCAN_MX = column_mirror chip.
Proof. apply (flag_testbit _ 6). lia. Qed.

Lemma flag_MV (chip : chip_state_t) :
  flag (scanning_direction chip) SCAN_MV = swap_axes chip.
Proof. apply (flag_testbit _ 5). lia. Qed.

(** * Colour conversion *)

Lemma all_from_spec (n : nat) (z : Z) (p : Z -> bool) :
  all_from n z p = true ->
  forall i, z <= i < z + Z.of_nat n -> p i = true.
Proof.
  revert z. induction n as [|k IH]; intros z Hall i Hi; [lia|].
  simpl in Hall. apply andb_true_iff in Hall as [Hz Hrest].
  destruct (Z.eq_dec i z) as [->|Hne]; [exact Hz|].
  apply (IH (z + 1)); [exact Hrest|lia].
Qed.

Lemma rgb565_table :
  all_from (Z.to_nat 65536) 0 (fun v => rgb565_to_rgba v =? expand565 v) = true.
Proof. vm_compute. reflexivity. Qed.

(** The code's shifts and masks compute the bit-replication expansion. *)
Lemma rgb565_to_rgba_expand (v : Z) :
  is_sample v -> rgb565_to_rgba v = expand565 v.
Proof.
  intros Hv. apply Z.eqb_eq.
  apply (all_from_spec (Z.to_nat 65536) 0 _ rgb565_table).
  unfold is_sample in Hv. rewrite Z2Nat.id; lia.
Qed.

(** The result fits [uint32_t], and its top byte is 0xFF. *)
Lemma expand565_opaque (v : Z) :
  is_sample v -> 0xff000000 <= expand565 v < 2 ^ 32.
Proof.
  intros Hv. unfold is_sample in Hv.
  unfold expand565, opaque, upscale5, upscale6.
  change (2 ^ 32) with 4294967296.
  Z.to_euclidean_division_equations. lia.
Qed.

(** * The pixel writer *)

Lemma pixel_loop_S (s : sim) (buf : list byte) (n : nat) :
  pixel_loop s buf (S n) = write_pixel (pixel_loop s buf n) (sample_at buf n).
Proof. unfold pixel_loop. rewrite seq_S, fold_left_app. reflexivity. Qed.

Lemma process_data_loop (s : sim) (buf : list byte) :
  process_data s buf = pixel_loop s buf (length buf / 2)%nat.
Proof.
  unfold process_data.
  assert (E : Z.to_nat (Z.of_nat (length buf) / 2) = (length buf / 2)%nat).
  { change 2 with (Z.of_nat 2). rewrite <- Nat2Z.inj_div. apply Nat2Z.id. }
  rewrite E.
  destruct (Z.ltb_spec (Z.of_nat (length buf)) 2) as [Hlt|Hge]; [|reflexivity].
  assert (length buf / 2 = 0)%nat as ->; [|reflexivity].
  apply Nat.div_small. lia.
Qed.

(** [advance] moves the cursor and nothing else. *)
Lemma advance_frame (chip : chip_state_t) :
  advance chip =
  set_active_page (active_page (advance chip))
    (set_active_column (active_column (advance chip)) chip).
Proof.
  unfold advance.
  repeat match goal with
         | |- context [if ?b then _ else _] => destruct b; cbn
         end; reflexivity.
Qed.

Lemma write_pixel_fst (s : sim) (val : Z) :
  fst (write_pixel s val) = advance (fst s).
Proof. destruct s as [chip host]. reflexivity. Qed.

Lemma pixel_loop_fst (s : sim) (buf : list byte) (n : nat) :
  fst (pixel_loop s buf n) = Nat.iter n advance (fst s).
Proof.
  induction n as [|n IH]; [reflexivity|].
  rewrite pixel_loop_S, write_pixel_fst, IH. reflexivity.
Qed.

Lemma cursor_eta (chip : chip_state_t) :
  chip = set_active_page (active_page chip)
           (set_active_column (active_column chip) chip).
Proof. destruct chip. reflexivity. Qed.

Lemma iter_advance_frame (n : nat) (chip : chip_state_t) :
  Nat.iter n advance chip =
  set_active_page (active_page (Nat.iter n advance chip))
    (set_active_column (active_column (Nat.iter n advance chip)) chip).
Proof.
  induction n as [|n IH]; [apply cursor_eta|].
  change (Nat.iter (S n) advance chip) with (advance (Nat.iter n advance chip)).
  rewrite (advance_frame (Nat.iter n advance chip)).
  generalize (active_page (advance (Nat.iter n advance chip)))
             (active_column (advance (Nat.iter n advance chip))).
  intros p c. rewrite IH. reflexivity.
Qed.

(** The orientation transform computed on [int]s agrees with the
    mathematical one as long as nothing overflows. *)
Lemma target_oriented (chip : chip_state_t) :
  0 <= active_column chip < 2 ^ 31 -> 0 <= active_page chip < 2 ^ 31 ->
  0 <= width chip <= 2 ^ 31 -> 0 <= height chip <= 2 ^ 31 ->
  (target_x chip, target_y chip) = oriented chip.
Proof.
  intros Hc Hp Hw Hh.
  unfold target_x, target_y, oriented, mirror.
  rewrite flag_MV, flag_MX, flag_MY.
  rewrite (int32_small (active_column chip)), (int32_small (active_page chip)) by lia.
  destruct (swap_axes chip), (column_mirror chip), (row_mirror chip);
    rewrite !int32_u32 by lia; reflexivity.
Qed.

(** One step of the cursor, on a well-formed state with the cursor in
    the window. *)
Lemma advance_next_cursor (chip : chip_state_t) :
  chip_ok chip -> in_window chip ->
  (active_column (advance chip), active_page (advance chip)) = next_cursor chip.
Proof.
  intros [_ _ _ Hac Hap Hcs Hce Hps Hpe] [Hc Hp].
  unfold reg_ok in *. unfold advance, next_cursor. rewrite flag_MV.
  destruct (swap_axes chip); cbn.
  - rewrite (u32_small (active_page chip + 1)) by lia.
    destruct (Z.ltb_spec (page_end chip) (active_page chip + 1)),
             (Z.ltb_spec (active_page chip) (page_end chip)); try lia; cbn;
      [|reflexivity].
    rewrite (u32_small (active_column chip + 1)) by lia.
    destruct (Z.ltb_spec (column_end chip) (active_column chip + 1)),
             (Z.ltb_spec (active_column chip) (column_end chip)); try lia;
      reflexivity.
  - rewrite (u32_small (active_column chip + 1)) by lia.
    destruct (Z.ltb_spec (column_end chip) (active_column chip + 1)),
             (Z.ltb_spec (active_column chip) (column_end chip)); try lia; cbn;
      [|reflexivity].
    rewrite (u32_small (active_page chip + 1)) by lia.
    destruct (Z.ltb_spec (page_end chip) (active_page chip + 1)),
             (Z.ltb_spec (active_page chip) (page_end chip)); try lia;
      reflexivity.
Qed.

Lemma next_cursor_in_window (chip : chip_state_t) :
  in_window chip ->
  column_start chip <= fst (next_cursor chip) <= column_end chip
  /\ page_start chip <= snd (next_cursor chip) <= page_end chip.
Proof.
  intros [Hc Hp]. unfold next_cursor.
  destruct (swap_axes chip);
    repeat match goal with
           | |- context [?a <? ?b] => destruct (Z.ltb_spec a b)
           end; cbn; lia.
Qed.

Lemma advance_keeps_window (chip : chip_state_t) :
  chip_ok chip -> in_window chip ->
  chip_ok (advance chip) /\ in_window (advance chip).
Proof.
  intros Hok Hin.
  pose proof (advance_next_cursor chip Hok Hin) as Hnext.
  pose proof (next_cursor_in_window chip Hin) as Hrange.
  destruct (next_cursor chip) as [c p]. cbn in Hrange.
  injection Hnext as Hc Hp.
  destruct Hok as [Hw Hh Hbuf Hac Hap Hcs Hce Hps Hpe].
  unfold reg_ok in *. unfold in_window.
  rewrite advance_frame. rewrite Hc, Hp. cbn.
  split; [constructor; unfold reg_ok; cbn; (assumption || lia)|lia].
Qed.

Lemma iter_advance_keeps_window (n : nat) (chip : chip_state_t) :
  chip_ok chip -> in_window chip ->
  chip_ok (Nat.iter n advance chip) /\ in_window (Nat.iter n advance chip).
Proof.
  intros Hok Hin. induction n as [|n [IHok IHin]]; [split; assumption|].
  change (Nat.iter (S n) advance chip) with (advance (Nat.iter n advance chip)).
  apply advance_keeps_window; assumption.
Qed.

Lemma int32_le (z : Z) : 0 <= z < 2 ^ 32 -> int32 z <= z.
Proof.
  intros Hz. unfold int32. rewrite Z.mod_small by lia.
  destruct (Z.ltb_spec z (2 ^ 31)); lia.
Qed.

(** What one sample does to the host: nothing, or one write at the
    cell of the target coordinate. *)
Lemma write_pixel_host (chip : chip_state_t) (host : host_t) (val : Z) :
  0 <= width chip < 2 ^ 32 -> 0 <= height chip < 2 ^ 32 ->
  4 * (width chip * height chip) <= 2 ^ 32 ->
  let x := target_x chip in
  let y := target_y chip in
  (out_of_bounds chip x y = true /\ snd (write_pixel (chip, host) val) = host)
  \/ (out_of_bounds chip x y = false
      /\ 0 <= x < width chip /\ 0 <= y < height chip
      /\ snd (write_pixel (chip, host) val)
         = buffer_write (framebuffer chip) (4 * (y * width chip + x))
             (rgb565_to_rgba val) host).
Proof.
  intros HW HH Hfit x y. unfold write_pixel. fold x y.
  destruct (out_of_bounds chip x y) eqn:Hoob; [left; split; reflexivity|right].
  unfold out_of_bounds in Hoob.
  apply orb_false_iff in Hoob as [Hoob Hy2].
  apply orb_false_iff in Hoob as [Hoob Hy1].
  apply orb_false_iff in Hoob as [Hx1 Hx2].
  apply Z.ltb_ge in Hx1, Hy1. apply Z.leb_gt in Hx2, Hy2.
  pose proof (int32_le (width chip) HW) as Hw.
  pose proof (int32_le (height chip) HH) as Hh.
  assert (Hidx : 0 <= y * width chip + x < width chip * height chip) by nia.
  split; [reflexivity|]. split; [lia|]. split; [lia|]. cbn [snd].
  rewrite (u32_small x), (u32_small y) by lia.
  rewrite (u32_small (y * width chip + x)) by lia.
  rewrite size_mul_small by lia. reflexivity.
Qed.

Lemma pixel_loop_calls (chip : chip_state_t) (host : host_t)
      (buf : list byte) (n : nat) :
  0 <= width chip < 2 ^ 32 -> 0 <= height chip < 2 ^ 32 ->
  4 * (width chip * height chip) <= 2 ^ 32 ->
  exists ws,
    calls (snd (pixel_loop (chip, host) buf n)) = calls host ++ ws
    /\ Forall (in_bounds_write chip) ws.
Proof.
  intros HW HH Hfit. induction n as [|n (ws & Hcalls & Hall)].
  - exists []. split; [symmetry; apply app_nil_r|constructor].
  - rewrite pixel_loop_S.
    pose proof (pixel_loop_fst (chip, host) buf n) as Hfst. cbn [fst] in Hfst.
    destruct (pixel_loop (chip, host) buf n) as [chip' host'].
    cbn [fst snd] in *.
    assert (Hsame : width chip' = width chip /\ height chip' = height chip
                    /\ framebuffer chip' = framebuffer chip).
    { rewrite Hfst, iter_advance_frame. repeat split; reflexivity. }
    destruct Hsame as (Ew & Eh & Ef).
    destruct (write_pixel_host chip' host' (sample_at buf n))
      as [[_ Hskip]|(_ & Hx & Hy & Hwrite)]; rewrite ?Ew, ?Eh; try assumption.
    + rewrite Hskip. exists ws. split; assumption.
    + rewrite Hwrite. cbn [buffer_write calls]. rewrite Hcalls, <- app_assoc.
      eexists. split; [reflexivity|].
      apply Forall_app. split; [exact Hall|].
      constructor; [|constructor].
      exists (target_x chip'), (target_y chip'), (rgb565_to_rgba (sample_at buf n)).
      rewrite <- Ew, <- Eh, <- Ef. repeat split; lia.
Qed.

(** Every register is a [uint32_t] that can still be incremented,
    whatever the cursor and the window are. *)
Lemma advance_ok (chip : chip_state_t) : chip_ok chip -> chip_ok (advance chip).
Proof.
  intros [Hw Hh Hbuf Hac Hap Hcs Hce Hps Hpe]. unfold reg_ok in *.
  unfold advance.
  rewrite (u32_small (active_column chip + 1)), (u32_small (active_page chip + 1)) by lia.
  destruct (flag (scanning_direction chip) SCAN_MV); cbn.
  - destruct (Z.ltb_spec (page_end chip) (active_page chip + 1)); cbn;
      [|constructor; unfold reg_ok; cbn; (assumption || lia)].
    rewrite (u32_small (active_column chip + 1)) by lia.
    destruct (Z.ltb_spec (column_end chip) (active_column chip + 1)); cbn;
      constructor; unfold reg_ok; cbn; (assumption || lia).
  - destruct (Z.ltb_spec (column_end chip) (active_column chip + 1)); cbn;
      [|constructor; unfold reg_ok; cbn; (assumption || lia)].
    rewrite (u32_small (active_page chip + 1)) by lia.
    destruct (Z.ltb_spec (page_end chip) (active_page chip + 1)); cbn;
      constructor; unfold reg_ok; cbn; (assumption || lia).
Qed.

Lemma iter_advance_ok (n : nat) (chip : chip_state_t) :
  chip_ok chip -> chip_ok (Nat.iter n advance chip).
Proof.
  intros Hok. induction n as [|n IH]; [exact Hok|].
  change (Nat.iter (S n) advance chip) with (advance (Nat.iter n advance chip)).
  apply advance_ok, IH.
Qed.

(** * The handlers on the pixel path *)

Lemma chip_spi_done_armed (chip : chip_state_t) (host : host_t) (buf : list byte) :
  armed chip ->
  fst (chip_spi_done (chip, host) buf) = fst (process_data (chip, host) buf)
  /\ cells (snd (chip_spi_done (chip, host) buf))
     = cells (snd (process_data (chip, host) buf)).
Proof.
  intros [Hmode Harm]. unfold chip_spi_done.
  destruct (Z.eqb_spec (Z.of_nat (length buf)) 0) as [Hlen|Hlen].
  - destruct buf; [|discriminate]. split; reflexivity.
  - cbn [fst]. rewrite Hmode, Harm.
    destruct (pin_read_cs (snd (process_data (chip, host) buf)) =? LOW);
      split; reflexivity.
Qed.

Lemma iter_advance_armed (n : nat) (chip : chip_state_t) :
  armed chip -> armed (Nat.iter n advance chip).
Proof. intros H. unfold armed. rewrite iter_advance_frame. exact H. Qed.

(** In armed data mode the chip state after any number of batches is
    the initial one with the cursor advanced once per complete sample. *)
Lemma receive_armed (batches : list (list byte)) (chip : chip_state_t) (host : host_t) :
  armed chip ->
  exists n, fst (receive (chip, host) batches) = Nat.iter n advance chip.
Proof.
  revert chip host. induction batches as [|b rest IH]; intros chip host Harm.
  - exists 0%nat. reflexivity.
  - unfold receive. cbn [fold_left]. fold (receive (chip_spi_done (chip, host) b) rest).
    pose proof (chip_spi_done_armed chip host b Harm) as [Hfst _].
    rewrite process_data_loop, pixel_loop_fst in Hfst. cbn [fst] in Hfst.
    destruct (chip_spi_done (chip, host) b) as [chip1 host1]. cbn [fst] in Hfst.
    destruct (IH chip1 host1) as [n Hn].
    { rewrite Hfst. apply iter_advance_armed, Harm. }
    exists (n + length b / 2)%nat. rewrite Hn, Hfst. symmetry. apply Nat.iter_add.
Qed.

(** * The command path *)

Lemma command_args_size_range (c : Z) : 0 <= command_args_size c <= 16.
Proof.
  unfold command_args_size.
  repeat match goal with
         | |- context [if ?b then _ else _] => destruct b
         end; lia.
Qed.

Lemma dc_change_fst (chip : chip_state_t) (host : host_t) (v : Z) :
  fst (chip_pin_change (chip, host) PIN_DC v)
  = set_mode (if v =? 0 then MODE_COMMAND else MODE_DATA) chip.
Proof.
  destruct chip as [? ? ? m ? ? ? ? ? ? ? ? ? ? ? ?]. cbn.
  destruct (v =? 0), m; cbn; try reflexivity;
    destruct (cs_level host =? LOW); reflexivity.
Qed.

Lemma dc_change_cells (chip : chip_state_t) (host : host_t) (v : Z) :
  cells (snd (chip_pin_change (chip, host) PIN_DC v)) = cells host.
Proof.
  cbn. destruct (mode_eqb _ _); [reflexivity|].
  cbn. destruct (cs_level host =? LOW); reflexivity.
Qed.

Lemma spi_done_command (chip : chip_state_t) (host : host_t) (buf : list byte) :
  mode chip = MODE_COMMAND -> buf <> [] ->
  fst (chip_spi_done (chip, host) buf) = fst (process_command (chip, host) buf)
  /\ cells (snd (chip_spi_done (chip, host) buf))
     = cells (snd (process_command (chip, host) buf)).
Proof.
  intros Hmode Hbuf. unfold chip_spi_done.
  destruct (Z.eqb_spec (Z.of_nat (length buf)) 0) as [Hlen|Hlen].
  - destruct buf; [congruence|discriminate].
  - cbn [fst]. rewrite Hmode.
    destruct (pin_read_cs (snd (process_command (chip, host) buf)) =? LOW);
      split; reflexivity.
Qed.

Lemma spi_done_args (chip : chip_state_t) (host : host_t) (buf : list byte) :
  mode chip = MODE_DATA -> ram_write chip = false ->
  fst (chip_spi_done (chip, host) buf) = fst (process_command_args (chip, host) buf)
  /\ cells (snd (chip_spi_done (chip, host) buf))
     = cells (snd (process_command_args (chip, host) buf)).
Proof.
  intros Hmode Harm. unfold chip_spi_done.
  destruct (Z.eqb_spec (Z.of_nat (length buf)) 0) as [Hlen|Hlen].
  - destruct buf; [|discriminate]. split; reflexivity.
  - cbn [fst]. rewrite Hmode, Harm.
    destruct (pin_read_cs (snd (process_command_args (chip, host) buf)) =? LOW);
      split; reflexivity.
Qed.

(** An opcode that takes arguments is only recorded. *)
Lemma process_command_pending (chip : chip_state_t) (host : host_t) (op : byte) :
  0 < command_args_size (byte_val op) ->
  process_command (chip, host) [op]
  = (set_command_index 0
       (set_command_size (command_args_size (byte_val op))
          (set_command_code (byte_val op) (set_ram_write false chip))),
     host).
Proof.
  intros Harity. pose proof (command_args_size_range (byte_val op)) as Hr.
  unfold process_command, process_command_byte. cbn.
  rewrite u8_small by lia.
  destruct (Z.eqb_spec (command_args_size (byte_val op)) 0); [lia|reflexivity].
Qed.

(** Argument bytes that do not complete the command are only stored. *)
Lemma process_command_args_short (args : list byte) :
  forall (chip : chip_state_t) (host : host_t),
    0 <= command_index chip ->
    command_index chip + Z.of_nat (length args) < command_size chip ->
    command_size chip <= 16 ->
    exists buf',
      process_command_args (chip, host) args
      = (set_command_index (command_index chip + Z.of_nat (length args))
           (set_command_buf buf' chip), host).
Proof.
  induction args as [|b rest IH]; intros chip host Hidx Hlt Hsz.
  - exists (command_buf chip). cbn. rewrite Z.add_0_r.
    destruct chip; reflexivity.
  - cbn [length] in Hlt. rewrite Nat2Z.inj_succ in Hlt.
    unfold process_command_args. cbn [fold_left].
    fold (process_command_args (process_command_arg (chip, host) b) rest).
    unfold process_command_arg.
    destruct (Z.ltb_spec (command_index chip) (command_size chip)); [|lia].
    cbn. rewrite u8_small by lia.
    destruct (Z.eqb_spec (command_size chip) (command_index chip + 1)); [lia|].
    match goal with
    | |- context [process_command_args (?c, host) rest] =>
        destruct (IH c host) as [buf' Hrest]; [cbn; lia ..|]
    end.
    rewrite Hrest. exists buf'.
    cbn [length]. rewrite Nat2Z.inj_succ.
    unfold set_command_index, set_command_buf.
    cbn [framebuffer width height mode command_code command_size command_index
         command_buf ram_write active_column active_page column_start column_end
         page_start page_end scanning_direction].
    f_equal. f_equal. lia.
Qed.

(** A command with arguments: the opcode is recorded and the argument
    bytes go to the argument collector. *)
Lemma send_command_awaiting (chip : chip_state_t) (host : host_t)
      (op : byte) (args : list byte) :
  0 < command_args_size (byte_val op) ->
  exists h1,
    cells h1 = cells host
    /\ fst (send_command (chip, host) op args)
       = fst (process_command_args (awaiting chip op, h1) args)
    /\ cells (snd (send_command (chip, host) op args))
       = cells (snd (process_command_args (awaiting chip op, h1) args)).
Proof.
  intros Harity. unfold send_command.
  pose proof (dc_change_fst chip host LOW) as E1.
  pose proof (dc_change_cells chip host LOW) as C1.
  destruct (chip_pin_change (chip, host) PIN_DC LOW) as [chip1 host1].
  cbn in E1, C1. subst chip1.
  destruct (spi_done_command (set_mode MODE_COMMAND chip) host1 [op])
    as [E2 C2]; [reflexivity|discriminate|].
  rewrite process_command_pending in E2, C2 by exact Harity.
  destruct (chip_spi_done (set_mode MODE_COMMAND chip, host1) [op]) as [chip2 host2].
  cbn [fst snd] in E2, C2. subst chip2.
  match goal with
  | |- context [chip_pin_change (?c, host2) PIN_DC HIGH] =>
      pose proof (dc_change_fst c host2 HIGH) as E3;
      pose proof (dc_change_cells c host2 HIGH) as C3;
      destruct (chip_pin_change (c, host2) PIN_DC HIGH) as [chip3 host3]
  end.
  cbn [fst snd] in E3, C3. change (HIGH =? 0) with false in E3. cbv iota in E3.
  fold (awaiting chip op) in E3. subst chip3.
  destruct (spi_done_args (awaiting chip op) host3 args) as [E4 C4];
    [reflexivity|reflexivity|].
  exists host3. split; [congruence|]. split; assumption.
Qed.

Lemma offset32_small (v : Z) :
  0 <= v < 65536 -> offset32 v = if 32 <=? v then v - 32 else v.
Proof.
  intros Hv. unfold offset32.
  destruct (Z.leb_spec 32 v); [apply u32_small; lia|reflexivity].
Qed.

Lemma window_set_args (chip : chip_state_t) (h : host_t) (op c0 c1 c2 c3 : byte) :
  op = x2a \/ op = x2b ->
  process_command_args (awaiting chip op, h) [c0; c1; c2; c3]
  = (set_command_index 0 (execute_window_set (loaded chip op c0 c1 c2 c3)), h).
Proof.
  intros [-> | ->]; reflexivity.
Qed.

(** What the CASET / RASET case does to a state holding the four
    argument bytes. *)
Lemma execute_window_set_effect (chip : chip_state_t) (c0 c1 c2 c3 : byte) :
  command_size chip = 4 ->
  nth 0 (command_buf chip) x00 = c0 -> nth 1 (command_buf chip) x00 = c1 ->
  nth 2 (command_buf chip) x00 = c2 -> nth 3 (command_buf chip) x00 = c3 ->
  execute_window_set chip
  = if xorb (command_code chip =? CMD_RASET) (swap_axes chip)
    then set_active_page (row_offset chip (be16 c0 c1))
           (set_page_end (row_offset chip (be16 c2 c3))
              (set_page_start (row_offset chip (be16 c0 c1)) chip))
    else set_column_end (be16 c2 c3)
           (set_column_start (be16 c0 c1)
              (set_active_column (be16 c0 c1) chip)).
Proof.
  intros Hsize H0 H1 H2 H3.
  pose proof (be16_range c0 c1) as R0. pose proof (be16_range c2 c3) as R2.
  unfold execute_window_set, buf_at, row_offset.
  rewrite Hsize, H0, H1, H2, H3, !be16_code, flag_MV.
  change (4 <? 4) with false. cbv iota.
  destruct (command_code chip =? CMD_RASET), (swap_axes chip); cbn [xorb negb];
    try reflexivity;
    cbn [scanning_direction set_active_page set_page_start set_page_end
         page_start page_end active_page];
    rewrite flag_MY; destruct (row_mirror chip); try reflexivity;
    rewrite !offset32_small by lia; reflexivity.
Qed.

Lemma loaded_args (chip : chip_state_t) (op c0 c1 c2 c3 : byte) :
  length (command_buf chip) = 16%nat ->
  let b := command_buf (loaded chip op c0 c1 c2 c3) in
  nth 0 b x00 = c0 /\ nth 1 b x00 = c1 /\ nth 2 b x00 = c2 /\ nth 3 b x00 = c3.
Proof.
  intros Hlen. cbn.
  destruct (command_buf chip) as [|b0 [|b1 [|b2 [|b3 rest]]]]; try discriminate.
  repeat split; reflexivity.
Qed.

(** The state after a complete window-set command. *)
Lemma send_window_set (chip : chip_state_t) (host : host_t) (op c0 c1 c2 c3 : byte) :
  length (command_buf chip) = 16%nat -> op = x2a \/ op = x2b ->
  fst (send_command (chip, host) op [c0; c1; c2; c3])
  = set_command_index 0
      (let l := loaded chip op c0 c1 c2 c3 in
       if targets_page chip op
       then set_active_page (row_offset chip (be16 c0 c1))
              (set_page_end (row_offset chip (be16 c2 c3))
                 (set_page_start (row_offset chip (be16 c0 c1)) l))
       else set_column_end (be16 c2 c3)
              (set_column_start (be16 c0 c1)
                 (set_active_column (be16 c0 c1) l)))
  /\ cells (snd (send_command (chip, host) op [c0; c1; c2; c3])) = cells host.
Proof.
  intros Hlen Hop.
  destruct (send_command_awaiting chip host op [c0; c1; c2; c3])
    as (h1 & Hcells & Hfst & Hsnd).
  { destruct Hop as [-> | ->]; reflexivity. }
  rewrite Hfst, Hsnd, window_set_args by exact Hop. cbn [fst snd].
  split; [|exact Hcells]. f_equal.
  destruct (loaded_args chip op c0 c1 c2 c3 Hlen) as (H0 & H1 & H2 & H3).
  destruct Hop as [-> | ->].
  - rewrite (execute_window_set_effect (loaded chip x2a c0 c1 c2 c3)
               c0 c1 c2 c3 eq_refl H0 H1 H2 H3).
    reflexivity.
  - rewrite (execute_window_set_effect (loaded chip x2b c0 c1 c2 c3)
               c0 c1 c2 c3 eq_refl H0 H1 H2 H3).
    reflexivity.
Qed.

(** Closed goals over concrete states are settled by evaluation. *)
Ltac by_eval :=
  lazymatch goal with
  | |- chip_ok _ => constructor; by_eval
  | |- store_ok _ _ => unfold store_ok; by_eval
  | |- in_window _ => unfold in_window; by_eval
  | |- window_ok _ => unfold window_ok; by_eval
  | |- full_window _ => unfold full_window; by_eval
  | |- armed _ => unfold armed; by_eval
  | |- reg_ok _ => unfold reg_ok; by_eval
  | |- is_sample _ => unfold is_sample; by_eval
  | |- Forall _ _ => constructor; by_eval
  | |- _ /\ _ => split; by_eval
  | |- _ =>
      vm_compute;
      repeat match goal with |- _ /\ _ => split end;
      first [reflexivity | intro; discriminate | lia]
  end.

(** C3 (amended): a column-address-set or row-address-set command with
    exactly four argument bytes [c0 c1 c2 c3] addresses the page
    registers for RASET and the column registers for CASET, the other
    way round when the swap bit is set.  On the column axis it stores
    start = c0<<8|c1, end = c2<<8|c3 and cursor = start.  On the page
    axis it stores the same values after the 32-row correction (with
    the row-mirror bit set, 32 is subtracted from each value that is
    >= 32), and again cursor = start.  The cursor and the bounds of
    the other axis are untouched. *)
Theorem window_set_addresses_axis
        (chip : chip_state_t) (host : host_t) (op c0 c1 c2 c3 : byte) :
  chip_ok chip -> op = x2a \/ op = x2b ->
  let chip' := fst (send_command (chip, host) op [c0; c1; c2; c3]) in
  if targets_page chip op then
    page_start chip' = row_offset chip (be16 c0 c1)
    /\ page_end chip' = row_offset chip (be16 c2 c3)
    /\ active_page chip' = page_start chip'
    /\ active_column chip' = active_column chip
    /\ column_start chip' = column_start chip
    /\ column_end chip' = column_end chip
  else
    column_start chip' = be16 c0 c1
    /\ column_end chip' = be16 c2 c3
    /\ active_column chip' = column_start chip'
    /\ active_page chip' = active_page chip
    /\ page_start chip' = page_start chip
    /\ page_end chip' = page_end chip.
Proof.
  intros Hok Hop chip'.
  destruct (send_window_set chip host op c0 c1 c2 c3 (ok_command_buf chip Hok) Hop)
    as [Hfst _].
  subst chip'. rewrite Hfst.
  destruct (targets_page chip op); repeat split; reflexivity.
Qed.

(** The theorem at RASET 40..50 on the 64 x 48 panel. *)
Lemma window_set_addresses_axis_witness :
  chip_ok (fst panel) /\ (x2b = x2a \/ x2b = x2b)
  /\ let chip' := fst (send_command (fst panel, snd panel) x2b [x00; x28; x00; x32]) in
     if targets_page (fst panel) x2b then
       page_start chip' = row_offset (fst panel) (be16 x00 x28)
       /\ page_end chip' = row_offset (fst panel) (be16 x00 x32)
       /\ active_page chip' = page_start chip'
       /\ active_column chip' = active_column (fst panel)
       /\ column_start chip' = column_start (fst panel)
       /\ column_end chip' = column_end (fst panel)
     else
       column_start chip' = be16 x00 x28
       /\ column_end chip' = be16 x00 x32
       /\ active_column chip' = column_start chip'
       /\ active_page chip' = active_page (fst panel)
       /\ page_start chip' = page_start (fst panel)
       /\ page_end chip' = page_end (fst panel).
Proof.
  split; [by_eval|]. split; [right; reflexivity|].
  apply window_set_addresses_axis; [by_eval|right; reflexivity].
Defined.

(** C3, as stated, fails: with the row-mirror bit set and the swap bit
    clear, RASET with arguments 40 and 50 stores start 8, end 18 and
    cursor 8, not start = c0<<8|c1 = 40. *)
Lemma window_set_start_counterexample :
  let s := send_command panel x36 [x80] in
  let s' := send_command s x2b [x00; x28; x00; x32] in
  swap_axes (fst s) = false
  /\ be16 x00 x28 = 40 /\ be16 x00 x32 = 50
  /\ page_start (fst s') = 8 /\ page_end (fst s') = 18 /\ active_page (fst s') = 8
  /\ page_start (fst s') <> be16 x00 x28.
Proof. vm_compute. repeat split; try reflexivity. discriminate. Qed.

(** Too few argument bytes: nothing but the in-flight command state,
    [ram_write] and [mode] can differ from the state before. *)
Lemma send_command_short (chip : chip_state_t) (host : host_t)
      (op : byte) (args : list byte) :
  0 < command_args_size (byte_val op) ->
  Z.of_nat (length args) < command_args_size (byte_val op) ->
  exists buf',
    fst (send_command (chip, host) op args)
    = set_command_index (Z.of_nat (length args))
        (set_command_buf buf' (awaiting chip op))
    /\ cells (snd (send_command (chip, host) op args)) = cells host.
Proof.
  intros Harity Hshort.
  destruct (send_command_awaiting chip host op args Harity)
    as (h1 & Hcells & Hfst & Hsnd).
  pose proof (command_args_size_range (byte_val op)) as Hr.
  destruct (process_command_args_short args (awaiting chip op) h1)
    as [buf' Hrun]; cbn; try lia.
  exists buf'. rewrite Hfst, Hsnd, Hrun. cbn [fst snd]. split; [reflexivity|exact Hcells].
Qed.

(** C6, as stated, fails: CASET with start 50 and end 10 is executed
    and leaves columnStart = 50 > columnEnd = 10; CASET 16..300 leaves
    columnEnd = 300 on a panel 64 columns wide. *)
Lemma window_set_order_counterexample :
  let s := send_command panel x2a [x00; x32; x00; x0a] in
  let s' := send_command panel x2a [x00; x10; x01; x2c] in
  column_start (fst s) = 50 /\ column_end (fst s) = 10
  /\ column_end (fst s') = 300 /\ width (fst s') = 64
  /\ ~ window_ok (fst s) /\ ~ window_ok (fst s').
Proof.
  vm_compute. repeat split; try reflexivity.
  - intros [[H _] _]. apply H. reflexivity.
  - intros [[_ H] _]. discriminate H.
Qed.

(** C7, as stated, fails: with the row-mirror bit set, RASET 20..40
    leaves start = 20 and cursor = 20, where the claim has 0 for both
    (values below 32 clamped at 0); the end becomes 40 - 32 = 8. *)
Lemma row_offset_below_32_not_clamped :
  let s := send_command panel x36 [x80] in
  let s' := send_command s x2b [x00; x14; x00; x28] in
  row_mirror (fst s) = true /\ targets_page (fst s) x2b = true
  /\ page_start (fst s') = 20 /\ page_end (fst s') = 8 /\ active_page (fst s') = 20
  /\ page_start (fst s') <> 0 /\ active_page (fst s') <> 0.
Proof. vm_compute. repeat split; try reflexivity; discriminate. Qed.


(** Executing anything but RAMWR leaves a disarmed device disarmed. *)
Lemma execute_command_disarmed (chip : chip_state_t) (host : host_t) :
  ram_write chip = false -> (command_code chip =? CMD_RAMWR) = false ->
  ram_write (fst (execute_command (chip, host))) = false.
Proof.
  intros Hrw Hcode. unfold execute_command, execute_window_set, chip_reset.
  rewrite Hcode.
  repeat match goal with
         | |- context [if ?b then _ else _] => destruct b
         end; cbn; try exact Hrw; reflexivity.
Qed.

(** A command byte that is alone in its batch arms the memory write
    exactly when it is RAMWR. *)
Lemma single_command_byte_arms (chip : chip_state_t) (host : host_t) (b : byte) :
  mode chip = MODE_COMMAND ->
  ram_write (fst (chip_spi_done (chip, host) [b])) = (byte_val b =? CMD_RAMWR).
Proof.
  intros Hmode.
  destruct (spi_done_command chip host [b] Hmode) as [Hfst _]; [discriminate|].
  rewrite Hfst. clear Hfst. unfold process_command, process_command_byte.
  cbn [fold_left].
  destruct (byte_val b =? CMD_RAMWR) eqn:E.
  - apply Z.eqb_eq in E. rewrite E. reflexivity.
  - cbn [command_code set_command_code set_command_size set_command_index
         command_size].
    destruct (_ =? 0); [|reflexivity].
    apply execute_command_disarmed; [reflexivity|exact E].
Qed.

(** C2: the code at the failing input.  A command-mode batch holding
    RAMWR followed by a no-op (or by a CASET opcode) leaves the memory
    write armed, although a later command byte has been processed. *)
Theorem ram_write_survives_later_command_byte :
  ram_write (fst (chip_spi_done panel [x2c; x00])) = true
  /\ command_code (fst (chip_spi_done panel [x2c; x00])) = CMD_NOP
  /\ ram_write (fst (chip_spi_done panel [x2c; x2a])) = true
  /\ mode (fst panel) = MODE_COMMAND.
Proof. vm_compute. repeat split; reflexivity. Qed.

(** * Hardware reset *)

Lemma clear_loop (fb : Z) (n : nat) (host : host_t) :
  4 * Z.of_nat n <= 2 ^ 32 -> (n <= length (cells host))%nat ->
  let h' := fold_left
              (fun h i => buffer_write fb (size_mul (Z.of_nat i) sizeof_color)
                            OPAQUE_BLACK h)
              (seq 0 n) host in
  cells h' = replicate n OPAQUE_BLACK ++ drop n (cells host)
  /\ calls h' = calls host
                ++ map (fun i => call_buffer_write fb (4 * Z.of_nat i) OPAQUE_BLACK)
                       (seq 0 n).
Proof.
  induction n as [|k IH]; intros Hfit Hlen; cbn zeta.
  - cbn. rewrite app_nil_r. split; reflexivity.
  - rewrite seq_S, fold_left_app, map_app. cbn [fold_left map Nat.add].
    destruct IH as [Hcells Hcalls]; [lia|lia|].
    cbn [buffer_write cells calls]. rewrite Hcells, Hcalls.
    rewrite size_mul_small by lia.
    replace (Z.to_nat (4 * Z.of_nat k / 4)) with k
      by (rewrite Z.mul_comm, Z.div_mul by lia; symmetry; apply Nat2Z.id).
    split; [|rewrite <- app_assoc; reflexivity].
    destruct (lookup_lt_is_Some_2 (cells host) k) as [y Hy]; [lia|].
    rewrite (drop_S _ _ _ Hy).
    rewrite insert_app_r_alt by (rewrite length_replicate; lia).
    rewrite length_replicate, Nat.sub_diag. cbn [insert list_insert].
    rewrite replicate_S_end, <- app_assoc. reflexivity.
Qed.

Lemma chip_reset_frame (chip : chip_state_t) :
  framebuffer (chip_reset chip) = framebuffer chip
  /\ width (chip_reset chip) = width chip
  /\ height (chip_reset chip) = height chip
  /\ mode (chip_reset chip) = mode chip
  /\ command_buf (chip_reset chip) = command_buf chip.
Proof.
  unfold chip_reset. cbn.
  destruct ((0 <? width chip) && (0 <? height chip)); repeat split; reflexivity.
Qed.

(** C9 (amended): a falling edge of the reset line requests a
    transport stop, then brings ramWriteArmed, the cursor, the window
    and scanningDirection to the values of device initialization (for
    a non-empty framebuffer: window = full extent, cursor 0,
    scanningDirection 0, ramWriteArmed false), and then overwrites
    every framebuffer cell with opaque black 0xFF000000 by exactly one
    cell write per pixel.  The mode register is not reinitialized: it
    keeps the value selected by the data/command line. *)
Theorem reset_line_falling_edge (chip : chip_state_t) (host : host_t) :
  chip_ok chip -> store_ok chip host -> framebuffer chip <> 0 ->
  0 < width chip -> 0 < height chip ->
  let s' := chip_pin_change (chip, host) PIN_RST LOW in
  let n := Z.to_nat (width chip * height chip) in
  calls (snd s')
  = calls host
    ++ call_spi_stop
       :: map (fun i => call_buffer_write (framebuffer chip) (4 * Z.of_nat i) 0xff000000)
              (seq 0 n)
  /\ cells (snd s') = replicate n 0xff000000
  /\ registers (fst s')
     = registers (set_mode (mode chip)
                    (chip_init (framebuffer chip) (width chip) (height chip)))
  /\ full_window (fst s')
  /\ active_column (fst s') = 0 /\ active_page (fst s') = 0
  /\ scanning_direction (fst s') = 0 /\ ram_write (fst s') = false
  /\ mode (fst s') = mode chip.
Proof.
  intros Hok [Hlen Hfit] Hfb HW HH s' n.
  pose proof (ok_width chip Hok) as Hw. pose proof (ok_height chip Hok) as Hh.
  assert (Hpos : (0 <? width chip) && (0 <? height chip) = true).
  { apply andb_true_iff. split; apply Z.ltb_lt; assumption. }
  assert (Hcount : Z.to_nat (u32 (width chip * height chip)) = n).
  { unfold n. rewrite u32_small by nia. reflexivity. }
  subst s'. cbn [chip_pin_change]. change (LOW =? LOW) with true. cbv iota.
  destruct (chip_reset_frame chip) as (Ef & Ew & Eh & Em & _).
  rewrite Ef.
  replace (framebuffer chip =? 0) with false
    by (symmetry; apply Z.eqb_neq; exact Hfb).
  cbn [fst snd]. unfold clear_framebuffer. rewrite Ef, Ew, Eh, Hcount.
  destruct (clear_loop (framebuffer chip) n (spi_stop host)) as [Hcells Hcalls].
  { unfold n. rewrite Z2Nat.id by nia. lia. }
  { cbn. lia. }
  cbn zeta in Hcells, Hcalls. unfold OPAQUE_BLACK in Hcells, Hcalls.
  unfold OPAQUE_BLACK.
  split; [rewrite Hcalls; cbn; rewrite <- app_assoc; reflexivity|].
  split.
  { rewrite Hcells. cbn [spi_stop log cells].
    rewrite drop_ge by lia. apply app_nil_r. }
  unfold registers, full_window, chip_init, chip_reset. cbn. rewrite Hpos. cbn.
  rewrite (u32_small (width chip - 1)), (u32_small (height chip - 1)) by lia.
  repeat split; reflexivity.
Qed.

(** The theorem at the 3 x 2 panel right after power-on. *)
Lemma reset_line_falling_edge_witness :
  chip_ok (fst tiny) /\ store_ok (fst tiny) (snd tiny)
  /\ framebuffer (fst tiny) <> 0 /\ 0 < width (fst tiny) /\ 0 < height (fst tiny)
  /\ let s' := chip_pin_change (fst tiny, snd tiny) PIN_RST LOW in
     let n := Z.to_nat (width (fst tiny) * height (fst tiny)) in
     calls (snd s')
     = calls (snd tiny)
       ++ call_spi_stop
          :: map (fun i => call_buffer_write (framebuffer (fst tiny))
                             (4 * Z.of_nat i) 0xff000000)
                 (seq 0 n)
     /\ cells (snd s') = replicate n 0xff000000
     /\ registers (fst s')
        = registers (set_mode (mode (fst tiny))
                       (chip_init (framebuffer (fst tiny)) (width (fst tiny))
                          (height (fst tiny))))
     /\ full_window (fst s')
     /\ active_column (fst s') = 0 /\ active_page (fst s') = 0
     /\ scanning_direction (fst s') = 0 /\ ram_write (fst s') = false
     /\ mode (fst s') = mode (fst tiny).
Proof.
  split; [by_eval|]. split; [by_eval|]. split; [by_eval|].
  split; [by_eval|]. split; [by_eval|].
  apply reset_line_falling_edge; by_eval.
Defined.

(** C9, as stated, fails: with the data/command line high the mode
    register is Data before the reset and still Data after it, while
    device initialization leaves it at Command. *)
Lemma reset_keeps_mode_counterexample :
  let s := chip_pin_change tiny PIN_DC HIGH in
  let s' := chip_pin_change s PIN_RST LOW in
  mode (fst s') = MODE_DATA
  /\ mode (chip_init 1 3 2) = MODE_COMMAND
  /\ registers (fst s') <> registers (chip_init 1 3 2).
Proof. vm_compute. repeat split; try reflexivity. discriminate. Qed.

(** * The claims on the pixel writer *)

(** C4: for every pixel sample the target coordinate is the cursor
    (activeColumn, activePage) put through the orientation transform:
    with the swap bit set the column-mirror bit mirrors X across the
    width and the row-mirror bit mirrors Y across the height; with the
    swap bit clear the row-mirror bit mirrors X and the column-mirror
    bit mirrors Y.  The sample is written at that coordinate unless it
    is clipped.  (The cursor and the extent are taken in the range of
    the C type [int], in which the code computes.) *)
Theorem target_coordinate_cross_wired
        (chip : chip_state_t) (host : host_t) (val : Z) :
  0 <= active_column chip < 2 ^ 31 -> 0 <= active_page chip < 2 ^ 31 ->
  0 <= width chip <= 2 ^ 31 -> 0 <= height chip <= 2 ^ 31 ->
  let x := mirror (if swap_axes chip then column_mirror chip else row_mirror chip)
                  (width chip) (active_column chip) in
  let y := mirror (if swap_axes chip then row_mirror chip else column_mirror chip)
                  (height chip) (active_page chip) in
  (target_x chip, target_y chip) = (x, y)
  /\ oriented chip = (x, y)
  /\ snd (write_pixel (chip, host) val)
     = if out_of_bounds chip x y then host
       else buffer_write (framebuffer chip)
              (size_mul (u32 (u32 y * width chip + u32 x)) sizeof_color)
              (rgb565_to_rgba val) host.
Proof.
  intros Hc Hp Hw Hh x y.
  pose proof (target_oriented chip Hc Hp Hw Hh) as Ht.
  assert (Ho : oriented chip = (x, y)).
  { unfold oriented, x, y. destruct (swap_axes chip); reflexivity. }
  rewrite Ho in Ht. injection Ht as Hx Hy.
  split; [rewrite Hx, Hy; reflexivity|]. split; [exact Ho|].
  unfold write_pixel. cbn [snd]. rewrite Hx, Hy. reflexivity.
Qed.

(** C5 (amended): in armed data mode, if the cursor lies inside the
    addressing window when the pixel stream starts (so that the window
    is ordered, start <= end on both axes), it lies inside the window
    after every sample of a stream of any length: activeColumn in
    [columnStart, columnEnd] and activePage in [pageStart, pageEnd].
    Each sample advances the fast axis (page when the swap bit is set,
    column when it is clear); past its end the fast axis resumes at
    its start and the slow axis advances, itself resuming at its start
    past its end. *)
Theorem cursor_stays_in_window
        (chip : chip_state_t) (host : host_t)
        (batches : list (list byte)) (buf : list byte) (k : nat) :
  chip_ok chip -> armed chip -> in_window chip ->
  in_window (fst (receive (chip, host) batches))
  /\ in_window (fst (pixel_loop (receive (chip, host) batches) buf k))
  /\ (active_column (advance chip), active_page (advance chip)) = next_cursor chip.
Proof.
  intros Hok Harm Hin.
  destruct (receive_armed batches chip host Harm) as [n Hn].
  split; [|split].
  - rewrite Hn. apply iter_advance_keeps_window; assumption.
  - rewrite pixel_loop_fst, Hn, <- Nat.iter_add.
    apply iter_advance_keeps_window; assumption.
  - apply advance_next_cursor; assumption.
Qed.

(** * Filling the framebuffer *)

Lemma be_bytes_length (vs : list Z) :
  length (be_bytes vs) = (2 * length vs)%nat.
Proof.
  induction vs as [|v vs IH]; [reflexivity|].
  cbn [be_bytes flat_map app length] in *. fold (be_bytes vs). rewrite IH. lia.
Qed.

Lemma sample_at_be_bytes (vs : list Z) (i : nat) :
  Forall is_sample vs -> (i < length vs)%nat ->
  sample_at (be_bytes vs) i = nth i vs 0.
Proof.
  intros Hall. revert i. induction Hall as [|v vs Hv Hall IH]; intros i Hi.
  - cbn in Hi. lia.
  - destruct i as [|i].
    + unfold sample_at. cbn [be_bytes flat_map app Nat.mul Nat.add nth].
      unfold is_sample in Hv.
      rewrite !byte_val_of by (Z.to_euclidean_division_equations; lia).
      rewrite (u16_small (v / 256)) by (Z.to_euclidean_division_equations; lia).
      rewrite lor_shiftl_low by (Z.to_euclidean_division_equations; lia).
      rewrite u16_small by (Z.to_euclidean_division_equations; lia).
      Z.to_euclidean_division_equations; lia.
    + cbn [length] in Hi. cbn [nth]. rewrite <- IH by lia.
      unfold sample_at. cbn [be_bytes flat_map app]. fold (be_bytes vs).
      replace (2 * S i)%nat with (S (S (2 * i))) by lia.
      replace (S (S (2 * i)) + 1)%nat with (S (S (2 * i + 1))) by lia.
      reflexivity.
Qed.

Lemma filling_extent (chip : chip_state_t) :
  filling chip ->
  0 < width chip /\ 0 < height chip
  /\ 0 <= active_column chip < width chip
  /\ 0 <= active_page chip < height chip
  /\ 0 <= linear chip < width chip * height chip.
Proof.
  intros [Hok _ _ (Hcs & Hce & Hps & Hpe) [Hc Hp] _].
  rewrite Hcs, Hce in Hc. rewrite Hps, Hpe in Hp. unfold linear.
  repeat split; try lia; nia.
Qed.

Lemma filling_flags (chip : chip_state_t) :
  scanning_direction chip = 0 ->
  swap_axes chip = false /\ row_mirror chip = false /\ column_mirror chip = false.
Proof.
  intros Hsd. unfold swap_axes, row_mirror, column_mirror. rewrite Hsd.
  repeat split; reflexivity.
Qed.

(** One sample while filling: it is written at the cell of the cursor,
    and the cursor moves to the next cell in row-major order. *)
Lemma fill_step (chip : chip_state_t) (host : host_t) (val : Z) :
  filling chip ->
  write_pixel (chip, host) val
  = (advance chip,
     buffer_write (framebuffer chip) (4 * linear chip) (rgb565_to_rgba val) host)
  /\ filling (advance chip)
  /\ linear (advance chip)
     = if linear chip + 1 <? width chip * height chip then linear chip + 1 else 0.
Proof.
  intros Hfill.
  destruct (filling_extent chip Hfill) as (HW & HH & Hc & Hp & Hlin).
  destruct Hfill as [Hok Harm Hsd Hfull Hin Hfit].
  destruct (filling_flags chip Hsd) as (Hswap & Hrow & Hcol).
  pose proof (ok_width chip Hok) as Hw. pose proof (ok_height chip Hok) as Hh.
  assert (Hsmall : width chip < 2 ^ 31 /\ height chip < 2 ^ 31) by nia.
  assert (Ht : (target_x chip, target_y chip) = oriented chip)
    by (apply target_oriented; lia).
  unfold oriented, mirror in Ht. rewrite Hswap, Hrow, Hcol in Ht.
  injection Ht as Hx Hy.
  split; [|split].
  - destruct (write_pixel_host chip host val Hw Hh Hfit)
      as [[Hoob _]|(_ & _ & _ & Hwrite)].
    + exfalso. rewrite Hx, Hy in Hoob. unfold out_of_bounds in Hoob.
      rewrite !int32_small in Hoob by lia.
      destruct (Z.ltb_spec (active_column chip) 0); [lia|].
      destruct (Z.leb_spec (width chip) (active_column chip)); [lia|].
      destruct (Z.ltb_spec (active_page chip) 0); [lia|].
      destruct (Z.leb_spec (height chip) (active_page chip)); [lia|].
      discriminate.
    + rewrite Hx, Hy in Hwrite. fold (linear chip) in Hwrite.
      rewrite <- Hwrite. destruct (write_pixel (chip, host) val) eqn:E.
      pose proof (write_pixel_fst (chip, host) val) as Hf.
      rewrite E in Hf. cbn in Hf. rewrite Hf. reflexivity.
  - destruct (advance_keeps_window chip Hok Hin) as [Hok' Hin'].
    constructor; try assumption; rewrite advance_frame; assumption.
  - pose proof (advance_next_cursor chip Hok Hin) as Hnext.
    unfold next_cursor in Hnext. rewrite Hswap in Hnext.
    destruct Hfull as (Hcs & Hce & Hps & Hpe).
    rewrite Hcs, Hce, Hps, Hpe in Hnext.
    unfold linear at 1. rewrite (advance_frame chip) at 2.
    cbn [width set_active_page set_active_column]. unfold linear.
    destruct (Z.ltb_spec (active_column chip) (width chip - 1)).
    + injection Hnext as -> ->.
      destruct (Z.ltb_spec (active_page chip * width chip + active_column chip + 1)
                           (width chip * height chip)); nia.
    + destruct (Z.ltb_spec (active_page chip) (height chip - 1));
        injection Hnext as -> ->;
        destruct (Z.ltb_spec (active_page chip * width chip + active_column chip + 1)
                             (width chip * height chip)); nia.
Qed.

Lemma fill_loop (buf : list byte) (k n : nat) (chip : chip_state_t) (host : host_t) :
  filling chip -> store_ok chip host ->
  linear chip = Z.of_nat k ->
  Z.of_nat (k + n) <= width chip * height chip ->
  let s' := pixel_loop (chip, host) buf n in
  filling (fst s')
  /\ store_ok (fst s') (snd s')
  /\ linear (fst s')
     = (if Z.of_nat (k + n) <? width chip * height chip then Z.of_nat (k + n) else 0)
  /\ forall i : nat,
      cells (snd s') !! i
      = if in_range k n i
        then Some (rgb565_to_rgba (sample_at buf (i - k)))
        else cells host !! i.
Proof.
  intros Hfill Hstore Hk. induction n as [|n IH]; intros Hle; cbn zeta.
  - cbn [pixel_loop seq fold_left fst snd]. rewrite Nat.add_0_r.
    destruct (filling_extent chip Hfill) as (_ & _ & _ & _ & Hlin).
    split; [exact Hfill|]. split; [exact Hstore|]. split.
    + destruct (Z.ltb_spec (Z.of_nat k) (width chip * height chip)); lia.
    + intros i. unfold in_range.
      destruct (Nat.leb_spec k i), (Nat.ltb_spec i (k + 0)); cbn; try reflexivity; lia.
  - destruct IH as (Hfill' & Hstore' & Hlin' & Hcells'); [lia|].
    rewrite pixel_loop_S.
    pose proof (pixel_loop_fst (chip, host) buf n) as Hiter. cbn [fst] in Hiter.
    destruct (pixel_loop (chip, host) buf n) as [chip' host']. cbn [fst snd] in *.
    assert (Hsame : width chip' = width chip /\ height chip' = height chip).
    { rewrite Hiter, iter_advance_frame. split; reflexivity. }
    destruct Hsame as [Ew Eh].
    destruct (Z.ltb_spec (Z.of_nat (k + n)) (width chip * height chip)); [|lia].
    destruct (fill_step chip' host' (sample_at buf n) Hfill') as (Hstep & Hfill'' & Hlin'').
    rewrite Hstep. cbn [fst snd buffer_write cells]. rewrite Hlin' in *.
    assert (Ew' : width (advance chip') = width chip)
      by (rewrite advance_frame; exact Ew).
    assert (Eh' : height (advance chip') = height chip)
      by (rewrite advance_frame; exact Eh).
    destruct Hstore' as [Hlen' Hfit'].
    replace (Z.to_nat (4 * Z.of_nat (k + n) / 4)) with (k + n)%nat
      by (rewrite Z.mul_comm, Z.div_mul by lia; symmetry; apply Nat2Z.id).
    split; [exact Hfill''|]. split.
    { split; cbn [buffer_write cells]; rewrite ?length_insert, Ew', Eh';
        rewrite Ew, Eh in *; assumption. }
    split.
    { rewrite Hlin'', Ew, Eh. replace (Z.of_nat (k + S n)) with (Z.of_nat (k + n) + 1) by lia.
      reflexivity. }
    intros i. cbn [buffer_write cells].
    destruct (Nat.eq_dec i (k + n)%nat) as [->|Hne].
    + rewrite list_lookup_insert_eq by lia.
      unfold in_range.
      destruct (Nat.leb_spec k (k + n)), (Nat.ltb_spec (k + n) (k + S n)); try lia.
      cbn. replace (k + n - k)%nat with n by lia. reflexivity.
    + rewrite list_lookup_insert_ne by lia. rewrite Hcells'. unfold in_range.
      destruct (Nat.leb_spec k i), (Nat.ltb_spec i (k + n)), (Nat.ltb_spec i (k + S n));
        cbn; try reflexivity; lia.
Qed.

Lemma in_range_empty (k i : nat) : in_range k 0 i = false.
Proof.
  unfold in_range.
  destruct (Nat.leb_spec k i), (Nat.ltb_spec i (k + 0)); cbn; try reflexivity; lia.
Qed.

(** One transport batch of whole samples while filling. *)
Lemma fill_batch (vs : list Z) (k : nat) (chip : chip_state_t) (host : host_t) :
  filling chip -> store_ok chip host -> Forall is_sample vs ->
  linear chip = (if Z.of_nat k <? width chip * height chip then Z.of_nat k else 0) ->
  Z.of_nat (k + length vs) <= width chip * height chip ->
  let s' := chip_spi_done (chip, host) (be_bytes vs) in
  filling (fst s')
  /\ store_ok (fst s') (snd s')
  /\ width (fst s') = width chip /\ height (fst s') = height chip
  /\ linear (fst s')
     = (if Z.of_nat (k + length vs) <? width chip * height chip
        then Z.of_nat (k + length vs) else 0)
  /\ forall i : nat,
      cells (snd s') !! i
      = if in_range k (length vs) i
        then Some (expand565 (nth (i - k) vs 0))
        else cells host !! i.
Proof.
  intros Hfill Hstore Hall Hlin Hle. cbn zeta.
  destruct vs as [|v vs'] eqn:Evs.
  - cbn [be_bytes flat_map chip_spi_done length Z.of_nat Z.eqb fst snd].
    rewrite Nat.add_0_r.
    split; [exact Hfill|]. split; [exact Hstore|].
    split; [reflexivity|]. split; [reflexivity|]. split; [exact Hlin|].
    intros i. rewrite in_range_empty. reflexivity.
  - rewrite <- Evs in *. assert (Hpos : (0 < length vs)%nat) by (rewrite Evs; cbn; lia).
    clear Evs v vs'.
    destruct (Z.ltb_spec (Z.of_nat k) (width chip * height chip)); [|lia].
    destruct (chip_spi_done_armed chip host (be_bytes vs) (fill_armed chip Hfill))
      as [Hfst Hcells].
    rewrite process_data_loop in Hfst, Hcells.
    assert (Hn : (length (be_bytes vs) / 2)%nat = length vs).
    { rewrite be_bytes_length, Nat.mul_comm. apply Nat.div_mul. lia. }
    rewrite Hn in Hfst, Hcells.
    destruct (fill_loop (be_bytes vs) k (length vs) chip host Hfill Hstore Hlin Hle)
      as (Hfill' & Hstore' & Hlin' & Hlook).
    pose proof (pixel_loop_fst (chip, host) (be_bytes vs) (length vs)) as Hiter.
    cbn [fst] in Hiter.
    assert (Hsame : width (fst (pixel_loop (chip, host) (be_bytes vs) (length vs)))
                    = width chip
                    /\ height (fst (pixel_loop (chip, host) (be_bytes vs) (length vs)))
                       = height chip).
    { rewrite Hiter, iter_advance_frame. split; reflexivity. }
    destruct Hsame as [Ew Eh].
    rewrite Hfst. unfold store_ok. rewrite Hcells.
    split; [exact Hfill'|]. split; [exact Hstore'|].
    split; [exact Ew|]. split; [exact Eh|]. split; [exact Hlin'|].
    intros i. rewrite Hlook. unfold in_range.
    destruct (Nat.leb_spec k i), (Nat.ltb_spec i (k + length vs)); cbn;
      try reflexivity.
    rewrite sample_at_be_bytes by (assumption || lia).
    rewrite rgb565_to_rgba_expand; [reflexivity|].
    rewrite Forall_forall in Hall. apply Hall. apply list_elem_of_In.
    apply nth_In. lia.
Qed.

(** Any number of batches of whole samples while filling. *)
Lemma fill_batches (batches : list (list Z)) :
  forall (k : nat) (chip : chip_state_t) (host : host_t),
    filling chip -> store_ok chip host -> Forall (Forall is_sample) batches ->
    linear chip = (if Z.of_nat k <? width chip * height chip then Z.of_nat k else 0) ->
    Z.of_nat (k + length (concat batches)) <= width chip * height chip ->
    let s' := receive (chip, host) (map be_bytes batches) in
    length (cells (snd s')) = length (cells host)
    /\ forall i : nat,
        cells (snd s') !! i
        = if in_range k (length (concat batches)) i
          then Some (expand565 (nth (i - k) (concat batches) 0))
          else cells host !! i.
Proof.
  induction batches as [|vs rest IH]; intros k chip host Hfill Hstore Hall Hlin Hle;
    cbn zeta.
  - cbn. split; [reflexivity|]. intros i. rewrite in_range_empty. reflexivity.
  - apply Forall_cons in Hall as [Hvs Hrest].
    cbn [concat] in *. rewrite length_app in Hle |- *.
    cbn [map receive fold_left].
    fold (receive (chip_spi_done (chip, host) (be_bytes vs)) (map be_bytes rest)).
    destruct (fill_batch vs k chip host Hfill Hstore Hvs Hlin)
      as (Hfill1 & Hstore1 & Ew & Eh & Hlin1 & Hlook1); [lia|].
    destruct (chip_spi_done (chip, host) (be_bytes vs)) as [chip1 host1].
    cbn [fst snd] in *.
    destruct (IH (k + length vs)%nat chip1 host1 Hfill1 Hstore1 Hrest)
      as [Hlen2 Hlook2].
    { rewrite Ew, Eh. exact Hlin1. }
    { rewrite Ew, Eh. lia. }
    split.
    { rewrite Hlen2. destruct Hstore1 as [L1 _]. destruct Hstore as [L0 _].
      rewrite L1, L0, Ew, Eh. reflexivity. }
    intros i. rewrite Hlook2, Hlook1. unfold in_range.
    destruct (Nat.leb_spec (k + length vs) i),
             (Nat.ltb_spec i (k + length vs + length (concat rest))),
             (Nat.leb_spec k i), (Nat.ltb_spec i (k + length vs)),
             (Nat.ltb_spec i (k + (length vs + length (concat rest))));
      cbn; try reflexivity; try lia.
    + rewrite app_nth2 by lia. do 2 f_equal. f_equal. lia.
    + rewrite app_nth1 by lia. reflexivity.
Qed.

(** C1: with the window set to the whole framebuffer, orientation 0
    and the cursor at the window start, W * H consecutive big-endian
    16-bit samples received in armed data mode, in any number of
    transport batches of whole samples, fill the framebuffer in
    row-major order: cell i holds the expansion of sample i (alpha
    0xFF, then the 5/6/5 channels upscaled to 8 bits by bit
    replication). *)
Theorem full_frame_round_trip
        (chip : chip_state_t) (host : host_t) (batches : list (list Z)) :
  chip_ok chip -> store_ok chip host -> armed chip ->
  0 < width chip -> 0 < height chip ->
  scanning_direction chip = 0 -> full_window chip ->
  active_column chip = 0 -> active_page chip = 0 ->
  Forall (Forall is_sample) batches ->
  Z.of_nat (length (concat batches)) = width chip * height chip ->
  let s' := receive (chip, host) (map be_bytes batches) in
  cells (snd s') = map expand565 (concat batches)
  /\ cells (snd s') = map rgb565_to_rgba (concat batches)
  /\ forall i : nat,
      Z.of_nat i < width chip * height chip ->
      cells (snd s') !! i = Some (expand565 (nth i (concat batches) 0)).
Proof.
  intros Hok Hstore Harm HW HH Hsd Hfull Hc Hp Hall Hcount. cbn zeta.
  assert (Hfill : filling chip).
  { destruct Hfull as (Hcs & Hce & Hps & Hpe).
    constructor; try assumption.
    - repeat split; assumption.
    - unfold in_window. rewrite Hcs, Hce, Hps, Hpe, Hc, Hp. lia.
    - apply Hstore. }
  destruct (fill_batches batches 0%nat chip host Hfill Hstore Hall) as [Hlen Hlook].
  { unfold linear. rewrite Hc, Hp.
    destruct (Z.ltb_spec (Z.of_nat 0) (width chip * height chip)); lia. }
  { cbn [Nat.add]. lia. }
  assert (Hcells : cells (snd (receive (chip, host) (map be_bytes batches)))
                   = map expand565 (concat batches)).
  { apply list_eq. intros i. rewrite Hlook. unfold in_range. cbn [Nat.add].
    change (map expand565 (concat batches)) with (expand565 <$> concat batches).
    rewrite list_lookup_fmap, Nat.sub_0_r.
    destruct (Nat.ltb_spec i (length (concat batches))) as [Hi|Hi]; cbn.
    - destruct (lookup_lt_is_Some_2 (concat batches) i Hi) as [v Hv].
      rewrite Hv, (nth_lookup_Some _ _ _ _ Hv). reflexivity.
    - rewrite (lookup_ge_None_2 (concat batches)) by lia.
      apply lookup_ge_None_2. destruct Hstore as [L _]. rewrite L. lia. }
  split; [exact Hcells|]. split.
  - rewrite Hcells. apply map_ext_in. intros v Hv. symmetry.
    apply rgb565_to_rgba_expand.
    apply in_concat in Hv as (vs & Hvs & Hv).
    rewrite Forall_forall in Hall. specialize (Hall vs).
    rewrite Forall_forall in Hall. apply Hall; apply list_elem_of_In; assumption.
  - intros i Hi. rewrite Hlook. unfold in_range. cbn [Nat.add].
    rewrite Nat.sub_0_r.
    destruct (Nat.ltb_spec i (length (concat batches))); [reflexivity|lia].
Qed.

(** * Well-formedness is an invariant of the handlers *)

Lemma u16_range (z : Z) : 0 <= u16 z < 65536.
Proof. unfold u16. apply Z.mod_pos_bound. lia. Qed.

Lemma offset32_range (v : Z) : 0 <= v < 65536 -> 0 <= offset32 v < 65536.
Proof.
  intros Hv. unfold offset32.
  destruct (Z.leb_spec 32 v); [rewrite u32_small; lia|lia].
Qed.

Lemma kept_refl (s : sim) : chip_ok (fst s) -> kept s s.
Proof. intros H. split; [exact H|]. repeat split; reflexivity. Qed.

Lemma kept_trans (a b c : sim) : kept a b -> kept b c -> kept a c.
Proof.
  intros (_ & W1 & H1 & L1) (Hok & W2 & H2 & L2).
  split; [exact Hok|]. repeat split; congruence.
Qed.

Lemma chip_reset_ok (chip : chip_state_t) : chip_ok chip -> chip_ok (chip_reset chip).
Proof.
  intros [Hw Hh Hbuf _ _ _ _ _ _]. unfold chip_reset. cbn.
  destruct ((0 <? width chip) && (0 <? height chip)) eqn:E.
  - apply andb_true_iff in E as [E1 E2]. apply Z.ltb_lt in E1, E2.
    constructor; unfold reg_ok; cbn; rewrite ?u32_small by lia;
      (assumption || lia).
  - constructor; unfold reg_ok; cbn; (assumption || lia).
Qed.

Lemma execute_window_set_ok (chip : chip_state_t) :
  chip_ok chip ->
  chip_ok (execute_window_set chip)
  /\ width (execute_window_set chip) = width chip
  /\ height (execute_window_set chip) = height chip.
Proof.
  intros Hok. unfold execute_window_set.
  destruct (command_size chip <? 4); [split; [exact Hok|split; reflexivity]|].
  pose proof (u16_range (Z.lor (Z.shiftl (buf_at chip 0) 8) (buf_at chip 1))) as R0.
  pose proof (u16_range (Z.lor (Z.shiftl (buf_at chip 2) 8) (buf_at chip 3))) as R2.
  pose proof (offset32_range _ R0) as O0. pose proof (offset32_range _ R2) as O2.
  destruct Hok as [Hw Hh Hbuf Hac Hap Hcs Hce Hps Hpe]. unfold reg_ok in *.
  destruct (if flag (scanning_direction chip) SCAN_MV
            then negb (command_code chip =? CMD_RASET)
            else command_code chip =? CMD_RASET); cbn.
  - destruct (flag (scanning_direction chip) SCAN_MY);
      (split; [constructor; unfold reg_ok; cbn; (assumption || lia)
              |split; reflexivity]).
  - split; [constructor; unfold reg_ok; cbn; (assumption || lia)|split; reflexivity].
Qed.

Lemma execute_command_kept (chip : chip_state_t) (host : host_t) :
  chip_ok chip -> kept (chip, host) (execute_command (chip, host)).
Proof.
  intros Hok. unfold execute_command, kept.
  destruct (chip_reset_frame chip) as (_ & Ew & Eh & _ & _).
  destruct (execute_window_set_ok chip Hok) as (Hws & Ews & Ehs).
  repeat match goal with
         | |- context [if ?b then _ else _] => destruct b
         end; cbn [fst snd log cells];
    (split; [first [exact Hok | exact Hws | apply chip_reset_ok, Hok
                   | destruct Hok; constructor; assumption]
            |repeat split; (reflexivity || assumption)]).
Qed.

Lemma process_command_byte_kept (chip : chip_state_t) (host : host_t) (b : byte) :
  chip_ok chip -> kept (chip, host) (process_command_byte (chip, host) b).
Proof.
  intros Hok. unfold process_command_byte.
  match goal with
  | |- context [execute_command (?c, host)] =>
      assert (Hc : chip_ok c) by (destruct Hok; constructor; assumption);
      pose proof (execute_command_kept c host Hc) as He
  end.
  destruct (_ =? 0); [exact He|].
  split; [exact Hc|]. repeat split; reflexivity.
Qed.

Lemma process_command_arg_kept (chip : chip_state_t) (host : host_t) (b : byte) :
  chip_ok chip -> kept (chip, host) (process_command_arg (chip, host) b).
Proof.
  intros Hok. unfold process_command_arg.
  destruct (command_index chip <? command_size chip); [|apply kept_refl, Hok].
  match goal with
  | |- context [execute_command (?c, host)] =>
      assert (Hc : chip_ok c)
        by (destruct Hok; constructor; cbn; rewrite ?length_insert; assumption);
      pose proof (execute_command_kept c host Hc) as (He & Ew & Eh & El);
      destruct (execute_command (c, host)) as [chip2 host2]
  end.
  cbn [fst snd] in *.
  destruct (_ =? _); cbn [fst snd].
  - split; [destruct He; constructor; assumption|].
    repeat split; assumption.
  - split; [exact Hc|]. repeat split; reflexivity.
Qed.

Lemma fold_kept (f : sim -> byte -> sim) (buf : list byte) :
  (forall chip host b, chip_ok chip -> kept (chip, host) (f (chip, host) b)) ->
  forall s, chip_ok (fst s) -> kept s (fold_left f buf s).
Proof.
  intros Hf. induction buf as [|b rest IH]; intros [chip host] Hok.
  - apply kept_refl, Hok.
  - cbn [fold_left]. pose proof (Hf chip host b Hok) as Hstep.
    apply kept_trans with (f (chip, host) b); [exact Hstep|].
    apply IH, Hstep.
Qed.

Lemma pixel_loop_cells_length (chip : chip_state_t) (host : host_t)
      (buf : list byte) (n : nat) :
  length (cells (snd (pixel_loop (chip, host) buf n))) = length (cells host).
Proof.
  induction n as [|n IH]; [reflexivity|].
  rewrite pixel_loop_S. destruct (pixel_loop (chip, host) buf n) as [chip' host'].
  cbn [snd] in IH. unfold write_pixel. cbn [snd].
  destruct (out_of_bounds _ _ _); [exact IH|].
  cbn [buffer_write cells]. rewrite length_insert. exact IH.
Qed.

Lemma process_data_kept (chip : chip_state_t) (host : host_t) (buf : list byte) :
  chip_ok chip -> kept (chip, host) (process_data (chip, host) buf).
Proof.
  intros Hok. rewrite process_data_loop. unfold kept.
  rewrite pixel_loop_fst, pixel_loop_cells_length. cbn [fst snd].
  split; [apply iter_advance_ok, Hok|].
  rewrite iter_advance_frame. repeat split; reflexivity.
Qed.

Lemma chip_init_ok (fb w h : Z) :
  0 <= w < 2 ^ 32 -> 0 <= h < 2 ^ 32 -> chip_ok (chip_init fb w h).
Proof.
  intros Hw Hh. unfold chip_init. apply chip_reset_ok.
  constructor; unfold reg_ok; cbn; (assumption || reflexivity || lia).
Qed.

Lemma chip_spi_done_kept (s : sim) (buf : list byte) :
  chip_ok (fst s) -> kept s (chip_spi_done s buf).
Proof.
  destruct s as [chip host]. cbn [fst]. intros Hok. unfold chip_spi_done.
  destruct (Z.of_nat (length buf) =? 0); [apply kept_refl, Hok|].
  cbn [fst snd].
  assert (H : kept (chip, host)
                (match mode chip with
                 | MODE_COMMAND => process_command (chip, host) buf
                 | MODE_DATA =>
                     if ram_write chip then process_data (chip, host) buf
                     else process_command_args (chip, host) buf
                 end)).
  { destruct (mode chip); [|destruct (ram_write chip)].
    - unfold process_command.
      apply kept_trans with (set_ram_write false chip, host).
      + split; [destruct Hok; constructor; assumption|]. repeat split; reflexivity.
      + apply fold_kept; [apply process_command_byte_kept|].
        destruct Hok. constructor; assumption.
    - apply process_data_kept, Hok.
    - apply fold_kept; [apply process_command_arg_kept|exact Hok]. }
  destruct H as (H1 & H2 & H3 & H4).
  destruct (pin_read_cs _ =? LOW); (split; [exact H1|repeat split; assumption]).
Qed.

Lemma clear_framebuffer_cells_length (chip : chip_state_t) (host : host_t) :
  length (cells (clear_framebuffer chip host)) = length (cells host).
Proof.
  unfold clear_framebuffer.
  generalize (seq 0 (Z.to_nat (u32 (width chip * height chip)))). intros l.
  revert host. induction l as [|i l IH]; intros host; [reflexivity|].
  cbn [fold_left]. rewrite IH. cbn [buffer_write cells]. apply length_insert.
Qed.

Lemma chip_pin_change_kept (s : sim) (pin : pin_t) (value : Z) :
  chip_ok (fst s) -> kept s (chip_pin_change s pin value).
Proof.
  destruct s as [chip host]. cbn [fst]. intros Hok.
  destruct (chip_reset_frame chip) as (_ & Ew & Eh & _ & _).
  unfold chip_pin_change, kept.
  destruct pin;
    repeat match goal with
           | |- context [if ?b then _ else _] => destruct b
           end; cbn [fst snd spi_start spi_stop log cells];
    rewrite ?clear_framebuffer_cells_length; cbn [fst snd spi_start spi_stop log cells];
    (split; [first [exact Hok | apply chip_reset_ok, Hok
                   | destruct Hok; constructor; assumption]
            |repeat split; (reflexivity || assumption)]).
Qed.

(** Every state a powered-on device can reach is well formed. *)
Lemma run_ok (events : list event) (s : sim) :
  chip_ok (fst s) -> store_ok (fst s) (snd s) ->
  chip_ok (fst (run s events)) /\ store_ok (fst (run s events)) (snd (run s events)).
Proof.
  revert s. induction events as [|e rest IH]; intros s Hok Hstore; [split; assumption|].
  unfold run. cbn [fold_left]. fold (run (handle s e) rest).
  assert (Hk : kept s (handle s e)).
  { destruct e; [apply chip_pin_change_kept|apply chip_spi_done_kept]; exact Hok. }
  destruct Hk as (Hok' & Ew & Eh & El). apply IH; [exact Hok'|].
  destruct Hstore as [L F]. unfold store_ok. rewrite Ew, Eh, El. split; assumption.
Qed.

Lemma power_on_ok (fb w h fill : Z) :
  0 <= w < 2 ^ 32 -> 0 <= h < 2 ^ 32 -> 4 * (w * h) <= 2 ^ 32 ->
  chip_ok (fst (power_on fb w h fill))
  /\ store_ok (fst (power_on fb w h fill)) (snd (power_on fb w h fill)).
Proof.
  intros Hw Hh Hfit. unfold power_on. cbn [fst snd].
  split; [apply chip_init_ok; assumption|].
  unfold store_ok. cbn [cells]. rewrite length_replicate.
  unfold chip_init.
  destruct (chip_reset_frame
              (set_mode MODE_COMMAND
                 (mkChip fb w h MODE_COMMAND 0 0 0 (replicate 16 x00) false 0 0 0 0 0 0 0)))
    as (_ & Ew & Eh & _ & _).
  rewrite Ew, Eh. cbn. split; [reflexivity|assumption].
Qed.

(** The theorem at the panel with MADCTL = 0xA0 (rows mirrored, axes
    swapped). *)
Lemma target_coordinate_cross_wired_witness :
  0 <= active_column (fst rotated) < 2 ^ 31
  /\ 0 <= active_page (fst rotated) < 2 ^ 31
  /\ 0 <= width (fst rotated) <= 2 ^ 31
  /\ 0 <= height (fst rotated) <= 2 ^ 31
  /\ let x := mirror (if swap_axes (fst rotated) then column_mirror (fst rotated)
                      else row_mirror (fst rotated))
                     (width (fst rotated)) (active_column (fst rotated)) in
     let y := mirror (if swap_axes (fst rotated) then row_mirror (fst rotated)
                      else column_mirror (fst rotated))
                     (height (fst rotated)) (active_page (fst rotated)) in
     (target_x (fst rotated), target_y (fst rotated)) = (x, y)
     /\ oriented (fst rotated) = (x, y)
     /\ snd (write_pixel (fst rotated, snd rotated) 0xf800)
        = if out_of_bounds (fst rotated) x y then snd rotated
          else buffer_write (framebuffer (fst rotated))
                 (size_mul (u32 (u32 y * width (fst rotated) + u32 x)) sizeof_color)
                 (rgb565_to_rgba 0xf800) (snd rotated).
Proof.
  split; [by_eval|]. split; [by_eval|]. split; [by_eval|]. split; [by_eval|].
  apply target_coordinate_cross_wired; by_eval.
Defined.

(** The theorem at the 3 x 2 panel: two batches, then three samples
    of a third. *)
Lemma cursor_stays_in_window_witness :
  chip_ok (fst streaming) /\ armed (fst streaming) /\ in_window (fst streaming)
  /\ (in_window (fst (receive (fst streaming, snd streaming)
                        [[xf8; x00; x07; xe0]; [x00; x1f]]))
      /\ in_window (fst (pixel_loop
                           (receive (fst streaming, snd streaming)
                              [[xf8; x00; x07; xe0]; [x00; x1f]])
                           [xff; xff; x00; x00; x12; x34; x56; x78] 3))
      /\ (active_column (advance (fst streaming)),
          active_page (advance (fst streaming)))
         = next_cursor (fst streaming)).
Proof.
  split; [by_eval|]. split; [by_eval|]. split; [by_eval|].
  apply cursor_stays_in_window; by_eval.
Defined.

(** C5, as stated, fails: CASET 50..10 followed by RAMWR arms a memory
    write with the cursor at column 50 and columnEnd = 10; after one
    sample, and after two, activeColumn is 50 again, outside
    [columnStart, columnEnd]. *)
Lemma cursor_outside_inverted_window_counterexample :
  let s1 := chip_spi_done inverted [xf8; x00] in
  let s2 := chip_spi_done inverted [xf8; x00; x07; xe0] in
  armed (fst inverted)
  /\ column_start (fst s1) = 50 /\ column_end (fst s1) = 10
  /\ active_column (fst s1) = 50 /\ active_column (fst s2) = 50
  /\ ~ in_window (fst s1) /\ ~ in_window (fst s2).
Proof.
  vm_compute. repeat split; try reflexivity.
  - intros [[_ H] _]. apply H. reflexivity.
  - intros [[_ H] _]. apply H. reflexivity.
Qed.

(** The theorem at the 3 x 2 panel: six samples in three batches, the
    second one empty. *)
Lemma full_frame_round_trip_witness :
  chip_ok (fst streaming) /\ store_ok (fst streaming) (snd streaming)
  /\ armed (fst streaming)
  /\ 0 < width (fst streaming) /\ 0 < height (fst streaming)
  /\ scanning_direction (fst streaming) = 0 /\ full_window (fst streaming)
  /\ active_column (fst streaming) = 0 /\ active_page (fst streaming) = 0
  /\ Forall (Forall is_sample) [[0xf800; 0x07e0]; []; [0x001f; 0xffff; 0; 0x1234]]
  /\ Z.of_nat (length (concat [[0xf800; 0x07e0]; []; [0x001f; 0xffff; 0; 0x1234]]))
     = width (fst streaming) * height (fst streaming)
  /\ let s' := receive (fst streaming, snd streaming)
                 (map be_bytes [[0xf800; 0x07e0]; []; [0x001f; 0xffff; 0; 0x1234]]) in
     cells (snd s')
     = map expand565 (concat [[0xf800; 0x07e0]; []; [0x001f; 0xffff; 0; 0x1234]])
     /\ cells (snd s')
        = map rgb565_to_rgba (concat [[0xf800; 0x07e0]; []; [0x001f; 0xffff; 0; 0x1234]])
     /\ forall i : nat,
         Z.of_nat i < width (fst streaming) * height (fst streaming) ->
         cells (snd s') !! i
         = Some (expand565
                   (nth i (concat [[0xf800; 0x07e0]; []; [0x001f; 0xffff; 0; 0x1234]]) 0)).
Proof.
  split; [by_eval|]. split; [by_eval|]. split; [by_eval|].
  split; [by_eval|]. split; [by_eval|]. split; [by_eval|].
  split; [by_eval|]. split; [by_eval|]. split; [by_eval|].
  split; [by_eval|]. split; [by_eval|].
  apply full_frame_round_trip; by_eval.
Defined.

(** * Batches of the pixel writer *)

(** The pixel loop only looks at the samples it is run for. *)
Lemma fold_samples_ext (g h : nat -> Z) (a b n : nat) (s : sim) :
  (forall i, (i < n)%nat -> g (a + i)%nat = h (b + i)%nat) ->
  fold_left (fun s i => write_pixel s (g i)) (seq a n) s
  = fold_left (fun s i => write_pixel s (h i)) (seq b n) s.
Proof.
  induction n as [|n IH]; intros Hext; [reflexivity|].
  rewrite !seq_S, !fold_left_app. cbn [fold_left].
  rewrite IH by (intros i Hi; apply Hext; lia).
  rewrite (Hext n) by lia. reflexivity.
Qed.

Lemma sample_at_app_l (b1 b2 : list byte) (i : nat) :
  (2 * i + 1 < length b1)%nat -> sample_at (b1 ++ b2) i = sample_at b1 i.
Proof.
  intros Hi. unfold sample_at. rewrite !app_nth1 by lia. reflexivity.
Qed.

Lemma sample_at_app_r (b1 b2 : list byte) (n i : nat) :
  length b1 = (2 * n)%nat -> sample_at (b1 ++ b2) (n + i) = sample_at b2 i.
Proof.
  intros Hlen. unfold sample_at. rewrite !app_nth2 by lia.
  replace (2 * (n + i) - length b1)%nat with (2 * i)%nat by lia.
  replace (2 * (n + i) + 1 - length b1)%nat with (2 * i + 1)%nat by lia.
  reflexivity.
Qed.

(** X1: an odd trailing byte of a batch is discarded: a batch of whole
    samples followed by one more byte is processed exactly like the
    batch without it.  In particular a batch of one byte does
    nothing. *)
Theorem process_data_drops_trailing_byte (s : sim) (buf : list byte) (b : byte) :
  (length buf mod 2 = 0)%nat ->
  process_data s (buf ++ [b]) = process_data s buf.
Proof.
  intros Heven. rewrite !process_data_loop, length_app. cbn [length].
  apply Nat.Div0.div_exact in Heven.
  assert (Hn : ((length buf + 1) / 2 = length buf / 2)%nat).
  { rewrite Heven at 1. rewrite Nat.mul_comm, Nat.div_add_l by lia.
    cbn. lia. }
  rewrite Hn. unfold pixel_loop. apply fold_samples_ext.
  intros i Hi. cbn [Nat.add]. apply sample_at_app_l. lia.
Qed.

(** X2: whole-sample batches compose: processing a batch of whole
    samples and then a second batch is processing their
    concatenation. *)
Theorem process_data_app (s : sim) (b1 b2 : list byte) :
  (length b1 mod 2 = 0)%nat ->
  process_data (process_data s b1) b2 = process_data s (b1 ++ b2).
Proof.
  intros Heven. rewrite !process_data_loop, length_app.
  apply Nat.Div0.div_exact in Heven.
  assert (Hn : ((length b1 + length b2) / 2 = length b1 / 2 + length b2 / 2)%nat).
  { rewrite Heven at 1. rewrite Nat.mul_comm, Nat.div_add_l by lia. reflexivity. }
  rewrite Hn. unfold pixel_loop. rewrite seq_app, fold_left_app. cbn [Nat.add].
  rewrite (fold_samples_ext (sample_at (b1 ++ b2)) (sample_at b1) 0 0 (length b1 / 2) s).
  - apply fold_samples_ext. intros i Hi. symmetry. apply sample_at_app_r. exact Heven.
  - intros i Hi. cbn [Nat.add]. apply sample_at_app_l. lia.
Qed.

(** * The cursor inside its window *)

Lemma rank_range (chip : chip_state_t) :
  in_window chip -> 0 <= rank chip < window_area chip.
Proof.
  intros [Hc Hp]. unfold rank, window_area. destruct (swap_axes chip); nia.
Qed.

Lemma rank_advance (chip : chip_state_t) :
  chip_ok chip -> in_window chip ->
  rank (advance chip) = (rank chip + 1) mod window_area chip.
Proof.
  intros Hok Hin. pose proof (rank_range chip Hin) as Hr.
  pose proof (advance_next_cursor chip Hok Hin) as Hnext.
  destruct Hin as [Hc Hp].
  assert (Hrank : rank (advance chip)
                  = if swap_axes chip then
                      (fst (next_cursor chip) - column_start chip)
                      * (page_end chip - page_start chip + 1)
                      + (snd (next_cursor chip) - page_start chip)
                    else
                      (snd (next_cursor chip) - page_start chip)
                      * (column_end chip - column_start chip + 1)
                      + (fst (next_cursor chip) - column_start chip)).
  { rewrite <- Hnext. unfold rank. rewrite advance_frame. reflexivity. }
  rewrite Hrank. clear Hrank Hnext. unfold next_cursor, rank, window_area in *.
  destruct (swap_axes chip).
  - destruct (Z.ltb_spec (active_page chip) (page_end chip)); cbn [fst snd].
    + rewrite Z.mod_small; nia.
    + destruct (Z.ltb_spec (active_column chip) (column_end chip)); cbn [fst snd].
      * rewrite Z.mod_small; nia.
      * replace (active_page chip) with (page_end chip) in * by lia.
        replace (active_column chip) with (column_end chip) in * by lia.
        match goal with
        | |- _ = ?a mod ?b => replace a with (1 * b) by ring
        end.
        rewrite Z.mod_mul by nia. ring.
  - destruct (Z.ltb_spec (active_column chip) (column_end chip)); cbn [fst snd].
    + rewrite Z.mod_small; nia.
    + destruct (Z.ltb_spec (active_page chip) (page_end chip)); cbn [fst snd].
      * rewrite Z.mod_small; nia.
      * replace (active_page chip) with (page_end chip) in * by lia.
        replace (active_column chip) with (column_end chip) in * by lia.
        match goal with
        | |- _ = ?a mod ?b => replace a with (1 * b) by ring
        end.
        rewrite Z.mod_mul by nia. ring.
Qed.

Lemma window_area_iter (n : nat) (chip : chip_state_t) :
  window_area (Nat.iter n advance chip) = window_area chip.
Proof. unfold window_area. rewrite iter_advance_frame. reflexivity. Qed.

Lemma rank_iter (n : nat) (chip : chip_state_t) :
  chip_ok chip -> in_window chip ->
  rank (Nat.iter n advance chip) = (rank chip + Z.of_nat n) mod window_area chip.
Proof.
  intros Hok Hin. pose proof (rank_range chip Hin) as Hr.
  induction n as [|n IH].
  - cbn [Nat.iter nat_rect]. rewrite Z.add_0_r, Z.mod_small; lia.
  - change (Nat.iter (S n) advance chip) with (advance (Nat.iter n advance chip)).
    destruct (iter_advance_keeps_window n chip Hok Hin) as [Hok' Hin'].
    rewrite rank_advance, window_area_iter, IH by assumption.
    rewrite Z.add_mod_idemp_l by lia. f_equal. lia.
Qed.

(** The rank determines the cursor. *)
Lemma rank_inj (a b : chip_state_t) :
  in_window a -> in_window b ->
  swap_axes a = swap_axes b -> window a = window b ->
  rank a = rank b ->
  active_column a = active_column b /\ active_page a = active_page b.
Proof.
  intros [Hca Hpa] [Hcb Hpb] Hswap Hwin Hrank. unfold window in Hwin.
  injection Hwin as Hcs Hce Hps Hpe. unfold rank in Hrank.
  rewrite <- Hswap, <- Hcs, <- Hce, <- Hps, <- Hpe in *.
  destruct (swap_axes a).
  - assert (active_column a = active_column b) by nia. split; [assumption|nia].
  - assert (active_page a = active_page b) by nia. split; [nia|assumption].
Qed.

(** X3: the cursor is periodic: starting inside the window, one sample
    per cell of the window brings the chip back to the state it was
    in, whatever the orientation, so that the samples of a second
    frame address the cells of the first in the same order. *)
Theorem cursor_period (chip : chip_state_t) (host : host_t) (buf : list byte) :
  chip_ok chip -> in_window chip ->
  Z.of_nat (length buf / 2) = window_area chip ->
  fst (process_data (chip, host) buf) = chip.
Proof.
  intros Hok Hin Hlen. rewrite process_data_loop, pixel_loop_fst. cbn [fst].
  set (n := (length buf / 2)%nat) in *.
  destruct (iter_advance_keeps_window n chip Hok Hin) as [Hok' Hin'].
  pose proof (rank_range chip Hin) as Hr.
  pose proof (rank_iter n chip Hok Hin) as Hrank.
  rewrite Hlen in Hrank.
  replace (rank chip + window_area chip) with (rank chip + 1 * window_area chip)
    in Hrank by ring.
  rewrite Z.mod_add, Z.mod_small in Hrank by lia.
  destruct (rank_inj (Nat.iter n advance chip) chip Hin' Hin) as [Hc Hp].
  - unfold swap_axes. rewrite iter_advance_frame. reflexivity.
  - unfold window. rewrite iter_advance_frame. reflexivity.
  - exact Hrank.
  - rewrite iter_advance_frame, Hc, Hp. symmetry. apply cursor_eta.
Qed.

(** * Where the pixel writer writes *)

Lemma window_write_frame (a b : chip_state_t) (e : host_call) :
  (exists c p, b = set_active_page p (set_active_column c a)) ->
  window_write b e -> window_write a e.
Proof.
  intros (c0 & p0 & ->) (c & p & color & Hc & Hp & Hx & Hy & He).
  exists c, p, color. exact (conj Hc (conj Hp (conj Hx (conj Hy He)))).
Qed.

(** X4: the addressing window confines a memory write: with the cursor
    inside the window, every write of a batch of any length goes to
    the image under the orientation transform of a position of the
    window (and inside the framebuffer). *)
Theorem writes_stay_in_window (chip : chip_state_t) (host : host_t) (buf : list byte) :
  chip_ok chip -> in_window chip ->
  column_end chip < 2 ^ 31 -> page_end chip < 2 ^ 31 ->
  4 * (width chip * height chip) <= 2 ^ 32 ->
  exists ws,
    calls (snd (process_data (chip, host) buf)) = calls host ++ ws
    /\ Forall (window_write chip) ws.
Proof.
  intros Hok Hin Hce Hpe Hfit. rewrite process_data_loop.
  generalize (length buf / 2)%nat. intros n.
  induction n as [|n (ws & Hcalls & Hall)].
  - exists []. split; [symmetry; apply app_nil_r|constructor].
  - rewrite pixel_loop_S.
    pose proof (pixel_loop_fst (chip, host) buf n) as Hfst. cbn [fst] in Hfst.
    destruct (pixel_loop (chip, host) buf n) as [chip' host']. cbn [fst snd] in *.
    destruct (iter_advance_keeps_window n chip Hok Hin) as [Hok' Hin'].
    rewrite <- Hfst in Hok', Hin'.
    assert (Hframe : chip' = set_active_page (active_page chip')
                               (set_active_column (active_column chip') chip)).
    { rewrite Hfst at 1. rewrite iter_advance_frame, <- Hfst. reflexivity. }
    assert (Hsame : width chip' = width chip /\ height chip' = height chip
                    /\ column_end chip' = column_end chip
                    /\ page_end chip' = page_end chip).
    { rewrite Hframe. repeat split; reflexivity. }
    destruct Hsame as (Ew & Eh & Ece & Epe).
    pose proof (ok_width chip' Hok') as HW. pose proof (ok_height chip' Hok') as HH.
    pose proof (ok_column_start chip' Hok') as Hcs.
    pose proof (ok_page_start chip' Hok') as Hps. unfold reg_ok in Hcs, Hps.
    destruct Hin' as [Hc Hp].
    destruct (write_pixel_host chip' host' (sample_at buf n) HW HH)
      as [[_ Hskip]|(_ & Hx & Hy & Hwrite)]; [rewrite Ew, Eh; exact Hfit| |].
    + rewrite Hskip. exists ws. split; assumption.
    + rewrite Hwrite. cbn [buffer_write calls]. rewrite Hcalls, <- app_assoc.
      eexists. split; [reflexivity|].
      apply Forall_app. split; [exact Hall|]. constructor; [|constructor].
      apply (window_write_frame chip chip');
        [exists (active_column chip'), (active_page chip'); exact Hframe|].
      assert (Ht : (target_x chip', target_y chip') = oriented chip').
      { apply target_oriented; try lia. all: nia. }
      assert (Htx : target_x chip' = fst (oriented chip'))
        by (rewrite <- Ht; reflexivity).
      assert (Hty : target_y chip' = snd (oriented chip'))
        by (rewrite <- Ht; reflexivity).
      exists (active_column chip'), (active_page chip'),
             (rgb565_to_rgba (sample_at buf n)).
      rewrite <- cursor_eta, <- Htx, <- Hty.
      repeat split; (assumption || lia).
Qed.

(** * Colours *)

Lemma pack565_table :
  all_from (Z.to_nat 65536) 0 (fun v => pack565 (rgb565_to_rgba v) =? v) = true.
Proof. vm_compute. reflexivity. Qed.

(** X5: the colour conversion loses nothing: the sample is read back
    from the top bits of the channels of the colour it is converted
    to, so distinct samples give distinct colours; and every colour is
    opaque (alpha 0xFF) and fits 32 bits. *)
Theorem rgb565_to_rgba_lossless (v w : Z) :
  is_sample v -> is_sample w ->
  pack565 (rgb565_to_rgba v) = v
  /\ 0xff000000 <= rgb565_to_rgba v < 2 ^ 32
  /\ (rgb565_to_rgba v = rgb565_to_rgba w -> v = w).
Proof.
  assert (Hpack : forall u, is_sample u -> pack565 (rgb565_to_rgba u) = u).
  { intros u Hu. apply Z.eqb_eq.
    apply (all_from_spec (Z.to_nat 65536) 0 _ pack565_table).
    unfold is_sample in Hu. rewrite Z2Nat.id; lia. }
  intros Hv Hw. split; [apply Hpack, Hv|]. split.
  - rewrite rgb565_to_rgba_expand by exact Hv. apply expand565_opaque, Hv.
  - intros Heq. rewrite <- (Hpack v Hv), <- (Hpack w Hw), Heq. reflexivity.
Qed.

(** * The first sample of a memory write *)

Lemma send_ramwr (chip : chip_state_t) (host : host_t) (data : list byte) :
  exists h1,
    cells h1 = cells host
    /\ fst (send_command (chip, host) x2c data)
       = fst (process_data (arming chip, h1) data)
    /\ cells (snd (send_command (chip, host) x2c data))
       = cells (snd (process_data (arming chip, h1) data)).
Proof.
  unfold send_command.
  pose proof (dc_change_fst chip host LOW) as E1.
  pose proof (dc_change_cells chip host LOW) as C1.
  destruct (chip_pin_change (chip, host) PIN_DC LOW) as [chip1 host1].
  cbn in E1, C1. subst chip1.
  destruct (spi_done_command (set_mode MODE_COMMAND chip) host1 [x2c])
    as [E2 C2]; [reflexivity|discriminate|].
  change (process_command (set_mode MODE_COMMAND chip, host1) [x2c])
    with (set_ram_write true
            (set_command_index 0
               (set_command_size 0
                  (set_command_code CMD_RAMWR
                     (set_ram_write false (set_mode MODE_COMMAND chip))))), host1)
    in E2, C2.
  destruct (chip_spi_done (set_mode MODE_COMMAND chip, host1) [x2c]) as [chip2 host2].
  cbn [fst snd] in E2, C2. subst chip2.
  match goal with
  | |- context [chip_pin_change (?c, host2) PIN_DC HIGH] =>
      pose proof (dc_change_fst c host2 HIGH) as E3;
      pose proof (dc_change_cells c host2 HIGH) as C3;
      destruct (chip_pin_change (c, host2) PIN_DC HIGH) as [chip3 host3]
  end.
  cbn [fst snd] in E3, C3. change (HIGH =? 0) with false in E3. cbv iota in E3.
  fold (arming chip) in E3. subst chip3.
  destruct (chip_spi_done_armed (arming chip) host3 data) as [E4 C4];
    [split; reflexivity|].
  exists host3. split; [congruence|]. split; assumption.
Qed.

Lemma advance_arming (chip : chip_state_t) :
  active_column (advance (arming chip)) = active_column (advance chip)
  /\ active_page (advance (arming chip)) = active_page (advance chip).
Proof.
  unfold advance, arming.
  cbn [scanning_direction active_column active_page column_start column_end
       page_start page_end set_mode set_ram_write set_command_index
       set_command_size set_command_code set_active_column set_active_page].
  repeat match goal with
         | |- context [if ?b then _ else _] => destruct b
         end; split; reflexivity.
Qed.

Lemma sample_at_pair (hi lo : byte) : sample_at [hi; lo] 0 = be16 hi lo.
Proof.
  unfold sample_at. cbn [Nat.mul Nat.add nth].
  pose proof (byte_val_range hi). rewrite (u16_small (byte_val hi)) by lia.
  apply be16_code.
Qed.

(** One sample whose target is inside the framebuffer. *)
Lemma write_pixel_inside (c : chip_state_t) (h : host_t) (v : Z) :
  chip_ok c -> 4 * (width c * height c) <= 2 ^ 32 ->
  active_column c < 2 ^ 31 -> active_page c < 2 ^ 31 ->
  0 <= fst (oriented c) < width c -> 0 <= snd (oriented c) < height c ->
  is_sample v ->
  write_pixel (c, h) v
  = (advance c,
     buffer_write (framebuffer c)
       (4 * (snd (oriented c) * width c + fst (oriented c))) (expand565 v) h).
Proof.
  intros Hok Hfit Hc Hp Hx Hy Hv.
  pose proof (ok_width c Hok) as HW. pose proof (ok_height c Hok) as HH.
  pose proof (ok_active_column c Hok) as Hac.
  pose proof (ok_active_page c Hok) as Hap. unfold reg_ok in Hac, Hap.
  assert (Hpos : 0 < width c /\ 0 < height c) by lia.
  assert (Hsmall : width c < 2 ^ 31 /\ height c < 2 ^ 31) by nia.
  assert (Ht : (target_x c, target_y c) = oriented c)
    by (apply target_oriented; lia).
  pose proof (f_equal fst Ht) as Htx. pose proof (f_equal snd Ht) as Hty.
  cbn [fst snd] in Htx, Hty.
  pose proof (write_pixel_fst (c, h) v) as Hfst. cbn [fst] in Hfst.
  destruct (write_pixel_host c h v HW HH Hfit) as [[Hoob _]|(_ & _ & _ & Hwrite)].
  - exfalso. rewrite Htx, Hty in Hoob. unfold out_of_bounds in Hoob.
    rewrite !int32_small in Hoob by lia.
    destruct (Z.ltb_spec (fst (oriented c)) 0); [lia|].
    destruct (Z.leb_spec (width c) (fst (oriented c))); [lia|].
    destruct (Z.ltb_spec (snd (oriented c)) 0); [lia|].
    destruct (Z.leb_spec (height c) (snd (oriented c))); [lia|].
    discriminate.
  - rewrite Htx, Hty, rgb565_to_rgba_expand in Hwrite by exact Hv.
    destruct (write_pixel (c, h) v) as [c' h']. cbn [fst snd] in *.
    rewrite Hfst, Hwrite. reflexivity.
Qed.

Lemma arming_ok (chip : chip_state_t) : chip_ok chip -> chip_ok (arming chip).
Proof. intros H. destruct H. constructor; assumption. Qed.

(** X6: RAMWR followed by one sample [hi lo] writes the expansion of
    the sample to the cell of the cursor put through the orientation
    transform (when that cell is inside the framebuffer), changes no
    other cell, advances the cursor by one position and leaves the
    window unchanged and the memory write armed. *)
Theorem first_sample_after_ramwr
        (chip : chip_state_t) (host : host_t) (hi lo : byte) :
  chip_ok chip -> store_ok chip host ->
  active_column chip < 2 ^ 31 -> active_page chip < 2 ^ 31 ->
  0 <= fst (oriented chip) < width chip ->
  0 <= snd (oriented chip) < height chip ->
  let s' := send_command (chip, host) x2c [hi; lo] in
  cells (snd s')
  = <[Z.to_nat (snd (oriented chip) * width chip + fst (oriented chip))
      := expand565 (be16 hi lo)]> (cells host)
  /\ active_column (fst s') = active_column (advance chip)
  /\ active_page (fst s') = active_page (advance chip)
  /\ window (fst s') = window chip
  /\ armed (fst s').
Proof.
  intros Hok [Hlen Hfit] Hc Hp Hx Hy. cbn zeta.
  destruct (send_ramwr chip host [hi; lo]) as (h1 & Hcells & Hfst & Hsnd).
  rewrite Hfst, Hsnd. clear Hfst Hsnd.
  assert (Hrun : process_data (arming chip, h1) [hi; lo]
                 = write_pixel (arming chip, h1) (be16 hi lo)).
  { rewrite process_data_loop, <- sample_at_pair. reflexivity. }
  rewrite Hrun, (write_pixel_inside (arming chip) h1 (be16 hi lo));
    [|apply arming_ok, Hok|exact Hfit|exact Hc|exact Hp|exact Hx|exact Hy
     |apply be16_range].
  cbn [fst snd buffer_write cells]. rewrite Hcells.
  replace (4 * (snd (oriented (arming chip)) * width (arming chip)
                + fst (oriented (arming chip))) / 4)
    with (snd (oriented chip) * width chip + fst (oriented chip))
    by (rewrite (Z.mul_comm 4), Z.div_mul by lia; reflexivity).
  split; [reflexivity|].
  split; [exact (proj1 (advance_arming chip))|].
  split; [exact (proj2 (advance_arming chip))|].
  rewrite (advance_frame (arming chip)).
  split; [reflexivity|split; reflexivity].
Qed.

(** * Commands without arguments *)

Lemma send_command_zero (chip : chip_state_t) (host : host_t) (op : byte) :
  command_args_size (byte_val op) = 0 ->
  exists h1,
    cells h1 = cells host
    /\ fst (send_command (chip, host) op [])
       = set_mode MODE_DATA (fst (execute_command (decoded chip op, h1)))
    /\ cells (snd (send_command (chip, host) op []))
       = cells (snd (execute_command (decoded chip op, h1))).
Proof.
  intros Harity. unfold send_command.
  pose proof (dc_change_fst chip host LOW) as E1.
  pose proof (dc_change_cells chip host LOW) as C1.
  destruct (chip_pin_change (chip, host) PIN_DC LOW) as [chip1 host1].
  cbn in E1, C1. subst chip1.
  destruct (spi_done_command (set_mode MODE_COMMAND chip) host1 [op])
    as [E2 C2]; [reflexivity|discriminate|].
  assert (Hrun : process_command (set_mode MODE_COMMAND chip, host1) [op]
                 = execute_command (decoded chip op, host1)).
  { unfold process_command, process_command_byte. cbn [fold_left].
    cbn [command_code set_command_code set_command_size set_command_index
         command_size].
    rewrite Harity. reflexivity. }
  rewrite Hrun in E2, C2.
  destruct (chip_spi_done (set_mode MODE_COMMAND chip, host1) [op]) as [chip2 host2].
  cbn [fst snd] in E2, C2.
  pose proof (dc_change_fst chip2 host2 HIGH) as E3.
  pose proof (dc_change_cells chip2 host2 HIGH) as C3.
  destruct (chip_pin_change (chip2, host2) PIN_DC HIGH) as [chip3 host3].
  cbn [fst snd] in E3, C3. change (HIGH =? 0) with false in E3. cbv iota in E3.
  exists host1. split; [exact C1|].
  change (chip_spi_done (chip3, host3) []) with (chip3, host3). cbn [fst snd].
  split; congruence.
Qed.

Lemma registers_reset (c : chip_state_t) :
  registers (chip_reset c) = reset_view (mode c) (width c) (height c).
Proof.
  unfold registers, reset_view, chip_reset. cbn.
  destruct ((0 <? width c) && (0 <? height c)); reflexivity.
Qed.

Lemma registers_mode_reset (m : chip_mode_t) (c : chip_state_t) :
  registers (set_mode m (chip_reset c)) = reset_view m (width c) (height c).
Proof.
  unfold registers, reset_view, chip_reset. cbn.
  destruct ((0 <? width c) && (0 <? height c)); reflexivity.
Qed.

Lemma registers_set_command_index (i : Z) (c : chip_state_t) :
  registers (set_command_index i c) = registers c.
Proof. reflexivity. Qed.

Lemma registers_mode_init (m : chip_mode_t) (fb w h : Z) :
  registers (set_mode m (chip_init fb w h)) = reset_view m w h.
Proof. unfold chip_init. apply registers_mode_reset. Qed.

(** X7: a software reset (opcode 0x01), and likewise the power-control
    command 0xC0 once its three argument bytes are in, whatever they
    are, brings the cursor, the window, scanning_direction and
    ram_write to their power-on values and leaves every
    framebuffer cell as it is. *)
Theorem software_reset
        (chip : chip_state_t) (host : host_t) (a0 a1 a2 : byte) :
  let init := set_mode MODE_DATA
                (chip_init (framebuffer chip) (width chip) (height chip)) in
  registers (fst (send_command (chip, host) x01 [])) = registers init
  /\ cells (snd (send_command (chip, host) x01 [])) = cells host
  /\ registers (fst (send_command (chip, host) xc0 [a0; a1; a2])) = registers init
  /\ cells (snd (send_command (chip, host) xc0 [a0; a1; a2])) = cells host.
Proof.
  cbn zeta.
  destruct (send_command_zero chip host x01 eq_refl) as (h1 & Hc1 & Hf1 & Hs1).
  destruct (send_command_awaiting chip host xc0 [a0; a1; a2] eq_refl)
    as (h2 & Hc2 & Hf2 & Hs2).
  rewrite Hf1, Hs1, Hf2, Hs2.
  change (execute_command (decoded chip x01, h1))
    with (chip_reset (decoded chip x01), h1).
  change (process_command_args (awaiting chip xc0, h2) [a0; a1; a2])
    with (set_command_index 0
            (chip_reset
               (set_command_index 3
                  (set_command_buf
                     (<[2%nat := a2]> (<[1%nat := a1]> (<[0%nat := a0]>
                        (command_buf chip))))
                     (awaiting chip xc0)))), h2).
  cbn [fst snd]. rewrite registers_mode_init.
  split; [|split; [exact Hc1|split; [|exact Hc2]]].
  - rewrite (registers_mode_reset MODE_DATA (decoded chip x01)). reflexivity.
  - rewrite registers_set_command_index, registers_reset. reflexivity.
Qed.

(** * Orientation control *)

Lemma land_byte (b : byte) : Z.land (byte_val b) 0xff = byte_val b.
Proof.
  pose proof (byte_val_range b). change 0xff with (Z.ones 8).
  rewrite Z.land_ones by lia. apply Z.mod_small. lia.
Qed.

Lemma madctl_arg (c : chip_state_t) (h : host_t) (b : byte) :
  madctl_pending c ->
  exists c',
    process_command_arg (c, h) b = (c', h)
    /\ madctl_pending c'
    /\ scanning_direction c' = byte_val b
    /\ window c' = window c
    /\ active_column c' = active_column c /\ active_page c' = active_page c
    /\ ram_write c' = ram_write c /\ mode c' = mode c.
Proof.
  intros (Hcode & Hsize & Hidx & Hbuf).
  destruct c as [fb w hh m code size idx buf rw ac ap cs ce ps pe sd].
  cbn in Hcode, Hsize, Hidx, Hbuf. subst code size idx.
  destruct buf as [|b0 buf]; [cbn in Hbuf; lia|].
  eexists. split.
  - unfold process_command_arg. cbn. unfold buf_at. cbn. rewrite land_byte.
    reflexivity.
  - repeat split; try reflexivity.
    cbn [command_buf set_command_index set_scanning_direction set_command_buf].
    rewrite length_insert. cbn [length]. lia.
Qed.

Lemma madctl_args (args : list byte) :
  forall (c : chip_state_t) (h : host_t),
    madctl_pending c -> args <> [] ->
    exists c',
      process_command_args (c, h) args = (c', h)
      /\ scanning_direction c' = byte_val (List.last args x00)
      /\ window c' = window c
      /\ active_column c' = active_column c /\ active_page c' = active_page c
      /\ ram_write c' = ram_write c /\ mode c' = mode c.
Proof.
  induction args as [|b rest IH]; intros c h Hpend Hne; [congruence|].
  destruct (madctl_arg c h b Hpend)
    as (c1 & Hstep & Hpend1 & Hsd & Hwin & Hac & Hap & Hrw & Hm).
  unfold process_command_args. cbn [fold_left]. rewrite Hstep.
  fold (process_command_args (c1, h) rest).
  destruct rest as [|b' rest'].
  - exists c1. cbn. repeat split; assumption.
  - destruct (IH c1 h Hpend1) as (c2 & Hrun & Hsd2 & Hwin2 & Hac2 & Hap2 & Hrw2 & Hm2);
      [discriminate|].
    exists c2. split; [exact Hrun|]. split; [exact Hsd2|].
    repeat split; congruence.
Qed.

(** X8: the orientation command stores its argument byte verbatim in
    scanning_direction and touches neither the window, the cursor nor
    the framebuffer.  Argument bytes beyond the first run the command
    again, so that the last byte is the one that stays. *)
Theorem madctl_last_byte_wins
        (chip : chip_state_t) (host : host_t) (args : list byte) :
  chip_ok chip -> args <> [] ->
  let s' := send_command (chip, host) x36 args in
  scanning_direction (fst s') = byte_val (List.last args x00)
  /\ window (fst s') = window chip
  /\ active_column (fst s') = active_column chip
  /\ active_page (fst s') = active_page chip
  /\ cells (snd s') = cells host.
Proof.
  intros Hok Hne. cbn zeta.
  destruct (send_command_awaiting chip host x36 args eq_refl)
    as (h1 & Hcells & Hfst & Hsnd).
  destruct (madctl_args args (awaiting chip x36) h1)
    as (c' & Hrun & Hsd & Hwin & Hac & Hap & _); [|exact Hne|].
  { repeat split. cbn. rewrite (ok_command_buf chip Hok). lia. }
  rewrite Hfst, Hsnd, Hrun. cbn [fst snd].
  split; [exact Hsd|]. split; [exact Hwin|]. split; [exact Hac|].
  split; [exact Hap|exact Hcells].
Qed.

(** * Chip select *)

Lemma args_ignored (buf : list byte) :
  forall (c : chip_state_t) (h : host_t),
    command_size c = 0 -> command_index c = 0 ->
    process_command_args (c, h) buf = (c, h).
Proof.
  induction buf as [|b rest IH]; intros c h Hs Hi; [reflexivity|].
  unfold process_command_args. cbn [fold_left]. unfold process_command_arg.
  rewrite Hs, Hi. change (0 <? 0) with false. cbv iota.
  apply IH; assumption.
Qed.

(** X9: a falling edge of chip select abandons the command in flight:
    it zeroes command_size, command_index and command_code and
    changes no register, no argument byte already stored and no cell.
    The bytes that follow it in data mode with no memory write armed
    are therefore ignored, whatever their number, until the next
    opcode: chip and framebuffer stay as they are. *)
Theorem chip_select_abandons_command
        (chip : chip_state_t) (host : host_t) (buf : list byte) :
  let s := chip_pin_change (chip, host) PIN_CS LOW in
  (command_size (fst s) = 0 /\ command_index (fst s) = 0
   /\ command_code (fst s) = 0
   /\ registers (fst s) = registers chip
   /\ command_buf (fst s) = command_buf chip
   /\ cells (snd s) = cells host)
  /\ (mode chip = MODE_DATA -> ram_write chip = false ->
      fst (chip_spi_done s buf) = fst s
      /\ cells (snd (chip_spi_done s buf)) = cells host).
Proof.
  cbn zeta. cbn [chip_pin_change]. change (LOW =? LOW) with true. cbv iota.
  split; [repeat split; reflexivity|].
  intros Hmode Hrw.
  match goal with
  | |- context [chip_spi_done (?c, ?h) buf] =>
      destruct (spi_done_args c h buf) as [Hfst Hcells];
      [exact Hmode|exact Hrw|];
      rewrite Hfst, Hcells, (args_ignored buf c h) by reflexivity
  end.
  split; reflexivity.
Qed.

(** * Commands without effect *)

Lemma execute_ineffective (c : chip_state_t) (h : host_t) :
  effective (command_code c) = false ->
  execute_command (c, h)
  = (c, if quiet (command_code c) then h
        else log (call_printf_unknown (command_code c)) h).
Proof.
  intros Heff. unfold execute_command.
  destruct c as [fb w hh m code size idx buf rw ac ap cs ce ps pe sd].
  cbn [command_code] in *. unfold effective, quiet in *.
  repeat match goal with
         | |- context [code =? ?y] =>
             destruct (Z.eqb_spec code y) as [->|?];
             [first [discriminate Heff | reflexivity]|]
         end.
  cbn [orb]. reflexivity.
Qed.

(** X10: a command byte without arguments other than RAMWR and the
    software reset changes no register but ram_write, which it
    clears, and writes no pixel.  The no-op, sleep, display and
    inversion opcodes are silent; any other such opcode is reported
    once as unknown.  The transport is restarted if chip select is
    low. *)
Theorem plain_command_byte (chip : chip_state_t) (host : host_t) (op : byte) :
  mode chip = MODE_COMMAND ->
  command_args_size (byte_val op) = 0 -> effective (byte_val op) = false ->
  let s' := chip_spi_done (chip, host) [op] in
  registers (fst s') = registers (set_ram_write false chip)
  /\ cells (snd s') = cells host
  /\ calls (snd s')
     = calls host
       ++ (if quiet (byte_val op) then [] else [call_printf_unknown (byte_val op)])
       ++ (if cs_level host =? LOW then [call_spi_start] else []).
Proof.
  intros Hmode Harity Heff. cbn zeta. unfold chip_spi_done.
  change (Z.of_nat (length [op]) =? 0) with false. cbv iota. cbn [fst].
  rewrite Hmode. unfold process_command, process_command_byte. cbn [fold_left].
  cbn [command_code set_command_code set_command_size set_command_index command_size].
  rewrite Harity. change (u8 0 =? 0) with true. cbv iota.
  rewrite execute_ineffective by exact Heff.
  cbn [fst snd command_code set_command_code set_command_size set_command_index].
  unfold pin_read_cs.
  destruct (quiet (byte_val op)); cbn [log cs_level];
    destruct (cs_level host =? LOW); cbn [fst snd spi_start log cells calls];
    rewrite ?app_nil_r, <- ?app_assoc; repeat split; reflexivity.
Qed.

Lemma transport_only_refl (h : host_t) : transport_only h h.
Proof. split; [reflexivity|]. exists []. split; [symmetry; apply app_nil_r|constructor]. Qed.

Lemma transport_only_start (h : host_t) : transport_only h (spi_start h).
Proof.
  split; [reflexivity|]. exists [call_spi_start].
  split; [reflexivity|]. constructor; [left; reflexivity|constructor].
Qed.

Lemma transport_only_stop (h : host_t) : transport_only h (spi_stop h).
Proof.
  split; [reflexivity|]. exists [call_spi_stop].
  split; [reflexivity|]. constructor; [right; reflexivity|constructor].
Qed.

Lemma transport_only_trans (a b c : host_t) :
  transport_only a b -> transport_only b c -> transport_only a c.
Proof.
  intros [C1 (w1 & E1 & F1)] [C2 (w2 & E2 & F2)]. split; [congruence|].
  exists (w1 ++ w2). split; [rewrite E2, E1, app_assoc; reflexivity|].
  apply Forall_app. split; assumption.
Qed.

Lemma dc_change_transport (chip : chip_state_t) (host : host_t) (v : Z) :
  transport_only host (snd (chip_pin_change (chip, host) PIN_DC v)).
Proof.
  cbn [chip_pin_change]. destruct (mode_eqb _ _); [apply transport_only_refl|].
  destruct (pin_read_cs (spi_stop host) =? LOW); cbn [snd].
  - apply transport_only_trans with (spi_stop host);
      [apply transport_only_stop|apply transport_only_start].
  - apply transport_only_stop.
Qed.

Lemma spi_done_command_host (chip : chip_state_t) (host : host_t) (buf : list byte) :
  mode chip = MODE_COMMAND -> buf <> [] ->
  transport_only (snd (process_command (chip, host) buf))
                 (snd (chip_spi_done (chip, host) buf)).
Proof.
  intros Hmode Hbuf. unfold chip_spi_done.
  destruct (Z.eqb_spec (Z.of_nat (length buf)) 0) as [Hlen|Hlen].
  - destruct buf; [congruence|discriminate].
  - cbn [fst]. rewrite Hmode.
    destruct (pin_read_cs (snd (process_command (chip, host) buf)) =? LOW);
      cbn [snd]; [apply transport_only_start|apply transport_only_refl].
Qed.

Lemma spi_done_args_host (chip : chip_state_t) (host : host_t) (buf : list byte) :
  mode chip = MODE_DATA -> ram_write chip = false ->
  transport_only (snd (process_command_args (chip, host) buf))
                 (snd (chip_spi_done (chip, host) buf)).
Proof.
  intros Hmode Harm. unfold chip_spi_done.
  destruct (Z.eqb_spec (Z.of_nat (length buf)) 0) as [Hlen|Hlen].
  - destruct buf; [|discriminate]. apply transport_only_refl.
  - cbn [fst]. rewrite Hmode, Harm.
    destruct (pin_read_cs (snd (process_command_args (chip, host) buf)) =? LOW);
      cbn [snd]; [apply transport_only_start|apply transport_only_refl].
Qed.

(** The host side of a command with arguments: transport requests,
    then what the argument collector does, then transport requests. *)
Lemma send_command_awaiting_host (chip : chip_state_t) (host : host_t)
      (op : byte) (args : list byte) :
  0 < command_args_size (byte_val op) ->
  exists h1,
    transport_only host h1
    /\ fst (send_command (chip, host) op args)
       = fst (process_command_args (awaiting chip op, h1) args)
    /\ transport_only (snd (process_command_args (awaiting chip op, h1) args))
                      (snd (send_command (chip, host) op args)).
Proof.
  intros Harity. unfold send_command.
  pose proof (dc_change_fst chip host LOW) as E1.
  pose proof (dc_change_transport chip host LOW) as T1.
  destruct (chip_pin_change (chip, host) PIN_DC LOW) as [chip1 host1].
  cbn in E1. cbn [snd] in T1. subst chip1.
  destruct (spi_done_command (set_mode MODE_COMMAND chip) host1 [op])
    as [E2 _]; [reflexivity|discriminate|].
  pose proof (spi_done_command_host (set_mode MODE_COMMAND chip) host1 [op]
                eq_refl ltac:(discriminate)) as T2.
  rewrite process_command_pending in E2, T2 by exact Harity.
  destruct (chip_spi_done (set_mode MODE_COMMAND chip, host1) [op]) as [chip2 host2].
  cbn [fst snd] in E2, T2. subst chip2.
  match goal with
  | |- context [chip_pin_change (?c, host2) PIN_DC HIGH] =>
      pose proof (dc_change_fst c host2 HIGH) as E3;
      pose proof (dc_change_transport c host2 HIGH) as T3;
      destruct (chip_pin_change (c, host2) PIN_DC HIGH) as [chip3 host3]
  end.
  cbn [fst snd] in E3, T3. change (HIGH =? 0) with false in E3. cbv iota in E3.
  fold (awaiting chip op) in E3. subst chip3.
  destruct (spi_done_args (awaiting chip op) host3 args) as [E4 _];
    [reflexivity|reflexivity|].
  pose proof (spi_done_args_host (awaiting chip op) host3 args eq_refl eq_refl) as T4.
  exists host3. split; [|split; assumption].
  apply transport_only_trans with host1; [exact T1|].
  apply transport_only_trans with host2; assumption.
Qed.

(** X11: a command with arguments other than MADCTL, CASET, RASET and
    power-control 1 changes no register when its last argument byte
    arrives (ram_write was cleared by the opcode byte) and writes
    no pixel.  Colour mode and VCOM control are silent; the frame-rate,
    inversion-control, display-setting, power-control 2-5 and gamma
    commands are each reported once as unknown when they complete. *)
Theorem argument_command_without_effect
        (chip : chip_state_t) (host : host_t) (op : byte) (args : list byte) :
  0 < command_args_size (byte_val op) ->
  Z.of_nat (length args) = command_args_size (byte_val op) ->
  effective (byte_val op) = false ->
  let s' := send_command (chip, host) op args in
  registers (fst s') = registers (set_mode MODE_DATA (set_ram_write false chip))
  /\ command_index (fst s') = 0
  /\ cells (snd s') = cells host
  /\ exists pre post,
      Forall transport_call pre /\ Forall transport_call post
      /\ calls (snd s')
         = calls host ++ pre
           ++ (if quiet (byte_val op) then [] else [call_printf_unknown (byte_val op)])
           ++ post.
Proof.
  intros Harity Hlen Heff. cbn zeta.
  destruct (send_command_awaiting_host chip host op args Harity)
    as (h1 & [Hcells1 (pre & Hpre & Fpre)] & Hfst & Hpost).
  rewrite Hfst. clear Hfst.
  pose proof (command_args_size_range (byte_val op)) as Hr.
  destruct args as [|a args'] using rev_ind; [cbn in Hlen; lia|]. clear IHargs'.
  rewrite length_app in Hlen. cbn [length] in Hlen.
  destruct (process_command_args_short args' (awaiting chip op) h1)
    as [buf' Hfront]; cbn [awaiting command_index command_size set_mode
                           set_command_index set_command_size]; try lia.
  assert (Hrun : process_command_args (awaiting chip op, h1) (args' ++ [a])
                 = (set_command_index 0
                      (set_command_index (0 + Z.of_nat (length args') + 1)
                         (set_command_buf
                            (<[Z.to_nat (0 + Z.of_nat (length args')) := a]> buf')
                            (awaiting chip op))),
                    if quiet (byte_val op) then h1
                    else log (call_printf_unknown (byte_val op)) h1)).
  { unfold process_command_args in *. rewrite fold_left_app, Hfront.
    cbn [fold_left]. unfold process_command_arg.
    cbn [awaiting command_index command_size command_buf set_mode set_command_buf
         set_command_index set_command_size].
    destruct (Z.ltb_spec (0 + Z.of_nat (length args'))
                         (command_args_size (byte_val op))); [|lia].
    rewrite u8_small by lia.
    destruct (Z.eqb_spec (command_args_size (byte_val op))
                         (0 + Z.of_nat (length args') + 1)); [|lia].
    rewrite execute_ineffective by exact Heff.
    cbn [fst snd awaiting command_code set_command_index set_command_buf
         set_command_size set_command_code set_mode set_ram_write].
    reflexivity. }
  rewrite Hrun in *. cbn [fst snd] in *.
  destruct Hpost as [Hcells2 (post & Hpost & Fpost)].
  split; [reflexivity|]. split; [reflexivity|]. split.
  - rewrite Hcells2. destruct (quiet (byte_val op)); [exact Hcells1|cbn; exact Hcells1].
  - exists pre, post. split; [exact Fpre|]. split; [exact Fpost|].
    rewrite Hpost. destruct (quiet (byte_val op)); cbn [log calls];
      rewrite Hpre, <- ?app_assoc; reflexivity.
Qed.

(** * Invariants of every run *)

Lemma advance_cursor_inv (c : chip_state_t) :
  chip_ok c -> cursor_inv c -> cursor_inv (advance c).
Proof.
  intros [Hw Hh Hbuf Hac Hap Hcs Hce Hps Hpe] (H1 & H2 & H3 & H4).
  unfold reg_ok in *. unfold cursor_inv, advance.
  rewrite (u32_small (active_column c + 1)), (u32_small (active_page c + 1)) by lia.
  destruct (flag (scanning_direction c) SCAN_MV); cbn.
  - destruct (Z.ltb_spec (page_end c) (active_page c + 1)); cbn; [|lia].
    rewrite (u32_small (active_column c + 1)) by lia.
    destruct (Z.ltb_spec (column_end c) (active_column c + 1)); cbn; lia.
  - destruct (Z.ltb_spec (column_end c) (active_column c + 1)); cbn; [|lia].
    rewrite (u32_small (active_page c + 1)) by lia.
    destruct (Z.ltb_spec (page_end c) (active_page c + 1)); cbn; lia.
Qed.

Lemma advance_state_inv (c : chip_state_t) : state_inv c -> state_inv (advance c).
Proof.
  intros (Hok & Hcur & Hcmd).
  split; [apply advance_ok, Hok|]. split; [apply advance_cursor_inv; assumption|].
  unfold command_inv, command_inv_with. rewrite advance_frame. exact Hcmd.
Qed.

Lemma chip_reset_state_inv (Q : Z -> Z -> Prop) (c : chip_state_t) :
  state_inv_with Q c -> state_inv_with Q (chip_reset c).
Proof.
  intros (Hok & _ & Hcmd). split; [apply chip_reset_ok, Hok|].
  pose proof (ok_width c Hok) as Hw. pose proof (ok_height c Hok) as Hh.
  unfold cursor_inv, command_inv_with, chip_reset in *. cbn.
  destruct ((0 <? width c) && (0 <? height c)) eqn:E; cbn.
  - apply andb_true_iff in E as [E1 E2]. apply Z.ltb_lt in E1, E2.
    rewrite !u32_small by lia. split; [lia|exact Hcmd].
  - split; [lia|exact Hcmd].
Qed.

Lemma execute_window_set_state_inv (Q : Z -> Z -> Prop) (c : chip_state_t) :
  state_inv_with Q c -> state_inv_with Q (execute_window_set c).
Proof.
  intros (Hok & (H1 & H2 & H3 & H4) & Hcmd).
  split; [apply execute_window_set_ok, Hok|].
  unfold cursor_inv, command_inv_with, execute_window_set in *.
  destruct (command_size c <? 4); [split; [repeat split|]; assumption|].
  destruct (if flag (scanning_direction c) SCAN_MV
            then negb (command_code c =? CMD_RASET)
            else command_code c =? CMD_RASET); cbn.
  - destruct (flag (scanning_direction c) SCAN_MY); cbn;
      (split; [repeat split; (assumption || lia)|exact Hcmd]).
  - split; [repeat split; (assumption || lia)|exact Hcmd].
Qed.

Lemma execute_command_state_inv (Q : Z -> Z -> Prop) (c : chip_state_t) (h : host_t) :
  state_inv_with Q c -> state_inv_with Q (fst (execute_command (c, h))).
Proof.
  intros Hinv. unfold execute_command.
  repeat match goal with
         | |- context [if ?b then _ else _] => destruct b
         end; cbn [fst];
    first [exact Hinv
          | apply execute_window_set_state_inv, Hinv
          | apply chip_reset_state_inv, Hinv
          | destruct Hinv as ([] & Hcur & Hcmd);
            (split; [constructor; assumption|split; assumption])].
Qed.

Lemma process_command_byte_state_inv (c : chip_state_t) (h : host_t) (b : byte) :
  state_inv c -> state_inv (fst (process_command_byte (c, h) b)).
Proof.
  intros ([] & Hcur & Hcmd). unfold process_command_byte.
  pose proof (command_args_size_range (byte_val b)) as Hr.
  match goal with
  | |- context [execute_command (?c', h)] =>
      assert (Hinv : state_inv c')
  end.
  { split; [constructor; assumption|]. split; [exact Hcur|].
    unfold command_inv_with, collecting. cbn. rewrite u8_small by lia.
    split; [reflexivity|]. split; [lia|right; reflexivity]. }
  destruct (_ =? 0); [apply execute_command_state_inv, Hinv|exact Hinv].
Qed.

Lemma process_command_arg_state_inv (c : chip_state_t) (h : host_t) (b : byte) :
  state_inv c -> state_inv (fst (process_command_arg (c, h) b)).
Proof.
  intros Hinv. unfold process_command_arg.
  destruct (Z.ltb_spec (command_index c) (command_size c)) as [Hlt|]; [|exact Hinv].
  destruct Hinv as (Hok & Hcur & (Hsize & Hidx & Hpend)).
  pose proof (command_args_size_range (command_code c)) as Hr.
  cbn zeta.
  cbn [command_size command_index set_command_index set_command_buf].
  rewrite u8_small by lia.
  set (c1 := set_command_index (command_index c + 1)
               (set_command_buf (<[Z.to_nat (command_index c) := b]> (command_buf c)) c)).
  assert (Hok1 : chip_ok c1).
  { destruct Hok; constructor; cbn; rewrite ?length_insert; assumption. }
  assert (Hcur1 : cursor_inv c1) by exact Hcur.
  assert (Hsize1 : command_size c1 = command_args_size (command_code c1))
    by exact Hsize.
  destruct (Z.eqb_spec (command_size c) (command_index c + 1)) as [Heq|Hne].
  - pose proof (execute_command_state_inv complete c1 h) as Hex.
    destruct (execute_command (c1, h)) as [c2 h2]. cbn [fst] in *.
    destruct Hex as (Hok2 & Hcur2 & (Hs2 & _)).
    { split; [exact Hok1|]. split; [exact Hcur1|]. split; [exact Hsize1|].
      subst c1. unfold complete. cbn. lia. }
    split; [destruct Hok2; constructor; assumption|]. split; [exact Hcur2|].
    split; [exact Hs2|]. cbn. split; [lia|right; reflexivity].
  - cbn [fst]. split; [exact Hok1|]. split; [exact Hcur1|]. split; [exact Hsize1|].
    subst c1. cbn. split; [lia|left; lia].
Qed.

Lemma fold_state_inv (f : sim -> byte -> sim) (buf : list byte) :
  (forall c h b, state_inv c -> state_inv (fst (f (c, h) b))) ->
  forall s, state_inv (fst s) -> state_inv (fst (fold_left f buf s)).
Proof.
  intros Hf. induction buf as [|b rest IH]; intros [c h] Hinv; [exact Hinv|].
  cbn [fold_left]. apply IH. apply Hf. exact Hinv.
Qed.

Lemma iter_advance_state_inv (n : nat) (c : chip_state_t) :
  state_inv c -> state_inv (Nat.iter n advance c).
Proof.
  intros Hinv. induction n as [|n IH]; [exact Hinv|].
  change (Nat.iter (S n) advance c) with (advance (Nat.iter n advance c)).
  apply advance_state_inv, IH.
Qed.

Lemma chip_spi_done_state_inv (s : sim) (buf : list byte) :
  state_inv (fst s) -> state_inv (fst (chip_spi_done s buf)).
Proof.
  destruct s as [c h]. cbn [fst]. intros Hinv. unfold chip_spi_done.
  destruct (Z.of_nat (length buf) =? 0); [exact Hinv|]. cbn [fst snd].
  assert (H : state_inv (fst (match mode c with
                              | MODE_COMMAND => process_command (c, h) buf
                              | MODE_DATA =>
                                  if ram_write c then process_data (c, h) buf
                                  else process_command_args (c, h) buf
                              end))).
  { destruct (mode c); [|destruct (ram_write c)].
    - unfold process_command.
      apply fold_state_inv; [apply process_command_byte_state_inv|].
      destruct Hinv as ([] & Hcur & Hcmd).
      split; [constructor; assumption|split; assumption].
    - rewrite process_data_loop, pixel_loop_fst. apply iter_advance_state_inv, Hinv.
    - apply fold_state_inv; [apply process_command_arg_state_inv|exact Hinv]. }
  destruct (pin_read_cs _ =? LOW); exact H.
Qed.

Lemma chip_pin_change_state_inv (s : sim) (pin : pin_t) (value : Z) :
  state_inv (fst s) -> state_inv (fst (chip_pin_change s pin value)).
Proof.
  destruct s as [c h]. cbn [fst]. intros Hinv. unfold chip_pin_change.
  destruct pin;
    repeat match goal with
           | |- context [if ?b then _ else _] => destruct b
           end; cbn [fst];
    first [exact Hinv
          | apply chip_reset_state_inv, Hinv
          | destruct Hinv as ([] & Hcur & Hcmd);
            (split; [constructor; assumption|]); (split; [exact Hcur|]);
            first [exact Hcmd
                  | split; [reflexivity|split; [reflexivity|right; reflexivity]]]].
Qed.

Lemma run_state_inv (events : list event) (s : sim) :
  state_inv (fst s) -> state_inv (fst (run s events)).
Proof.
  revert s. induction events as [|e rest IH]; intros s Hinv; [exact Hinv|].
  unfold run. cbn [fold_left]. fold (run (handle s e) rest). apply IH.
  destruct e; [apply chip_pin_change_state_inv|apply chip_spi_done_state_inv];
    exact Hinv.
Qed.

Lemma power_on_state_inv (fb w h fill : Z) :
  0 <= w < 2 ^ 32 -> 0 <= h < 2 ^ 32 ->
  state_inv (fst (power_on fb w h fill)).
Proof.
  intros Hw Hh. unfold power_on, chip_init. cbn [fst].
  apply chip_reset_state_inv.
  split; [constructor; unfold reg_ok; cbn; (assumption || reflexivity || lia)|].
  split; [unfold cursor_inv; cbn; lia|].
  split; [reflexivity|]. split; [reflexivity|right; reflexivity].
Qed.

(** * Every write of a run is inside the framebuffer *)

Lemma step_ok_refl (s : sim) : step_ok s s.
Proof.
  split; [repeat split|]. exists []. split; [symmetry; apply app_nil_r|constructor].
Qed.

Lemma step_ok_trans (a b c : sim) : step_ok a b -> step_ok b c -> step_ok a c.
Proof.
  intros [(F1 & W1 & H1) (w1 & E1 & S1)] [(F2 & W2 & H2) (w2 & E2 & S2)].
  split; [repeat split; congruence|].
  exists (w1 ++ w2). split; [rewrite E2, E1, app_assoc; reflexivity|].
  apply Forall_app. split; [exact S1|]. rewrite F1, W1, H1 in S2. exact S2.
Qed.

(** A step that changes the chip within its frame and logs calls other
    than writes. *)
Lemma step_ok_quiet (c c' : chip_state_t) (h h' : host_t) :
  same_frame c c' -> transport_only h h' \/ (exists code, h' = log (call_printf_unknown code) h) ->
  step_ok (c, h) (c', h').
Proof.
  intros Hf Hh. split; [exact Hf|]. cbn [fst snd].
  destruct Hh as [(_ & ws & E & F)|(code & ->)].
  - exists ws. split; [exact E|].
    eapply Forall_impl; [exact F|]. intros e [->| ->]; exact I.
  - exists [call_printf_unknown code]. split; [reflexivity|].
    constructor; [exact I|constructor].
Qed.

Lemma execute_window_set_frame (c : chip_state_t) :
  same_frame c (execute_window_set c).
Proof.
  unfold execute_window_set, same_frame.
  repeat match goal with
         | |- context [if ?b then _ else _] => destruct b
         end; repeat split; reflexivity.
Qed.

Lemma execute_command_step (c : chip_state_t) (h : host_t) :
  step_ok (c, h) (execute_command (c, h)).
Proof.
  destruct (chip_reset_frame c) as (Ef & Ew & Eh & _ & _).
  pose proof (execute_window_set_frame c) as Hws.
  unfold execute_command.
  repeat match goal with
         | |- context [if ?b then _ else _] => destruct b
         end;
    first [apply step_ok_refl
          | apply step_ok_quiet;
            [first [exact Hws | repeat split; assumption | repeat split; reflexivity]
            | first [left; apply transport_only_refl | right; eexists; reflexivity]]].
Qed.

Lemma process_command_byte_step (c : chip_state_t) (h : host_t) (b : byte) :
  step_ok (c, h) (process_command_byte (c, h) b).
Proof.
  unfold process_command_byte.
  match goal with
  | |- context [execute_command (?c', h)] =>
      assert (Hpre : step_ok (c, h) (c', h))
        by (apply step_ok_quiet;
            [repeat split; reflexivity|left; apply transport_only_refl])
  end.
  destruct (_ =? 0); [|exact Hpre].
  eapply step_ok_trans; [exact Hpre|apply execute_command_step].
Qed.

Lemma process_command_arg_step (c : chip_state_t) (h : host_t) (b : byte) :
  step_ok (c, h) (process_command_arg (c, h) b).
Proof.
  unfold process_command_arg.
  destruct (command_index c <? command_size c); [|apply step_ok_refl].
  cbn zeta.
  match goal with
  | |- context [execute_command (?c', h)] =>
      assert (Hpre : step_ok (c, h) (c', h))
        by (apply step_ok_quiet;
            [repeat split; reflexivity|left; apply transport_only_refl]);
      pose proof (execute_command_step c' h) as Hex;
      destruct (execute_command (c', h)) as [c2 h2]
  end.
  destruct (_ =? _); [|exact Hpre].
  eapply step_ok_trans; [exact Hpre|].
  eapply step_ok_trans; [exact Hex|].
  apply step_ok_quiet; [repeat split; reflexivity|left; apply transport_only_refl].
Qed.

Lemma fold_step (f : sim -> byte -> sim) (buf : list byte) :
  (forall c h b, step_ok (c, h) (f (c, h) b)) ->
  forall s, step_ok s (fold_left f buf s).
Proof.
  intros Hf. induction buf as [|b rest IH]; intros [c h]; [apply step_ok_refl|].
  cbn [fold_left]. eapply step_ok_trans; [apply Hf|apply IH].
Qed.

Lemma in_bounds_write_safe (c : chip_state_t) (e : host_call) :
  in_bounds_write c e -> safe_call (framebuffer c) (width c) (height c) e.
Proof.
  intros (x & y & color & Hx & Hy & ->). cbn. split; [reflexivity|].
  exists (y * width c + x). split; [nia|reflexivity].
Qed.

Lemma process_data_step (c : chip_state_t) (h : host_t) (buf : list byte) :
  chip_ok c -> 4 * (width c * height c) <= 2 ^ 32 ->
  step_ok (c, h) (process_data (c, h) buf).
Proof.
  intros Hok Hfit. rewrite process_data_loop. split.
  - rewrite pixel_loop_fst. cbn [fst]. rewrite iter_advance_frame.
    repeat split; reflexivity.
  - destruct (pixel_loop_calls c h buf (length buf / 2)%nat)
      as (ws & E & F); [apply Hok|apply Hok|exact Hfit|].
    exists ws. split; [exact E|].
    eapply Forall_impl; [exact F|]. intros e. apply in_bounds_write_safe.
Qed.

Lemma chip_spi_done_step (s : sim) (buf : list byte) :
  chip_ok (fst s) -> 4 * (width (fst s) * height (fst s)) <= 2 ^ 32 ->
  step_ok s (chip_spi_done s buf).
Proof.
  destruct s as [c h]. cbn [fst]. intros Hok Hfit. unfold chip_spi_done.
  destruct (Z.of_nat (length buf) =? 0); [apply step_ok_refl|]. cbn [fst].
  match goal with
  | |- context [pin_read_cs (snd ?p)] =>
      assert (H : step_ok (c, h) p); [|destruct p as [c1 h1]]
  end.
  { destruct (mode c); [|destruct (ram_write c)].
    - unfold process_command.
      eapply step_ok_trans;
        [|apply fold_step; apply process_command_byte_step].
      apply step_ok_quiet; [repeat split; reflexivity|left; apply transport_only_refl].
    - apply process_data_step; assumption.
    - apply fold_step. apply process_command_arg_step. }
  cbn [fst snd]. destruct (pin_read_cs h1 =? LOW); [|exact H].
  eapply step_ok_trans; [exact H|].
  apply step_ok_quiet; [repeat split; reflexivity|left; apply transport_only_start].
Qed.

Lemma clear_framebuffer_step (c : chip_state_t) (h : host_t) :
  chip_ok c -> store_ok c h -> step_ok (c, h) (c, clear_framebuffer c h).
Proof.
  intros Hok [Hlen Hfit]. split; [repeat split; reflexivity|]. cbn [fst snd].
  pose proof (ok_width c Hok) as Hw. pose proof (ok_height c Hok) as Hh.
  assert (Hs : u32 (width c * height c) = width c * height c)
    by (apply u32_small; nia).
  unfold clear_framebuffer.
  destruct (clear_loop (framebuffer c) (Z.to_nat (u32 (width c * height c))) h)
    as [_ Hcalls]; [rewrite Hs; nia|rewrite Hs; lia|].
  eexists. split; [exact Hcalls|].
  apply List.Forall_forall. intros e He. apply in_map_iff in He as (i & <- & Hi).
  apply in_seq in Hi. cbn. split; [reflexivity|].
  exists (Z.of_nat i). split; [|reflexivity]. rewrite Hs in Hi. nia.
Qed.

Lemma chip_pin_change_step (s : sim) (pin : pin_t) (value : Z) :
  chip_ok (fst s) -> store_ok (fst s) (snd s) ->
  step_ok s (chip_pin_change s pin value).
Proof.
  destruct s as [c h]. cbn [fst snd]. intros Hok Hstore. unfold chip_pin_change.
  destruct pin.
  - destruct (value =? LOW); apply step_ok_quiet;
      first [repeat split; reflexivity
            | left; apply transport_only_start
            | left; apply transport_only_stop].
  - destruct (mode_eqb _ _); [apply step_ok_refl|]. cbn zeta.
    destruct (pin_read_cs (spi_stop h) =? LOW); apply step_ok_quiet;
      first [repeat split; reflexivity
            | left; apply transport_only_stop
            | left; apply transport_only_trans with (spi_stop h);
              [apply transport_only_stop|apply transport_only_start]].
  - destruct (value =? LOW); [|apply step_ok_refl]. cbn zeta.
    destruct (chip_reset_frame c) as (Ef & Ew & Eh & _ & _).
    assert (Hpre : step_ok (c, h) (chip_reset c, spi_stop h)).
    { apply step_ok_quiet; [repeat split; assumption|left; apply transport_only_stop]. }
    destruct (framebuffer (chip_reset c) =? 0); [exact Hpre|].
    eapply step_ok_trans; [exact Hpre|].
    apply clear_framebuffer_step; [apply chip_reset_ok, Hok|].
    destruct Hstore as [Hlen Hfit]. unfold store_ok. rewrite Ew, Eh.
    split; assumption.
Qed.

Lemma run_step (events : list event) (s : sim) :
  chip_ok (fst s) -> store_ok (fst s) (snd s) -> step_ok s (run s events).
Proof.
  revert s. induction events as [|e rest IH]; intros s Hok Hstore;
    [apply step_ok_refl|].
  unfold run. cbn [fold_left]. fold (run (handle s e) rest).
  destruct (run_ok [e] s Hok Hstore) as [Hok' Hstore'].
  apply step_ok_trans with (handle s e); [|apply IH; assumption].
  destruct e; [apply chip_pin_change_step; assumption|].
  apply chip_spi_done_step; [exact Hok|apply Hstore].
Qed.

(** X12: the device never writes outside its framebuffer.  From power
    on with a w x h store of at most 2^30 cells, whatever pin edges and
    transport batches arrive, every cell write in the trace is to the
    store the chip was bound to, at a byte offset 4 * i with
    0 <= i < w * h; the store keeps its w * h cells and the chip its
    binding and extent. *)
Theorem run_writes_inside_framebuffer (fb w h fill : Z) (events : list event) :
  0 <= w < 2 ^ 32 -> 0 <= h < 2 ^ 32 -> 4 * (w * h) <= 2 ^ 32 ->
  let s := run (power_on fb w h fill) events in
  Forall (safe_call fb w h) (calls (snd s))
  /\ length (cells (snd s)) = Z.to_nat (w * h)
  /\ framebuffer (fst s) = fb /\ width (fst s) = w /\ height (fst s) = h.
Proof.
  intros Hw Hh Hfit. cbn zeta.
  destruct (power_on_ok fb w h fill Hw Hh Hfit) as [Hok Hstore].
  destruct (run_step events _ Hok Hstore) as [(Ef & Ew & Eh) (ws & Ecalls & Hsafe)].
  destruct (run_ok events _ Hok Hstore) as [_ [Hlen _]].
  assert (Hframe : framebuffer (fst (power_on fb w h fill)) = fb
                   /\ width (fst (power_on fb w h fill)) = w
                   /\ height (fst (power_on fb w h fill)) = h).
  { unfold power_on, chip_init. cbn [fst].
    match goal with
    | |- context [chip_reset ?c] =>
        destruct (chip_reset_frame c) as (E1 & E2 & E3 & _ & _)
    end.
    rewrite E1, E2, E3. repeat split; reflexivity. }
  destruct Hframe as (Ff & Fw & Fh). rewrite Ff, Fw, Fh in *.
  split; [rewrite Ecalls; exact Hsafe|].
  split; [rewrite Hlen, Ew, Eh; reflexivity|].
  repeat split; assumption.
Qed.

(** X13: the cursor never falls behind the window.  From power on,
    whatever pin edges and transport batches arrive, on each axis the
    cursor is at or after the start of the window, and at or before
    its end whenever the window is ordered (start <= end). *)
Theorem run_cursor_from_window_start (fb w h fill : Z) (events : list event) :
  0 <= w < 2 ^ 32 -> 0 <= h < 2 ^ 32 ->
  let chip := fst (run (power_on fb w h fill) events) in
  column_start chip <= active_column chip
  /\ (column_start chip <= column_end chip -> active_column chip <= column_end chip)
  /\ page_start chip <= active_page chip
  /\ (page_start chip <= page_end chip -> active_page chip <= page_end chip).
Proof.
  intros Hw Hh. cbn zeta.
  destruct (run_state_inv events _ (power_on_state_inv fb w h fill Hw Hh))
    as (_ & Hcur & _).
  exact Hcur.
Qed.

(** X14: the argument collector never stores outside the 16-byte
    argument buffer.  From power on, whatever arrives, the expected
    argument count is the arity of the opcode in flight (at most 16),
    the number of arguments collected is 0 or below that count, and
    the slot the next argument byte would be stored at exists. *)
Theorem run_argument_store_in_range (fb w h fill : Z) (events : list event) :
  0 <= w < 2 ^ 32 -> 0 <= h < 2 ^ 32 ->
  let chip := fst (run (power_on fb w h fill) events) in
  command_size chip = command_args_size (command_code chip)
  /\ 0 <= command_index chip
  /\ (command_index chip < command_size chip \/ command_index chip = 0)
  /\ (command_index chip < command_size chip ->
      is_Some (command_buf chip !! Z.to_nat (command_index chip))).
Proof.
  intros Hw Hh. cbn zeta.
  destruct (run_state_inv events _ (power_on_state_inv fb w h fill Hw Hh))
    as (Hok & _ & (Hsize & Hidx & Hpend)).
  split; [exact Hsize|]. split; [exact Hidx|]. split; [exact Hpend|].
  intros Hlt. apply lookup_lt_is_Some_2.
  pose proof (command_args_size_range
                (command_code (fst (run (power_on fb w h fill) events)))) as Hr.
  rewrite (ok_command_buf _ Hok). lia.
Qed.

(** * Window-set commands in sequence *)

Lemma send_command_kept (s : sim) (op : byte) (args : list byte) :
  chip_ok (fst s) -> chip_ok (fst (send_command s op args)).
Proof.
  intros Hok. unfold send_command.
  apply chip_spi_done_kept, chip_pin_change_kept, chip_spi_done_kept,
    chip_pin_change_kept, Hok.
Qed.

Lemma registers_window_set (chip : chip_state_t) (host : host_t)
      (op c0 c1 c2 c3 : byte) :
  chip_ok chip -> op = x2a \/ op = x2b ->
  registers (fst (send_command (chip, host) op [c0; c1; c2; c3]))
  = registers (window_set_result chip op (be16 c0 c1) (be16 c2 c3)).
Proof.
  intros Hok Hop.
  destruct (send_window_set chip host op c0 c1 c2 c3 (ok_command_buf _ Hok) Hop)
    as [-> _].
  unfold window_set_result. cbn zeta.
  destruct (targets_page chip op); reflexivity.
Qed.

Lemma window_set_result_scan (chip : chip_state_t) (op : byte) (s e : Z) :
  scanning_direction (window_set_result chip op s e) = scanning_direction chip.
Proof. unfold window_set_result. destruct (targets_page chip op); reflexivity. Qed.

Lemma window_set_result_again (chip : chip_state_t) (op op' : byte) (s e s' e' : Z) :
  window_set_result (window_set_result chip op s e) op' s' e'
  = set_mode MODE_DATA
      (set_ram_write false
         (if targets_page chip op'
          then set_active_page (row_offset chip s')
                 (set_page_end (row_offset chip e')
                    (set_page_start (row_offset chip s')
                       (window_set_result chip op s e)))
          else set_column_end e'
                 (set_column_start s'
                    (set_active_column s' (window_set_result chip op s e))))).
Proof.
  unfold window_set_result at 1.
  unfold targets_page at 1, row_offset at 1 2 3, swap_axes, row_mirror.
  rewrite window_set_result_scan. reflexivity.
Qed.

Lemma window_set_result_ext (a b : chip_state_t) (op : byte) (s e : Z) :
  registers a = registers b ->
  registers (window_set_result a op s e) = registers (window_set_result b op s e).
Proof.
  unfold registers. intros H.
  injection H as Hm Hr Hac Hap Hcs Hce Hps Hpe Hsd.
  unfold window_set_result, targets_page, row_offset, swap_axes, row_mirror.
  rewrite Hsd.
  destruct (xorb _ _); cbn; congruence.
Qed.

Lemma window_set_result_twice (chip : chip_state_t) (op : byte) (s e s' e' : Z) :
  registers (window_set_result (window_set_result chip op s e) op s' e')
  = registers (window_set_result chip op s' e').
Proof.
  rewrite window_set_result_again. unfold window_set_result.
  destruct (targets_page chip op); reflexivity.
Qed.

Lemma window_set_result_comm (chip : chip_state_t) (s e s' e' : Z) :
  registers (window_set_result (window_set_result chip x2a s e) x2b s' e')
  = registers (window_set_result (window_set_result chip x2b s' e') x2a s e).
Proof.
  rewrite !window_set_result_again. unfold window_set_result, targets_page.
  change (byte_val x2a =? CMD_RASET) with false.
  change (byte_val x2b =? CMD_RASET) with true.
  destruct (swap_axes chip); reflexivity.
Qed.

(** X15: window-set commands compose as register assignments.  With
    four argument bytes each: of two successive column-address-set
    commands, or two successive row-address-set commands, only the
    second one counts; and a column-address-set followed by a
    row-address-set leaves the registers as the two in the other order
    do. *)
Theorem window_sets_compose (chip : chip_state_t) (host : host_t)
        (op a0 a1 a2 a3 b0 b1 b2 b3 : byte) :
  chip_ok chip -> op = x2a \/ op = x2b ->
  registers (fst (send_command (send_command (chip, host) op [a0; a1; a2; a3])
                               op [b0; b1; b2; b3]))
  = registers (fst (send_command (chip, host) op [b0; b1; b2; b3]))
  /\ registers (fst (send_command (send_command (chip, host) x2a [a0; a1; a2; a3])
                                  x2b [b0; b1; b2; b3]))
     = registers (fst (send_command (send_command (chip, host) x2b [b0; b1; b2; b3])
                                    x2a [a0; a1; a2; a3])).
Proof.
  intros Hok Hop.
  assert (Hseq : forall o1 o2 p0 p1 p2 p3 q0 q1 q2 q3,
             o1 = x2a \/ o1 = x2b -> o2 = x2a \/ o2 = x2b ->
             registers (fst (send_command (send_command (chip, host) o1 [p0; p1; p2; p3])
                                          o2 [q0; q1; q2; q3]))
             = registers (window_set_result
                            (window_set_result chip o1 (be16 p0 p1) (be16 p2 p3))
                            o2 (be16 q0 q1) (be16 q2 q3))).
  { intros o1 o2 p0 p1 p2 p3 q0 q1 q2 q3 H1 H2.
    pose proof (send_command_kept (chip, host) o1 [p0; p1; p2; p3] Hok) as Hok1.
    pose proof (registers_window_set chip host o1 p0 p1 p2 p3 Hok H1) as E1.
    destruct (send_command (chip, host) o1 [p0; p1; p2; p3]) as [chip1 host1].
    cbn [fst] in *.
    rewrite (registers_window_set chip1 host1 o2 q0 q1 q2 q3 Hok1 H2).
    apply window_set_result_ext, E1. }
  split.
  - rewrite Hseq by assumption. rewrite registers_window_set by assumption.
    apply window_set_result_twice.
  - rewrite !Hseq by (first [left; reflexivity | right; reflexivity]).
    apply window_set_result_comm.
Qed.

(** * Argument bytes and transport batches *)

(** What [execute_command] leaves alone whatever the opcode. *)
Lemma execute_command_fixed (c : chip_state_t) (h : host_t) :
  mode (fst (execute_command (c, h))) = mode c
  /\ command_code (fst (execute_command (c, h))) = command_code c
  /\ cells (snd (execute_command (c, h))) = cells h.
Proof.
  destruct c as [fb w hh m code size idx buf rw ac ap cs ce ps pe sd].
  unfold execute_command, execute_window_set, chip_reset.
  cbn [command_code mode fst snd].
  repeat match goal with
         | |- context [if ?b then _ else _] => destruct b
         end; repeat split; reflexivity.
Qed.

Lemma process_command_arg_collecting (c : chip_state_t) (h : host_t) (b : byte) :
  collecting_args c ->
  collecting_args (fst (process_command_arg (c, h) b))
  /\ cells (snd (process_command_arg (c, h) b)) = cells h.
Proof.
  intros (Hm & Hr & Hc). unfold process_command_arg.
  destruct (command_index c <? command_size c);
    [|split; [repeat split; assumption|reflexivity]].
  cbn zeta.
  match goal with
  | |- context [execute_command (?c', h)] => set (c1 := c')
  end.
  destruct (command_size c1 =? command_index c1);
    [|split; [exact (conj Hm (conj Hr Hc))|reflexivity]].
  pose proof (execute_command_fixed c1 h) as (Em & Ec & Ecells).
  assert (Er : ram_write (fst (execute_command (c1, h))) = false).
  { apply execute_command_disarmed; [exact Hr|]. apply Z.eqb_neq. exact Hc. }
  destruct (execute_command (c1, h)) as [c2 h2]. cbn [fst snd] in *.
  split; [|exact Ecells].
  unfold collecting_args. cbn [mode ram_write command_code set_command_index].
  rewrite Em, Ec. split; [exact Hm|]. split; [exact Er|exact Hc].
Qed.

Lemma process_command_args_collecting (buf : list byte) :
  forall (c : chip_state_t) (h : host_t),
    collecting_args c ->
    collecting_args (fst (process_command_args (c, h) buf))
    /\ cells (snd (process_command_args (c, h) buf)) = cells h.
Proof.
  induction buf as [|b rest IH]; intros c h Hc;
    [split; [exact Hc|reflexivity]|].
  unfold process_command_args. cbn [fold_left].
  destruct (process_command_arg_collecting c h b Hc) as [Hc1 Ecells].
  destruct (process_command_arg (c, h) b) as [c1 h1]. cbn [fst snd] in *.
  destruct (IH c1 h1 Hc1) as [Hc2 Ecells2].
  split; [exact Hc2|]. unfold process_command_args in Ecells2. congruence.
Qed.

(** X16: argument bytes may arrive in any batches.  In data mode with
    no memory write in progress, delivering the bytes [b1] and then
    the bytes [b2] leaves the chip as delivering [b1 ++ b2] at once
    does, and no cell changes either way. *)
Theorem argument_bytes_in_any_batches
        (chip : chip_state_t) (host : host_t) (b1 b2 : list byte) :
  mode chip = MODE_DATA -> ram_write chip = false ->
  command_code chip <> CMD_RAMWR ->
  fst (chip_spi_done (chip_spi_done (chip, host) b1) b2)
  = fst (chip_spi_done (chip, host) (b1 ++ b2))
  /\ cells (snd (chip_spi_done (chip_spi_done (chip, host) b1) b2)) = cells host
  /\ cells (snd (chip_spi_done (chip, host) (b1 ++ b2))) = cells host.
Proof.
  intros Hm Hr Hc.
  assert (Hcol : collecting_args chip) by (repeat split; assumption).
  destruct (spi_done_args chip host b1 Hm Hr) as [E1 C1].
  destruct (spi_done_args chip host (b1 ++ b2) Hm Hr) as [E12 C12].
  destruct (process_command_args_collecting b1 chip host Hcol)
    as [(Hm1 & Hr1 & Hc1) Ecells1].
  destruct (process_command_args_collecting (b1 ++ b2) chip host Hcol)
    as [_ Ecells12].
  destruct (chip_spi_done (chip, host) b1) as [chip1 host1]. cbn [fst snd] in *.
  rewrite <- E1 in Hm1, Hr1, Hc1.
  destruct (spi_done_args chip1 host1 b2 Hm1 Hr1) as [E2 C2].
  destruct (process_command_args_collecting b2 chip1 host1
              (conj Hm1 (conj Hr1 Hc1))) as [_ Ecells2].
  split; [|split; congruence].
  rewrite E2, E12, E1. unfold process_command_args. rewrite fold_left_app.
  destruct (fold_left process_command_arg b1 (chip, host)) as [c' h'].
  cbn [fst].
  clear. revert c' h' host1.
  induction b2 as [|b rest IH]; intros c' h' host1; [reflexivity|].
  cbn [fold_left].
  assert (Hstep : forall h, fst (process_command_arg (c', h) b)
                            = fst (process_command_arg (c', h') b)).
  { intros h. unfold process_command_arg.
    destruct (command_index c' <? command_size c'); [|reflexivity]. cbn zeta.
    match goal with
    | |- context [execute_command (?c1, h)] =>
        assert (Hex : fst (execute_command (c1, h)) = fst (execute_command (c1, h')))
          by (unfold execute_command;
              repeat match goal with
                     | |- context [if ?b then _ else _] => destruct b
                     end; reflexivity);
        destruct (execute_command (c1, h)) as [x hx];
        destruct (execute_command (c1, h')) as [y hy]
    end.
    cbn [fst] in Hex. subst y. destruct (_ =? _); reflexivity. }
  specialize (Hstep host1).
  destruct (process_command_arg (c', host1) b) as [ca ha].
  destruct (process_command_arg (c', h') b) as [cb hb].
  cbn [fst] in Hstep. subst cb. apply IH.
Qed.

(** * The data/command line *)

(** X17: the mode follows the level of the data/command line: after an
    edge the mode is command for level 0 and data otherwise, and
    nothing else of the chip and no cell changes.  An edge that
    changes the mode stops the transport and restarts it if chip
    select is low; one that does not change it requests nothing, so a
    repeated edge is without any effect. *)
Theorem data_command_line (chip : chip_state_t) (host : host_t) (value : Z) :
  let new_mode := if value =? 0 then MODE_COMMAND else MODE_DATA in
  let s' := chip_pin_change (chip, host) PIN_DC value in
  fst s' = set_mode new_mode chip
  /\ cells (snd s') = cells host
  /\ calls (snd s')
     = calls host
       ++ (if mode_eqb (mode chip) new_mode then []
           else call_spi_stop
                :: (if cs_level host =? LOW then [call_spi_start] else []))
  /\ chip_pin_change s' PIN_DC value = s'.
Proof.
  cbn zeta. split; [apply dc_change_fst|]. split; [apply dc_change_cells|].
  pose proof (dc_change_fst chip host value) as Hfst.
  unfold chip_pin_change in *. cbn iota in *.
  destruct (mode_eqb (mode chip) (if value =? 0 then MODE_COMMAND else MODE_DATA))
    eqn:Hsame.
  - split; [symmetry; apply app_nil_r|]. rewrite Hsame. reflexivity.
  - cbn zeta in *. unfold pin_read_cs in *. cbn [spi_stop log cs_level] in *.
    destruct (cs_level host =? LOW) eqn:Hcs; cbn [fst snd spi_start spi_stop log calls];
      (split; [rewrite <- ?app_assoc; reflexivity|]);
      cbn [mode set_mode]; destruct (value =? 0); reflexivity.
Qed.

(** * The theorems above at concrete states *)

Lemma process_data_drops_trailing_byte_witness :
  (length [xf8; x00] mod 2 = 0)%nat
  /\ process_data streaming ([xf8; x00] ++ [x07]) = process_data streaming [xf8; x00].
Proof.
  split; [by_eval|]. apply process_data_drops_trailing_byte; by_eval.
Defined.

Lemma process_data_app_witness :
  (length [xf8; x00] mod 2 = 0)%nat
  /\ process_data (process_data streaming [xf8; x00]) [x07; xe0; x00]
     = process_data streaming ([xf8; x00] ++ [x07; xe0; x00]).
Proof.
  split; [by_eval|]. apply process_data_app; by_eval.
Defined.

Lemma cursor_period_witness :
  chip_ok (fst streaming) /\ in_window (fst streaming)
  /\ Z.of_nat (length [xf8; x00; x07; xe0; x00; x1f; xff; xff; x00; x00; x12; x34] / 2)
     = window_area (fst streaming)
  /\ fst (process_data (fst streaming, snd streaming)
            [xf8; x00; x07; xe0; x00; x1f; xff; xff; x00; x00; x12; x34])
     = fst streaming.
Proof.
  split; [by_eval|]. split; [by_eval|]. split; [by_eval|].
  apply cursor_period; by_eval.
Defined.

Lemma writes_stay_in_window_witness :
  chip_ok (fst streaming) /\ in_window (fst streaming)
  /\ column_end (fst streaming) < 2 ^ 31 /\ page_end (fst streaming) < 2 ^ 31
  /\ 4 * (width (fst streaming) * height (fst streaming)) <= 2 ^ 32
  /\ exists ws,
      calls (snd (process_data (fst streaming, snd streaming) [xf8; x00; x07; xe0]))
      = calls (snd streaming) ++ ws
      /\ Forall (window_write (fst streaming)) ws.
Proof.
  split; [by_eval|]. split; [by_eval|]. split; [by_eval|]. split; [by_eval|].
  split; [by_eval|]. apply writes_stay_in_window; by_eval.
Defined.

Lemma rgb565_to_rgba_lossless_witness :
  is_sample 0xf800 /\ is_sample 0x07e0
  /\ (pack565 (rgb565_to_rgba 0xf800) = 0xf800
      /\ 0xff000000 <= rgb565_to_rgba 0xf800 < 2 ^ 32
      /\ (rgb565_to_rgba 0xf800 = rgb565_to_rgba 0x07e0 -> 0xf800 = 0x07e0)).
Proof.
  split; [by_eval|]. split; [by_eval|].
  apply rgb565_to_rgba_lossless; by_eval.
Defined.

Lemma first_sample_after_ramwr_witness :
  chip_ok (fst tiny) /\ store_ok (fst tiny) (snd tiny)
  /\ active_column (fst tiny) < 2 ^ 31 /\ active_page (fst tiny) < 2 ^ 31
  /\ 0 <= fst (oriented (fst tiny)) < width (fst tiny)
  /\ 0 <= snd (oriented (fst tiny)) < height (fst tiny)
  /\ (let s' := send_command (fst tiny, snd tiny) x2c [xf8; x00] in
      cells (snd s')
      = <[Z.to_nat (snd (oriented (fst tiny)) * width (fst tiny)
                    + fst (oriented (fst tiny)))
          := expand565 (be16 xf8 x00)]> (cells (snd tiny))
      /\ active_column (fst s') = active_column (advance (fst tiny))
      /\ active_page (fst s') = active_page (advance (fst tiny))
      /\ window (fst s') = window (fst tiny)
      /\ armed (fst s')).
Proof.
  split; [by_eval|]. split; [by_eval|]. split; [by_eval|]. split; [by_eval|].
  split; [by_eval|]. split; [by_eval|].
  apply first_sample_after_ramwr; by_eval.
Defined.

Lemma madctl_last_byte_wins_witness :
  chip_ok (fst panel) /\ [xa0; x60] <> []
  /\ (let s' := send_command (fst panel, snd panel) x36 [xa0; x60] in
      scanning_direction (fst s') = byte_val (List.last [xa0; x60] x00)
      /\ window (fst s') = window (fst panel)
      /\ active_column (fst s') = active_column (fst panel)
      /\ active_page (fst s') = active_page (fst panel)
      /\ cells (snd s') = cells (snd panel)).
Proof.
  split; [by_eval|]. split; [by_eval|].
  apply madctl_last_byte_wins; by_eval.
Defined.

Lemma chip_select_abandons_command_witness :
  mode (fst pending) = MODE_DATA /\ ram_write (fst pending) = false
  /\ command_size (fst pending) = 4 /\ command_index (fst pending) = 2
  /\ let s := chip_pin_change (fst pending, snd pending) PIN_CS LOW in
     (command_size (fst s) = 0 /\ command_index (fst s) = 0
      /\ command_code (fst s) = 0
      /\ registers (fst s) = registers (fst pending)
      /\ command_buf (fst s) = command_buf (fst pending)
      /\ cells (snd s) = cells (snd pending))
     /\ (mode (fst pending) = MODE_DATA -> ram_write (fst pending) = false ->
         fst (chip_spi_done s [x00; x20]) = fst s
         /\ cells (snd (chip_spi_done s [x00; x20])) = cells (snd pending)).
Proof.
  split; [by_eval|]. split; [by_eval|]. split; [by_eval|]. split; [by_eval|].
  apply chip_select_abandons_command.
Defined.

Lemma plain_command_byte_witness :
  mode (fst panel) = MODE_COMMAND
  /\ command_args_size (byte_val x04) = 0 /\ effective (byte_val x04) = false
  /\ (let s' := chip_spi_done (fst panel, snd panel) [x04] in
      registers (fst s') = registers (set_ram_write false (fst panel))
      /\ cells (snd s') = cells (snd panel)
      /\ calls (snd s')
         = calls (snd panel)
           ++ (if quiet (byte_val x04) then []
               else [call_printf_unknown (byte_val x04)])
           ++ (if cs_level (snd panel) =? LOW then [call_spi_start] else [])).
Proof.
  split; [by_eval|]. split; [by_eval|]. split; [by_eval|].
  apply plain_command_byte; by_eval.
Defined.

Lemma argument_command_without_effect_witness :
  0 < command_args_size (byte_val xb1)
  /\ Z.of_nat (length [x01; x02; x03]) = command_args_size (byte_val xb1)
  /\ effective (byte_val xb1) = false
  /\ (let s' := send_command (fst panel, snd panel) xb1 [x01; x02; x03] in
      registers (fst s')
      = registers (set_mode MODE_DATA (set_ram_write false (fst panel)))
      /\ command_index (fst s') = 0
      /\ cells (snd s') = cells (snd panel)
      /\ exists pre post,
          Forall transport_call pre /\ Forall transport_call post
          /\ calls (snd s')
             = calls (snd panel) ++ pre
               ++ (if quiet (byte_val xb1) then []
                   else [call_printf_unknown (byte_val xb1)])
               ++ post).
Proof.
  split; [by_eval|]. split; [by_eval|]. split; [by_eval|].
  apply argument_command_without_effect; by_eval.
Defined.

Lemma run_writes_inside_framebuffer_witness :
  0 <= 3 < 2 ^ 32 /\ 0 <= 2 < 2 ^ 32 /\ 4 * (3 * 2) <= 2 ^ 32
  /\ (let s := run (power_on 1 3 2 0) session in
      Forall (safe_call 1 3 2) (calls (snd s))
      /\ length (cells (snd s)) = Z.to_nat (3 * 2)
      /\ framebuffer (fst s) = 1 /\ width (fst s) = 3 /\ height (fst s) = 2).
Proof.
  split; [by_eval|]. split; [by_eval|]. split; [by_eval|].
  apply run_writes_inside_framebuffer; by_eval.
Defined.

Lemma run_cursor_from_window_start_witness :
  0 <= 3 < 2 ^ 32 /\ 0 <= 2 < 2 ^ 32
  /\ (let chip := fst (run (power_on 1 3 2 0) session) in
      column_start chip <= active_column chip
      /\ (column_start chip <= column_end chip
          -> active_column chip <= column_end chip)
      /\ page_start chip <= active_page chip
      /\ (page_start chip <= page_end chip -> active_page chip <= page_end chip)).
Proof.
  split; [by_eval|]. split; [by_eval|].
  apply run_cursor_from_window_start; by_eval.
Defined.

Lemma run_argument_store_in_range_witness :
  0 <= 3 < 2 ^ 32 /\ 0 <= 2 < 2 ^ 32
  /\ (let chip := fst (run (power_on 1 3 2 0) session) in
      command_size chip = command_args_size (command_code chip)
      /\ 0 <= command_index chip
      /\ (command_index chip < command_size chip \/ command_index chip = 0)
      /\ (command_index chip < command_size chip ->
          is_Some (command_buf chip !! Z.to_nat (command_index chip)))).
Proof.
  split; [by_eval|]. split; [by_eval|].
  apply run_argument_store_in_range; by_eval.
Defined.

Lemma window_sets_compose_witness :
  chip_ok (fst rotated) /\ (x2b = x2a \/ x2b = x2b)
  /\ (registers (fst (send_command
                        (send_command (fst rotated, snd rotated) x2b
                           [x00; x10; x00; x2f])
                        x2b [x00; x00; x00; x3f]))
      = registers (fst (send_command (fst rotated, snd rotated) x2b
                          [x00; x00; x00; x3f]))
      /\ registers (fst (send_command
                           (send_command (fst rotated, snd rotated) x2a
                              [x00; x10; x00; x2f])
                           x2b [x00; x00; x00; x3f]))
         = registers (fst (send_command
                             (send_command (fst rotated, snd rotated) x2b
                                [x00; x00; x00; x3f])
                             x2a [x00; x10; x00; x2f]))).
Proof.
  split; [by_eval|]. split; [right; reflexivity|].
  apply window_sets_compose; [by_eval|right; reflexivity].
Defined.

Lemma argument_bytes_in_any_batches_witness :
  mode (fst pending) = MODE_DATA /\ ram_write (fst pending) = false
  /\ command_code (fst pending) <> CMD_RAMWR
  /\ (fst (chip_spi_done (chip_spi_done (fst pending, snd pending) [x00]) [x20; x01])
      = fst (chip_spi_done (fst pending, snd pending) ([x00] ++ [x20; x01]))
      /\ cells (snd (chip_spi_done (chip_spi_done (fst pending, snd pending) [x00])
                       [x20; x01]))
         = cells (snd pending)
      /\ cells (snd (chip_spi_done (fst pending, snd pending) ([x00] ++ [x20; x01])))
         = cells (snd pending)).
Proof.
  split; [by_eval|]. split; [by_eval|]. split; [by_eval|].
  apply argument_bytes_in_any_batches; by_eval.
Defined.

(** * Command batches of several bytes *)

Lemma process_command_snoc (c : chip_state_t) (h : host_t)
      (pre : list byte) (b : byte) :
  process_command (c, h) (pre ++ [b])
  = process_command_byte (process_command (c, h) pre) b.
Proof. unfold process_command. rewrite fold_left_app. reflexivity. Qed.

Lemma process_command_byte_pending (c : chip_state_t) (h : host_t) (op : byte) :
  0 < command_args_size (byte_val op) ->
  process_command_byte (c, h) op
  = (set_command_index 0
       (set_command_size (command_args_size (byte_val op))
          (set_command_code (byte_val op) c)), h).
Proof.
  intros Harity. pose proof (command_args_size_range (byte_val op)) as Hr.
  unfold process_command_byte. cbn. rewrite u8_small by lia.
  destruct (Z.eqb_spec (command_args_size (byte_val op)) 0); [lia|reflexivity].
Qed.

Lemma execute_command_fst_host (c : chip_state_t) (h h' : host_t) :
  fst (execute_command (c, h)) = fst (execute_command (c, h')).
Proof.
  unfold execute_command.
  repeat match goal with
         | |- context [if ?b then _ else _] => destruct b
         end; reflexivity.
Qed.

Lemma process_command_byte_facts (c : chip_state_t) (h h' : host_t) (b : byte) :
  fst (process_command_byte (c, h) b) = fst (process_command_byte (c, h') b)
  /\ mode (fst (process_command_byte (c, h) b)) = mode c
  /\ cells (snd (process_command_byte (c, h) b)) = cells h.
Proof.
  unfold process_command_byte.
  match goal with
  | |- context [execute_command (?c1, h)] =>
      pose proof (execute_command_fst_host c1 h h') as Hfst;
      pose proof (execute_command_fixed c1 h) as (Hmode & _ & Hcells)
  end.
  destruct (_ =? 0); [|repeat split; reflexivity].
  split; [exact Hfst|]. split; [exact Hmode|exact Hcells].
Qed.

Lemma fold_command_facts (l : list byte) :
  forall (c : chip_state_t) (h h' : host_t),
    fst (fold_left process_command_byte l (c, h))
    = fst (fold_left process_command_byte l (c, h'))
    /\ mode (fst (fold_left process_command_byte l (c, h))) = mode c
    /\ cells (snd (fold_left process_command_byte l (c, h))) = cells h.
Proof.
  induction l as [|b rest IH]; intros c h h'; [repeat split; reflexivity|].
  cbn [fold_left].
  destruct (process_command_byte_facts c h h' b) as (Hfst & Hmode & Hcells).
  destruct (process_command_byte (c, h) b) as [c1 h1].
  destruct (process_command_byte (c, h') b) as [c2 h2].
  cbn [fst snd] in *. subst c2.
  destruct (IH c1 h1 h2) as (Ifst & Imode & Icells).
  split; [exact Ifst|]. split; congruence.
Qed.

Lemma process_command_facts (c : chip_state_t) (h h' : host_t) (l : list byte) :
  fst (process_command (c, h) l) = fst (process_command (c, h') l)
  /\ mode (fst (process_command (c, h) l)) = mode c
  /\ cells (snd (process_command (c, h) l)) = cells h.
Proof.
  unfold process_command.
  destruct (fold_command_facts l (set_ram_write false c) h h') as (E & M & C).
  split; [exact E|]. split; [exact M|exact C].
Qed.

(** What a command byte does to [ram_write]. *)
Lemma execute_command_ram_write (c : chip_state_t) (h : host_t) :
  command_code c <> CMD_RAMWR -> command_code c <> CMD_SWRESET ->
  command_args_size (command_code c) = 0 ->
  ram_write (fst (execute_command (c, h))) = ram_write c.
Proof.
  destruct c as [fb w hh m code size idx buf rw ac ap cs ce ps pe sd].
  cbn [command_code ram_write]. intros H1 H2 Harity. unfold execute_command.
  cbn [command_code].
  repeat match goal with
         | |- context [code =? ?y] =>
             destruct (Z.eqb_spec code y) as [->|?];
             [first [congruence | discriminate Harity | reflexivity]|]
         end.
  cbn [orb]. reflexivity.
Qed.

Lemma process_command_byte_ram_write (c : chip_state_t) (h : host_t) (b : byte) :
  ram_write (fst (process_command_byte (c, h) b))
  = if byte_val b =? CMD_RAMWR then true
    else if byte_val b =? CMD_SWRESET then false
    else ram_write c.
Proof.
  unfold process_command_byte.
  destruct (Z.eqb_spec (byte_val b) CMD_RAMWR) as [E|N1]; [rewrite E; reflexivity|].
  destruct (Z.eqb_spec (byte_val b) CMD_SWRESET) as [E|N2].
  - rewrite E. cbn. unfold chip_reset. cbn.
    destruct (_ && _); reflexivity.
  - cbn [command_code set_command_code set_command_size set_command_index
         command_size].
    pose proof (command_args_size_range (byte_val b)) as Hr.
    rewrite u8_small by lia.
    destruct (Z.eqb_spec (command_args_size (byte_val b)) 0) as [E0|]; [|reflexivity].
    rewrite execute_command_ram_write; [reflexivity|exact N1|exact N2|exact E0].
Qed.

Lemma arms_snoc (pre : list byte) (b : byte) :
  arms (pre ++ [b])
  = if byte_val b =? CMD_RAMWR then true
    else if byte_val b =? CMD_SWRESET then false
    else arms pre.
Proof. unfold arms. rewrite fold_left_app. reflexivity. Qed.

Lemma process_command_ram_write (c : chip_state_t) (h : host_t) (pre : list byte) :
  ram_write (fst (process_command (c, h) pre)) = arms pre.
Proof.
  induction pre as [|b pre IH] using rev_ind; [reflexivity|].
  rewrite process_command_snoc, arms_snoc, <- IH.
  destruct (process_command (c, h) pre) as [c1 h1].
  apply process_command_byte_ram_write.
Qed.

Lemma reached_facts (chip : chip_state_t) (host : host_t) (pre : list byte) :
  mode (reached chip host pre) = MODE_COMMAND
  /\ ram_write (reached chip host pre) = arms pre.
Proof.
  unfold reached. split; [|apply process_command_ram_write].
  destruct (process_command_facts (set_mode MODE_COMMAND chip) host host pre)
    as (_ & M & _).
  exact M.
Qed.

Lemma reached_ok (chip : chip_state_t) (host : host_t) (pre : list byte) :
  chip_ok chip ->
  chip_ok (reached chip host pre)
  /\ width (reached chip host pre) = width chip
  /\ height (reached chip host pre) = height chip.
Proof.
  intros Hok. unfold reached, process_command.
  destruct (fold_kept process_command_byte pre process_command_byte_kept
              (set_ram_write false (set_mode MODE_COMMAND chip), host))
    as (Hok' & Ew & Eh & _).
  { destruct Hok; constructor; assumption. }
  split; [exact Hok'|]. split; [exact Ew|exact Eh].
Qed.

(** A command batch that ends with an opcode that takes arguments,
    followed by a batch with the line high. *)
Lemma send_batch_latched (chip : chip_state_t) (host : host_t)
      (pre : list byte) (op : byte) (args : list byte) :
  0 < command_args_size (byte_val op) ->
  exists h1,
    cells h1 = cells host
    /\ fst (send_batch (chip, host) (pre ++ [op]) args)
       = fst (chip_spi_done (latched (reached chip host pre) op, h1) args)
    /\ cells (snd (send_batch (chip, host) (pre ++ [op]) args))
       = cells (snd (chip_spi_done (latched (reached chip host pre) op, h1) args)).
Proof.
  intros Harity. unfold send_batch.
  pose proof (dc_change_fst chip host LOW) as E1.
  pose proof (dc_change_cells chip host LOW) as C1.
  destruct (chip_pin_change (chip, host) PIN_DC LOW) as [chip1 host1].
  cbn in E1, C1. subst chip1.
  destruct (spi_done_command (set_mode MODE_COMMAND chip) host1 (pre ++ [op]))
    as [E2 C2]; [reflexivity|destruct pre; discriminate|].
  rewrite process_command_snoc in E2, C2.
  destruct (process_command_facts (set_mode MODE_COMMAND chip) host1 host pre)
    as (Ehost & _ & Ccells).
  fold (reached chip host pre) in Ehost.
  destruct (process_command (set_mode MODE_COMMAND chip, host1) pre) as [c0 h0].
  cbn [fst snd] in Ehost, Ccells. subst c0.
  rewrite process_command_byte_pending in E2, C2 by exact Harity.
  destruct (chip_spi_done (set_mode MODE_COMMAND chip, host1) (pre ++ [op]))
    as [chip2 host2].
  cbn [fst snd] in E2, C2. subst chip2.
  match goal with
  | |- context [chip_pin_change (?c, host2) PIN_DC HIGH] =>
      pose proof (dc_change_fst c host2 HIGH) as E3;
      pose proof (dc_change_cells c host2 HIGH) as C3;
      destruct (chip_pin_change (c, host2) PIN_DC HIGH) as [chip3 host3]
  end.
  cbn [fst snd] in E3, C3. change (HIGH =? 0) with false in E3. cbv iota in E3.
  fold (latched (reached chip host pre) op) in E3. subst chip3.
  exists host3. split; [congruence|]. split; reflexivity.
Qed.

Lemma latched_awaiting (c : chip_state_t) (op : byte) :
  mode c = MODE_COMMAND -> ram_write c = false -> latched c op = awaiting c op.
Proof.
  destruct c as [fb w hh m code size idx buf rw ac ap cs ce ps pe sd].
  cbn. intros -> ->. reflexivity.
Qed.

(** With no memory write armed the second batch is a batch of
    argument bytes. *)
Lemma send_batch_awaiting (chip : chip_state_t) (host : host_t)
      (pre : list byte) (op : byte) (args : list byte) :
  0 < command_args_size (byte_val op) ->
  ram_write (reached chip host pre) = false ->
  exists h1,
    cells h1 = cells host
    /\ fst (send_batch (chip, host) (pre ++ [op]) args)
       = fst (process_command_args (awaiting (reached chip host pre) op, h1) args)
    /\ cells (snd (send_batch (chip, host) (pre ++ [op]) args))
       = cells (snd (process_command_args
                       (awaiting (reached chip host pre) op, h1) args)).
Proof.
  intros Harity Hr.
  destruct (send_batch_latched chip host pre op args Harity) as (h1 & C & E & Cs).
  destruct (reached_facts chip host pre) as [Hm _].
  rewrite (latched_awaiting _ op Hm Hr) in E, Cs.
  destruct (spi_done_args (awaiting (reached chip host pre) op) h1 args)
    as [E4 C4]; [reflexivity|reflexivity|].
  exists h1. split; [exact C|]. split; congruence.
Qed.

(** With a memory write armed it is a batch of pixel data. *)
Lemma send_batch_armed (chip : chip_state_t) (host : host_t)
      (pre : list byte) (op : byte) (args : list byte) :
  0 < command_args_size (byte_val op) ->
  ram_write (reached chip host pre) = true ->
  exists h1,
    cells h1 = cells host
    /\ fst (send_batch (chip, host) (pre ++ [op]) args)
       = fst (process_data (latched (reached chip host pre) op, h1) args)
    /\ cells (snd (send_batch (chip, host) (pre ++ [op]) args))
       = cells (snd (process_data (latched (reached chip host pre) op, h1) args)).
Proof.
  intros Harity Hr.
  destruct (send_batch_latched chip host pre op args Harity) as (h1 & C & E & Cs).
  destruct (chip_spi_done_armed (latched (reached chip host pre) op) h1 args)
    as [E4 C4]; [split; [reflexivity|exact Hr]|].
  exists h1. split; [exact C|]. split; congruence.
Qed.

(** * Window-set and short commands in any command batch *)

Lemma window_set_awaiting (c : chip_state_t) (h : host_t) (op c0 c1 c2 c3 : byte) :
  length (command_buf c) = 16%nat -> op = x2a \/ op = x2b ->
  window (fst (process_command_args (awaiting c op, h) [c0; c1; c2; c3]))
  = stored_window c op (be16 c0 c1) (be16 c2 c3)
  /\ width (fst (process_command_args (awaiting c op, h) [c0; c1; c2; c3])) = width c
  /\ height (fst (process_command_args (awaiting c op, h) [c0; c1; c2; c3])) = height c.
Proof.
  intros Hlen Hop. rewrite window_set_args by exact Hop. cbn [fst].
  destruct (loaded_args c op c0 c1 c2 c3 Hlen) as (H0 & H1 & H2 & H3).
  unfold stored_window.
  destruct Hop as [-> | ->].
  - rewrite (execute_window_set_effect (loaded c x2a c0 c1 c2 c3)
               c0 c1 c2 c3 eq_refl H0 H1 H2 H3).
    change (targets_page c x2a) with (xorb false (swap_axes c)).
    change (command_code (loaded c x2a c0 c1 c2 c3) =? CMD_RASET) with false.
    change (swap_axes (loaded c x2a c0 c1 c2 c3)) with (swap_axes c).
    destruct (xorb false (swap_axes c)); repeat split; reflexivity.
  - rewrite (execute_window_set_effect (loaded c x2b c0 c1 c2 c3)
               c0 c1 c2 c3 eq_refl H0 H1 H2 H3).
    change (targets_page c x2b) with (xorb true (swap_axes c)).
    change (command_code (loaded c x2b c0 c1 c2 c3) =? CMD_RASET) with true.
    change (swap_axes (loaded c x2b c0 c1 c2 c3)) with (swap_axes c).
    destruct (xorb true (swap_axes c)); repeat split; reflexivity.
Qed.

Lemma window_ok_ordered (c : chip_state_t) :
  window_ok c <-> ordered_window (window c) (width c) (height c).
Proof. reflexivity. Qed.

Lemma send_batch_short_window (chip : chip_state_t) (host : host_t)
      (pre : list byte) (op : byte) (args : list byte) :
  0 < command_args_size (byte_val op) ->
  Z.of_nat (length args) < command_args_size (byte_val op) ->
  window (fst (send_batch (chip, host) (pre ++ [op]) args))
  = window (reached chip host pre).
Proof.
  intros Harity Hshort.
  pose proof (command_args_size_range (byte_val op)) as Hr.
  destruct (ram_write (reached chip host pre)) eqn:Harm.
  - destruct (send_batch_armed chip host pre op args Harity Harm)
      as (h1 & _ & E & _).
    rewrite E, process_data_loop, pixel_loop_fst. cbn [fst].
    rewrite iter_advance_frame. reflexivity.
  - destruct (send_batch_awaiting chip host pre op args Harity Harm)
      as (h1 & _ & E & _).
    destruct (process_command_args_short args (awaiting (reached chip host pre) op) h1)
      as [buf' Hrun]; cbn; try lia.
    rewrite E, Hrun. reflexivity.
Qed.

(** C6 (amended): a window-set command stores its two argument values
    without validating them.  When CASET or RASET is executed with
    its four argument bytes (the opcode at the end of a command batch
    that leaves no memory write armed, in particular alone in its
    batch), the bounds of the addressed axis become the two big-endian
    arguments, after the 32-row correction on the page axis, and the
    bounds of the other axis and the extent are unchanged.  Hence
    start <= end < extent holds on both axes afterwards exactly when
    it holds for the unchanged axis and for the values stored, in
    particular when it held before and the values stored satisfy it;
    nothing enforces it.  With fewer than four argument bytes the
    window is left as it was when the opcode was decoded. *)
Theorem window_set_unchecked
        (chip : chip_state_t) (host : host_t) (pre : list byte)
        (op c0 c1 c2 c3 : byte) :
  op = x2a \/ op = x2b ->
  let before := reached chip host pre in
  (chip_ok chip -> ram_write before = false ->
   let chip' := fst (send_batch (chip, host) (pre ++ [op]) [c0; c1; c2; c3]) in
   window chip' = stored_window before op (be16 c0 c1) (be16 c2 c3)
   /\ width chip' = width chip /\ height chip' = height chip
   /\ (window_ok chip'
       <-> ordered_window (stored_window before op (be16 c0 c1) (be16 c2 c3))
                          (width chip) (height chip)))
  /\ (forall args : list byte,
        (length args < 4)%nat ->
        window (fst (send_batch (chip, host) (pre ++ [op]) args)) = window before)
  /\ (chip_ok chip ->
      let chip' := fst (send_command (chip, host) op [c0; c1; c2; c3]) in
      window chip' = stored_window chip op (be16 c0 c1) (be16 c2 c3)
      /\ (window_ok chip'
          <-> ordered_window (stored_window chip op (be16 c0 c1) (be16 c2 c3))
                             (width chip) (height chip))
      /\ (window_ok chip ->
          (if targets_page chip op
           then row_offset chip (be16 c0 c1) <= row_offset chip (be16 c2 c3)
                < height chip
           else be16 c0 c1 <= be16 c2 c3 < width chip) ->
          window_ok chip'))
  /\ (forall args : list byte,
        (length args < 4)%nat ->
        window (fst (send_command (chip, host) op args)) = window chip).
Proof.
  intros Hop before.
  assert (Harity : command_args_size (byte_val op) = 4)
    by (destruct Hop as [-> | ->]; reflexivity).
  assert (Hfull : forall pre',
             chip_ok chip -> ram_write (reached chip host pre') = false ->
             let c := reached chip host pre' in
             let chip' := fst (send_batch (chip, host) (pre' ++ [op]) [c0; c1; c2; c3]) in
             window chip' = stored_window c op (be16 c0 c1) (be16 c2 c3)
             /\ width chip' = width chip /\ height chip' = height chip
             /\ (window_ok chip'
                 <-> ordered_window (stored_window c op (be16 c0 c1) (be16 c2 c3))
                                    (width chip) (height chip))).
  { intros pre' Hok Hun c chip'.
    destruct (reached_ok chip host pre' Hok) as (Hok0 & Ew0 & Eh0).
    destruct (send_batch_awaiting chip host pre' op [c0; c1; c2; c3])
      as (h1 & _ & E & _); [lia|exact Hun|].
    destruct (window_set_awaiting (reached chip host pre') h1 op c0 c1 c2 c3
                (ok_command_buf _ Hok0) Hop) as (Hwin & Ew & Eh).
    subst chip' c. rewrite <- E in Hwin, Ew, Eh.
    split; [exact Hwin|]. split; [congruence|]. split; [congruence|].
    rewrite window_ok_ordered, Hwin, Ew, Eh, Ew0, Eh0. reflexivity. }
  assert (Hshort : forall pre' args,
             (length args < 4)%nat ->
             window (fst (send_batch (chip, host) (pre' ++ [op]) args))
             = window (reached chip host pre')).
  { intros pre' args Hlen. apply send_batch_short_window; lia. }
  split; [exact (Hfull pre)|]. split; [exact (Hshort pre)|].
  split.
  - intros Hok. destruct (Hfull [] Hok eq_refl) as (Hwin & _ & _ & Hiff).
    split; [exact Hwin|]. split; [exact Hiff|].
    intros [Hcol Hpage] Hargs.
    assert (G : ordered_window (stored_window chip op (be16 c0 c1) (be16 c2 c3))
                               (width chip) (height chip)).
    { unfold stored_window, ordered_window.
      destruct (targets_page chip op); cbn [fst snd]; split; assumption. }
    exact (proj2 Hiff G).
  - intros args Hlen. exact (Hshort [] args Hlen).
Qed.

(** The theorem at CASET 16..32 on the 64 x 48 panel, the opcode
    preceded in its batch by RAMWR and a software reset. *)
Lemma window_set_unchecked_witness :
  (x2a = x2a \/ x2a = x2b)
  /\ chip_ok (fst panel)
  /\ ram_write (reached (fst panel) (snd panel) [x2c; x01]) = false
  /\ let before := reached (fst panel) (snd panel) [x2c; x01] in
     (chip_ok (fst panel) -> ram_write before = false ->
      let chip' := fst (send_batch (fst panel, snd panel) ([x2c; x01] ++ [x2a])
                          [x00; x10; x00; x20]) in
      window chip' = stored_window before x2a (be16 x00 x10) (be16 x00 x20)
      /\ width chip' = width (fst panel) /\ height chip' = height (fst panel)
      /\ (window_ok chip'
          <-> ordered_window (stored_window before x2a (be16 x00 x10) (be16 x00 x20))
                             (width (fst panel)) (height (fst panel))))
     /\ (forall args : list byte,
           (length args < 4)%nat ->
           window (fst (send_batch (fst panel, snd panel) ([x2c; x01] ++ [x2a]) args))
           = window before)
     /\ (chip_ok (fst panel) ->
         let chip' := fst (send_command (fst panel, snd panel) x2a
                             [x00; x10; x00; x20]) in
         window chip' = stored_window (fst panel) x2a (be16 x00 x10) (be16 x00 x20)
         /\ (window_ok chip'
             <-> ordered_window
                   (stored_window (fst panel) x2a (be16 x00 x10) (be16 x00 x20))
                   (width (fst panel)) (height (fst panel)))
         /\ (window_ok (fst panel) ->
             (if targets_page (fst panel) x2a
              then row_offset (fst panel) (be16 x00 x10)
                   <= row_offset (fst panel) (be16 x00 x20) < height (fst panel)
              else be16 x00 x10 <= be16 x00 x20 < width (fst panel)) ->
             window_ok chip'))
     /\ (forall args : list byte,
           (length args < 4)%nat ->
           window (fst (send_command (fst panel, snd panel) x2a args))
           = window (fst panel)).
Proof.
  split; [left; reflexivity|]. split; [by_eval|]. split; [by_eval|].
  apply window_set_unchecked. left; reflexivity.
Defined.



(** * The 32-row correction *)

(** C7 (amended): when a window-set command updates the page
    registers and the row-mirror bit of scanning_direction is set, 32
    is subtracted from start, from end and from the resulting
    active-page cursor for each value that is >= 32, and each value
    below 32 is stored as it is (it is not clamped at 0).  With the
    row-mirror bit clear the page registers receive the arguments
    unchanged, and the column axis is never corrected: a command that
    addresses it stores the arguments unchanged and leaves the page
    registers alone. *)
Theorem row_mirror_subtracts_32
        (chip : chip_state_t) (host : host_t) (op c0 c1 c2 c3 : byte) :
  chip_ok chip -> op = x2a \/ op = x2b ->
  let chip' := fst (send_command (chip, host) op [c0; c1; c2; c3]) in
  let v0 := be16 c0 c1 in
  let v2 := be16 c2 c3 in
  let less32 := fun v => if 32 <=? v then v - 32 else v in
  (targets_page chip op = true -> row_mirror chip = true ->
   page_start chip' = less32 v0 /\ page_end chip' = less32 v2
   /\ active_page chip' = less32 v0)
  /\ (targets_page chip op = true -> row_mirror chip = false ->
      page_start chip' = v0 /\ page_end chip' = v2 /\ active_page chip' = v0)
  /\ (targets_page chip op = true ->
      column_start chip' = column_start chip /\ column_end chip' = column_end chip
      /\ active_column chip' = active_column chip)
  /\ (targets_page chip op = false ->
      column_start chip' = v0 /\ column_end chip' = v2 /\ active_column chip' = v0
      /\ page_start chip' = page_start chip /\ page_end chip' = page_end chip
      /\ active_page chip' = active_page chip)
  /\ scanning_direction chip' = scanning_direction chip.
Proof.
  intros Hok Hop chip' v0 v2 less32.
  destruct (send_window_set chip host op c0 c1 c2 c3 (ok_command_buf chip Hok) Hop)
    as [Hfst _].
  subst chip'. rewrite Hfst. clear Hfst. cbn zeta. unfold row_offset.
  destruct (targets_page chip op); cbn.
  - split; [intros _ ->; repeat split; reflexivity|].
    split; [intros _ ->; repeat split; reflexivity|].
    split; [intros _; repeat split; reflexivity|].
    split; [discriminate|reflexivity].
  - split; [discriminate|]. split; [discriminate|]. split; [discriminate|].
    split; [intros _; repeat split; reflexivity|reflexivity].
Qed.

(** The theorem at the panel with MADCTL = 0xA0 (rows mirrored, axes
    swapped, so that CASET addresses the page registers), for the
    bounds 20 and 40. *)
Lemma row_mirror_subtracts_32_witness :
  chip_ok (fst rotated) /\ (x2a = x2a \/ x2a = x2b)
  /\ targets_page (fst rotated) x2a = true /\ row_mirror (fst rotated) = true
  /\ let chip' := fst (send_command (fst rotated, snd rotated) x2a
                         [x00; x14; x00; x28]) in
     let v0 := be16 x00 x14 in
     let v2 := be16 x00 x28 in
     let less32 := fun v => if 32 <=? v then v - 32 else v in
     (targets_page (fst rotated) x2a = true -> row_mirror (fst rotated) = true ->
      page_start chip' = less32 v0 /\ page_end chip' = less32 v2
      /\ active_page chip' = less32 v0)
     /\ (targets_page (fst rotated) x2a = true -> row_mirror (fst rotated) = false ->
         page_start chip' = v0 /\ page_end chip' = v2 /\ active_page chip' = v0)
     /\ (targets_page (fst rotated) x2a = true ->
         column_start chip' = column_start (fst rotated)
         /\ column_end chip' = column_end (fst rotated)
         /\ active_column chip' = active_column (fst rotated))
     /\ (targets_page (fst rotated) x2a = false ->
         column_start chip' = v0 /\ column_end chip' = v2
         /\ active_column chip' = v0
         /\ page_start chip' = page_start (fst rotated)
         /\ page_end chip' = page_end (fst rotated)
         /\ active_page chip' = active_page (fst rotated))
     /\ scanning_direction chip' = scanning_direction (fst rotated).
Proof.
  split; [by_eval|]. split; [left; reflexivity|].
  split; [by_eval|]. split; [by_eval|].
  apply row_mirror_subtracts_32; [by_eval|left; reflexivity].
Defined.

(** * Clipped samples *)

(** On a well-formed state the code's advancement is the cursor step
    of the specification, wherever the cursor is. *)
Lemma advance_step_cursor (chip : chip_state_t) :
  chip_ok chip -> advance chip = step_cursor chip.
Proof.
  intros [_ _ _ Hac Hap Hcs Hce Hps Hpe]. unfold reg_ok in *.
  unfold step_cursor. rewrite (advance_frame chip).
  assert (E : (active_column (advance chip), active_page (advance chip))
              = next_cursor chip).
  { unfold advance, next_cursor. rewrite flag_MV.
    destruct (swap_axes chip); cbn.
    - rewrite (u32_small (active_page chip + 1)) by lia.
      destruct (Z.ltb_spec (page_end chip) (active_page chip + 1)),
               (Z.ltb_spec (active_page chip) (page_end chip)); try lia; cbn;
        [|reflexivity].
      rewrite (u32_small (active_column chip + 1)) by lia.
      destruct (Z.ltb_spec (column_end chip) (active_column chip + 1)),
               (Z.ltb_spec (active_column chip) (column_end chip)); try lia;
        reflexivity.
    - rewrite (u32_small (active_column chip + 1)) by lia.
      destruct (Z.ltb_spec (column_end chip) (active_column chip + 1)),
               (Z.ltb_spec (active_column chip) (column_end chip)); try lia; cbn;
        [|reflexivity].
      rewrite (u32_small (active_page chip + 1)) by lia.
      destruct (Z.ltb_spec (page_end chip) (active_page chip + 1)),
               (Z.ltb_spec (active_page chip) (page_end chip)); try lia;
        reflexivity. }
  rewrite <- E. reflexivity.
Qed.

Lemma iter_advance_step_cursor (n : nat) (chip : chip_state_t) :
  chip_ok chip -> Nat.iter n advance chip = Nat.iter n step_cursor chip.
Proof.
  intros Hok. induction n as [|n IH]; [reflexivity|].
  change (Nat.iter (S n) advance chip) with (advance (Nat.iter n advance chip)).
  change (Nat.iter (S n) step_cursor chip)
    with (step_cursor (Nat.iter n step_cursor chip)).
  rewrite <- IH. apply advance_step_cursor, iter_advance_ok, Hok.
Qed.

(** The first sample of a batch, and the rest of it. *)
Lemma process_data_first (s : sim) (hi lo : byte) (buf : list byte) :
  process_data s (hi :: lo :: buf)
  = process_data (write_pixel s (be16 hi lo)) buf.
Proof.
  rewrite !process_data_loop. cbn [length].
  assert (Hn : (S (S (length buf)) / 2 = S (length buf / 2))%nat).
  { change (S (S (length buf))) with (1 * 2 + length buf)%nat.
    rewrite Nat.div_add_l by lia. reflexivity. }
  rewrite Hn.
  unfold pixel_loop. cbn [seq fold_left].
  replace (sample_at (hi :: lo :: buf) 0) with (be16 hi lo)
    by (symmetry; unfold sample_at; cbn [Nat.mul Nat.add nth];
        pose proof (byte_val_range hi); rewrite (u16_small (byte_val hi)) by lia;
        apply be16_code).
  apply fold_samples_ext. intros i Hi.
  apply (sample_at_app_r [hi; lo] buf 1 i). reflexivity.
Qed.

Lemma out_of_bounds_oriented (chip : chip_state_t) :
  chip_ok chip ->
  active_column chip < 2 ^ 31 -> active_page chip < 2 ^ 31 ->
  width chip < 2 ^ 31 -> height chip < 2 ^ 31 ->
  out_of_bounds chip (target_x chip) (target_y chip) = true
  <-> ~ (0 <= fst (oriented chip) < width chip
         /\ 0 <= snd (oriented chip) < height chip).
Proof.
  intros Hok Hc Hp Hw Hh.
  pose proof (ok_width chip Hok) as HW. pose proof (ok_height chip Hok) as HH.
  pose proof (ok_active_column chip Hok) as Hac.
  pose proof (ok_active_page chip Hok) as Hap. unfold reg_ok in Hac, Hap.
  assert (Ht : (target_x chip, target_y chip) = oriented chip)
    by (apply target_oriented; lia).
  pose proof (f_equal fst Ht) as Htx. pose proof (f_equal snd Ht) as Hty.
  cbn [fst snd] in Htx, Hty. rewrite Htx, Hty.
  unfold out_of_bounds. rewrite !int32_small by lia.
  destruct (Z.ltb_spec (fst (oriented chip)) 0),
           (Z.leb_spec (width chip) (fst (oriented chip))),
           (Z.ltb_spec (snd (oriented chip)) 0),
           (Z.leb_spec (height chip) (snd (oriented chip)));
    cbn; split; intros H'; try reflexivity; try discriminate; try lia;
    exfalso; apply H'; lia.
Qed.

(** C10: a sample whose transformed coordinate lies outside the
    framebuffer is skipped: nothing is written and the host is not
    called, the cursor moves to the next position of the window
    exactly as for a sample that is written, and the rest of the batch
    is processed from there.  After a batch the cursor has made one
    such step per complete sample, whichever samples were clipped.
    Every write the pixel writer issues is at a cell y * width + x
    with 0 <= x < width and 0 <= y < height. *)
Theorem clipped_samples_are_skipped
        (chip : chip_state_t) (host : host_t) (hi lo : byte) (buf : list byte) :
  chip_ok chip ->
  (out_of_bounds chip (target_x chip) (target_y chip) = true ->
   process_data (chip, host) [hi; lo] = (step_cursor chip, host)
   /\ process_data (chip, host) (hi :: lo :: buf)
      = process_data (step_cursor chip, host) buf)
  /\ fst (process_data (chip, host) [hi; lo]) = step_cursor chip
  /\ fst (process_data (chip, host) buf)
     = Nat.iter (length buf / 2) step_cursor chip
  /\ (active_column chip < 2 ^ 31 -> active_page chip < 2 ^ 31 ->
      width chip < 2 ^ 31 -> height chip < 2 ^ 31 ->
      (out_of_bounds chip (target_x chip) (target_y chip) = true
       <-> ~ (0 <= fst (oriented chip) < width chip
              /\ 0 <= snd (oriented chip) < height chip)))
  /\ (4 * (width chip * height chip) <= 2 ^ 32 ->
      exists ws,
        calls (snd (process_data (chip, host) buf)) = calls host ++ ws
        /\ Forall (in_bounds_write chip) ws).
Proof.
  intros Hok.
  pose proof (advance_step_cursor chip Hok) as Hstep.
  split; [|split; [|split; [|split]]].
  - intros Hoob.
    assert (Hskip : forall val, write_pixel (chip, host) val = (step_cursor chip, host)).
    { intros val. unfold write_pixel. rewrite Hoob, Hstep. reflexivity. }
    split.
    + rewrite (process_data_first (chip, host) hi lo []), Hskip. reflexivity.
    + rewrite process_data_first, Hskip. reflexivity.
  - rewrite (process_data_first (chip, host) hi lo []).
    change (process_data ?s []) with s. rewrite write_pixel_fst. exact Hstep.
  - rewrite process_data_loop, pixel_loop_fst. cbn [fst].
    apply iter_advance_step_cursor, Hok.
  - intros Hc Hp Hw Hh. apply out_of_bounds_oriented; assumption.
  - intros Hfit. rewrite process_data_loop.
    apply pixel_loop_calls; [apply Hok|apply Hok|exact Hfit].
Qed.

(** The theorem at a cursor outside the 3 x 2 panel (column 3 of a
    window six columns wide), for a sample and a batch of four samples
    and a trailing byte. *)
Lemma clipped_samples_are_skipped_witness :
  chip_ok (fst clipping)
  /\ out_of_bounds (fst clipping) (target_x (fst clipping))
                   (target_y (fst clipping)) = true
  /\ 4 * (width (fst clipping) * height (fst clipping)) <= 2 ^ 32
  /\ ((out_of_bounds (fst clipping) (target_x (fst clipping))
                     (target_y (fst clipping)) = true ->
       process_data (fst clipping, snd clipping) [xf8; x00]
       = (step_cursor (fst clipping), snd clipping)
       /\ process_data (fst clipping, snd clipping)
            (xf8 :: x00 :: [xf8; x00; x07; xe0; x00; x1f; xff; xff; x12])
          = process_data (step_cursor (fst clipping), snd clipping)
              [xf8; x00; x07; xe0; x00; x1f; xff; xff; x12])
      /\ fst (process_data (fst clipping, snd clipping) [xf8; x00])
         = step_cursor (fst clipping)
      /\ fst (process_data (fst clipping, snd clipping)
                [xf8; x00; x07; xe0; x00; x1f; xff; xff; x12])
         = Nat.iter (length [xf8; x00; x07; xe0; x00; x1f; xff; xff; x12] / 2)
                    step_cursor (fst clipping)
      /\ (active_column (fst clipping) < 2 ^ 31 ->
          active_page (fst clipping) < 2 ^ 31 ->
          width (fst clipping) < 2 ^ 31 -> height (fst clipping) < 2 ^ 31 ->
          (out_of_bounds (fst clipping) (target_x (fst clipping))
                         (target_y (fst clipping)) = true
           <-> ~ (0 <= fst (oriented (fst clipping)) < width (fst clipping)
                  /\ 0 <= snd (oriented (fst clipping)) < height (fst clipping))))
      /\ (4 * (width (fst clipping) * height (fst clipping)) <= 2 ^ 32 ->
          exists ws,
            calls (snd (process_data (fst clipping, snd clipping)
                          [xf8; x00; x07; xe0; x00; x1f; xff; xff; x12]))
            = calls (snd clipping) ++ ws
            /\ Forall (in_bounds_write (fst clipping)) ws)).
Proof.
  split; [by_eval|]. split; [by_eval|]. split; [by_eval|].
  apply clipped_samples_are_skipped; by_eval.
Defined.
